(** * The IoT device simulator (src/simulator.ts)

    A shallow embedding of the telemetry generator, the device agent, the
    start-up script and the scheduling loop, followed by the properties of
    the specification that hold of them.

    - JavaScript numbers are IEEE 754 binary64 values.  They are Rocq's
      primitive floats, whose operations are the correctly rounded binary64
      ones; exact values are taken in [Q] through [Prim2SF], and the facts
      about rounding are derived from the specification of the operations
      in [SpecFloat].  Device IDs are integers and are kept in [Z].
    - What a call takes from outside (the values of [Math.random()], the
      clock, the fate of an HTTP request, the files and the environment of
      the process) is an explicit argument.
    - Code that can throw runs in a state-and-exception monad, [Eff].
    - The event loop is a function from events to process states, with a
      clock in milliseconds for the timers. *)

From stdpp Require Import base strings gmap pretty list.
From Stdlib Require Import ZArith QArith Qpower Qround Qabs Floats Lia Lqa Bool.

Set Warnings "-inexact-float".
Open Scope Z_scope.

Abbreviation fexp := (SpecFloat.fexp prec emax).

(** ** Numbers *)

(** [2 ^ e] as a rational, for any integer [e]. *)
Definition bpow (e : Z) : Q := (2 ^ e)%Q.

(** The exact value of a finite number (0 for the other ones). *)
Definition SF2Q (x : spec_float) : Q :=
  match x with
  | S754_finite s m e => (inject_Z (cond_Zopp s (Zpos m)) * bpow e)%Q
  | _ => 0%Q
  end.

Definition SFfinite (x : spec_float) : bool :=
  match x with
  | S754_zero _ | S754_finite _ _ _ => true
  | _ => false
  end.

Definition F2Q (x : float) : Q := SF2Q (Prim2SF x).
Definition finiteF (x : float) : bool := SFfinite (Prim2SF x).

(** An integer as a Number (rounded when it needs more than 53 bits). *)
Definition Z2F (z : Z) : float := SF2Prim (binary_normalize prec emax z 0 false).

(** [Math.floor].  A number whose exponent is not negative is an integer
    already; NaN, the infinities and the zeros are returned unchanged. *)
Definition Math_floor (x : float) : float :=
  match Prim2SF x with
  | S754_finite _ _ e => if e <? 0 then Z2F (Qfloor (F2Q x)) else x
  | _ => x
  end.

(** The text that [x.toFixed(1)] produces, by what it denotes.  [Tenths s n]
    is the decimal numeral of [n / 10] with one fraction digit, preceded by
    a minus sign when [s]; [n] is the integer closest to [10 * |x|], the
    larger one on a tie.  [Verbatim x] stands for the texts that read back
    as [x] itself: "NaN", "Infinity", and the digits of a number of exponent
    [-3] or more (a multiple of 1/8 of magnitude at least [2 ^ 49], which
    the numeral with one fraction digit still rounds to). *)
Inductive numeral : Type :=
| Tenths (negative : bool) (n : Z)
| Verbatim (x : float).

Definition toFixed1 (x : float) : numeral :=
  match Prim2SF x with
  | S754_zero _ => Tenths false 0
  | S754_finite s _ e =>
      if e <? -3 then Tenths s (Qfloor (10 * Qabs (F2Q x) + (1 # 2))%Q) else Verbatim x
  | _ => Verbatim x
  end.

(** [parseFloat] on those texts: the Number closest to [n / 10]. *)
Definition parseFloat (t : numeral) : float :=
  match t with
  | Tenths s n => let q := (Z2F n / 10)%float in if s then (- q)%float else q
  | Verbatim x => x
  end.

(** ** Configuration and interfaces *)

Definition default_TARGET_API_URL : string := "http://localhost:3000/api/telemetry".
Definition UPDATE_INTERVAL_MS : Z := 2000.

Record DeviceConfig : Type := {
  deviceId : Z;
  serial : string;
  name : string;
  location : string
}.

Record PayloadInfo : Type := { firmware : string; status : string }.

Record TelemetryPayload : Type := {
  tp_deviceId : Z;
  ts : string;
  temperature : float;
  humidity : float;
  battery : float;
  payload : PayloadInfo
}.

(** ** class SimulatedDevice *)

(** [baseTemp] and [baseHum] are integers, as [deviceId] is one; they are
    kept in [Z] and enter the binary64 arithmetic through [Z2F]. *)
Record SimulatedDevice : Type := {
  config : DeviceConfig;
  token : string;
  baseTemp : Z;
  baseHum : Z;
  currentBattery : float
}.

(** The constructor; [random] is the value that [Math.random()] returns.
    [%] is the remainder that takes the sign of the dividend, [Z.rem]. *)
Definition new_SimulatedDevice (config : DeviceConfig) (token : string)
    (random : float) : SimulatedDevice :=
  let seed := deviceId config in
  {| config := config;
     token := token;
     baseTemp := 20 + Z.rem seed 10;
     baseHum := 40 + Z.rem seed 15;
     currentBattery := Math_floor (random * 100) |}.

Definition variance (random : float) : float := (0.8 + random * 0.4)%float.

(** [generateTelemetry]: [random1] and [random2] are the two draws of
    [Math.random()], in the order of the calls, and [now] the text of
    [new Date().toISOString()].  Returns the payload and the device after
    the call. *)
Definition generateTelemetry (this : SimulatedDevice) (random1 random2 : float)
    (now : string) : TelemetryPayload * SimulatedDevice :=
  let temp := parseFloat (toFixed1 (Z2F (baseTemp this) * variance random1)) in
  let hum := parseFloat (toFixed1 (Z2F (baseHum this) * variance random2)) in
  let drained := (currentBattery this - 0.35)%float in
  let currentBattery' := if (drained <=? 0)%float then 100%float else drained in
  ({| tp_deviceId := deviceId (config this);
      ts := now;
      temperature := temp;
      humidity := hum;
      battery := parseFloat (toFixed1 currentBattery');
      payload := {| firmware := "1.0.4"; status := "ok" |} |},
   {| config := config this;
      token := token this;
      baseTemp := baseTemp this;
      baseHum := baseHum this;
      currentBattery := currentBattery' |}).

(** The device after a run of calls, one triple of inputs per call. *)
Definition calls (this : SimulatedDevice) (inputs : list (float * float * string))
    : SimulatedDevice :=
  foldl (fun d '(r1, r2, now) => snd (generateTelemetry d r1 r2 now)) this inputs.

(** ** Effects: the console, the network and exceptions *)

Inductive JsError : Type :=
| ENOENT (path : string)          (* fs.readFileSync on a missing file *)
| SyntaxError (text : string)     (* JSON.parse on a text that is not JSON *)
| AxiosError (message : string).  (* axios.post: no response, or a status outside 2xx *)

Definition message (error : JsError) : string :=
  match error with
  | ENOENT path => "ENOENT: no such file or directory, open '" +:+ path +:+ "'"
  | SyntaxError _ => "Unexpected token in JSON"
  | AxiosError message => message
  end.

(** Console lines, by the values interpolated into each text. *)
Inductive LogLine : Type :=
| LogLoading (n : nat)                                     (* log, line 118 *)
| WarnNoToken (deviceId : Z) (envTokenKey : string)        (* warn, line 127 *)
| LogInitialized (n : nat)                                 (* log, line 134 *)
| LogRunning (port : string)                               (* log, line 153 *)
| LogSent (name location : string) (data : TelemetryPayload)     (* log, line 101 *)
| LogError (name : string) (deviceId : Z) (message : string).    (* error, line 103 *)

Record Request : Type := {
  url : string;
  body : TelemetryPayload;
  headers : list (string * string)
}.

(** What the network does with one request. *)
Inductive Outcome : Type :=
| Responded (status_code : Z)
| NoResponse (reason : string).

Record IO : Type := {
  console : list LogLine;   (* oldest first *)
  posted : list Request     (* oldest first *)
}.

Inductive Completion (A : Type) : Type :=
| Normal (a : A)
| Throw (error : JsError).
Arguments Normal {A} a.
Arguments Throw {A} error.

(** A computation over a state [S] that returns or throws. *)
Definition Eff (S A : Type) : Type := S -> Completion A * S.

Definition ret {S A : Type} (a : A) : Eff S A := fun s => (Normal a, s).

Definition bind {S A B : Type} (c : Eff S A) (k : A -> Eff S B) : Eff S B :=
  fun s =>
    match c s with
    | (Normal a, s') => k a s'
    | (Throw error, s') => (Throw error, s')
    end.

Definition throw {S A : Type} (error : JsError) : Eff S A := fun s => (Throw error, s).

Definition try_catch {S A : Type} (c : Eff S A) (handler : JsError -> Eff S A) : Eff S A :=
  fun s =>
    match c s with
    | (Normal a, s') => (Normal a, s')
    | (Throw error, s') => handler error s'
    end.

Declare Scope eff_scope.
Delimit Scope eff_scope with eff.
Notation "x <- c ;; k" := (bind c (fun x => k))
  (at level 100, c at next level, right associativity) : eff_scope.
Notation "c ;; k" := (bind c (fun _ => k))
  (at level 100, right associativity) : eff_scope.

Definition console_write (line : LogLine) : Eff IO unit :=
  fun io => (Normal tt, {| console := console io ++ [line]; posted := posted io |}).

(** [axios.post]: the request goes out, and the promise is rejected unless a
    response with a 2xx status comes back (axios' default [validateStatus]). *)
Definition axios_post (target : string) (data : TelemetryPayload)
    (hdrs : list (string * string)) (outcome : Outcome) : Eff IO unit :=
  fun io =>
    let io' := {| console := console io;
                  posted := posted io ++ [{| url := target; body := data; headers := hdrs |}] |} in
    match outcome with
    | Responded code =>
        if (200 <=? code) && (code <? 300) then (Normal tt, io')
        else (Throw (AxiosError ("Request failed with status code " +:+ pretty code)), io')
    | NoResponse reason => (Throw (AxiosError reason), io')
    end.

(** What one [pushData] call takes from outside: two random draws, the
    clock and the fate of the request. *)
Record Inputs : Type := {
  random1 : float;
  random2 : float;
  now : string;
  outcome : Outcome
}.

(** [pushData]; returns the device after the call. *)
Definition pushData (TARGET_API_URL : string) (this : SimulatedDevice) (i : Inputs)
    : Eff IO SimulatedDevice :=
  (let '(data, this') := generateTelemetry this (random1 i) (random2 i) (now i) in
   try_catch
     (axios_post TARGET_API_URL data
        [("Content-Type", "application/json"); ("x-device-token", token this')]
        (outcome i) ;;
      console_write (LogSent (name (config this')) (location (config this')) data))
     (fun error =>
      console_write (LogError (name (config this')) (tp_deviceId data) (message error))) ;;
   ret this')%eff.

(** [devices.forEach(d => d.pushData())].  The calls are started in the
    order of the array, [inputs k] being what the call on the [k]-th device
    takes.  Each call is run to its end before the next one starts: of the
    orders in which the parts after [await] can run, this is the one of the
    array.  No promise is awaited; a rejected one would be an unhandled
    rejection, which is how a [Throw] comes out of the tick. *)
Fixpoint forEach_pushData (TARGET_API_URL : string) (devices : list SimulatedDevice)
    (k : nat) (inputs : nat -> Inputs) : Eff IO (list SimulatedDevice) :=
  match devices with
  | [] => ret []
  | d :: rest =>
      (d' <- pushData TARGET_API_URL d (inputs k) ;;
       rest' <- forEach_pushData TARGET_API_URL rest (S k) inputs ;;
       ret (d' :: rest'))%eff
  end.

(** ** The process *)

(** What the process finds around it. *)
Record Host : Type := {
  cwd : string;
  files : gmap string string;     (* path to contents *)
  env : gmap string string;       (* process.env, after dotenv.config() *)
  JSON_parse : string -> option (list DeviceConfig);
    (* JSON.parse on a registry text; None when it throws *)
  Math_random : nat -> float      (* the value of the n-th call *)
}.

Record Timer : Type := { delay : Z; due : Z }.   (* the callback is the fleet tick *)

Record Process : Type := {
  devices : list SimulatedDevice;
  io : IO;
  routes : list string;           (* GET routes registered on the app *)
  listening : option string;      (* the port given to app.listen *)
  started : bool;                 (* the callback of app.listen has run *)
  timers : list Timer;            (* setInterval registrations *)
  clock : Z;                      (* milliseconds *)
  tick_times : list Z;            (* when each fleet tick ran, oldest first *)
  crashed : option JsError        (* an exception reached the top level *)
}.

Definition with_devices (x : list SimulatedDevice) (p : Process) : Process :=
  {| devices := x; io := io p; routes := routes p; listening := listening p;
     started := started p; timers := timers p; clock := clock p;
     tick_times := tick_times p; crashed := crashed p |}.
Definition with_io (x : IO) (p : Process) : Process :=
  {| devices := devices p; io := x; routes := routes p; listening := listening p;
     started := started p; timers := timers p; clock := clock p;
     tick_times := tick_times p; crashed := crashed p |}.
Definition with_routes (x : list string) (p : Process) : Process :=
  {| devices := devices p; io := io p; routes := x; listening := listening p;
     started := started p; timers := timers p; clock := clock p;
     tick_times := tick_times p; crashed := crashed p |}.
Definition with_listening (x : option string) (p : Process) : Process :=
  {| devices := devices p; io := io p; routes := routes p; listening := x;
     started := started p; timers := timers p; clock := clock p;
     tick_times := tick_times p; crashed := crashed p |}.
Definition with_started (x : bool) (p : Process) : Process :=
  {| devices := devices p; io := io p; routes := routes p; listening := listening p;
     started := x; timers := timers p; clock := clock p;
     tick_times := tick_times p; crashed := crashed p |}.
Definition with_timers (x : list Timer) (p : Process) : Process :=
  {| devices := devices p; io := io p; routes := routes p; listening := listening p;
     started := started p; timers := x; clock := clock p;
     tick_times := tick_times p; crashed := crashed p |}.
Definition with_clock (x : Z) (p : Process) : Process :=
  {| devices := devices p; io := io p; routes := routes p; listening := listening p;
     started := started p; timers := timers p; clock := x;
     tick_times := tick_times p; crashed := crashed p |}.
Definition with_tick_times (x : list Z) (p : Process) : Process :=
  {| devices := devices p; io := io p; routes := routes p; listening := listening p;
     started := started p; timers := timers p; clock := clock p;
     tick_times := x; crashed := crashed p |}.
Definition with_crashed (x : option JsError) (p : Process) : Process :=
  {| devices := devices p; io := io p; routes := routes p; listening := listening p;
     started := started p; timers := timers p; clock := clock p;
     tick_times := tick_times p; crashed := x |}.

Definition lift_io {A : Type} (c : Eff IO A) : Eff Process A :=
  fun p => let '(r, io') := c (io p) in (r, with_io io' p).

Definition or_default (value : option string) (default : string) : string :=
  match value with
  | Some s => if String.eqb s "" then default else s
  | None => default
  end.

Definition TARGET_API_URL (h : Host) : string :=
  or_default (env h !! "TARGET_API_URL") default_TARGET_API_URL.

Definition PORT (h : Host) : string := or_default (env h !! "PORT") "4000".

(** [path.join(process.cwd(), 'devices.json')]: the working directory is an
    absolute path without a trailing separator, the root apart. *)
Definition configPath (h : Host) : string :=
  if String.eqb (cwd h) "/" then "/devices.json" else cwd h +:+ "/devices.json".

Definition readFileSync (h : Host) (path : string) : Eff Process string :=
  match files h !! path with
  | Some text => ret text
  | None => throw (ENOENT path)
  end.

Definition parse_registry (h : Host) (text : string) : Eff Process (list DeviceConfig) :=
  match JSON_parse h text with
  | Some configs => ret configs
  | None => throw (SyntaxError text)
  end.

(** *** The text of a Number

    A template literal prints a Number by [Number::toString] with radix 10.
    For an integer below [2 ^ 53] in magnitude that is its decimal numeral.
    From [2 ^ 53] on the Number is [m * 2 ^ e] with [2 ^ 52 <= m < 2 ^ 53]
    and [1 <= e], and the text has as few significant digits as tell it
    from its neighbours: 2 ^ 60 prints as 1152921504606847000.  From
    [10 ^ 21] on the text is in exponent form: 10 ^ 21 prints as 1e+21. *)

(** Does the integer [c] round to the Number [m * 2 ^ e]?  Halfway to a
    neighbour counts when [m] is even; the neighbour below a power of two is
    half as far as the one above. *)
Definition rounds_to (m e c : Z) : bool :=
  let x4 := 4 * (m * 2 ^ e) in
  let above := 2 * 2 ^ e in
  let below := if m =? 2 ^ 52 then 2 ^ e else 2 * 2 ^ e in
  if Z.even m
  then (x4 - below <=? 4 * c) && (4 * c <=? x4 + above)
  else (x4 - below <? 4 * c) && (4 * c <? x4 + above).

(** The multiple [c] of [10 ^ j] that rounds to [m * 2 ^ e], for the largest
    [j <= fuel] that has one, with that [j]; of two such multiples the one
    closer to the Number, and of two equally close the even one. *)
Fixpoint shortest (m e : Z) (fuel : nat) : Z * Z :=
  let x := m * 2 ^ e in
  match fuel with
  | O => (x, 0)
  | S fuel' =>
      let j := Z.of_nat fuel in
      let t := 10 ^ j in
      let lo := x / t * t in
      let hi := lo + t in
      let lo_ok := (0 <? lo) && rounds_to m e lo in
      let hi_ok := rounds_to m e hi in
      if lo_ok && hi_ok then
        if x - lo <? hi - x then (lo, j)
        else if hi - x <? x - lo then (hi, j)
        else if Z.even (lo / t) then (lo, j) else (hi, j)
      else if lo_ok then (lo, j)
      else if hi_ok then (hi, j)
      else shortest m e fuel'
  end.

(** The digits of [s], a point after the first when there are more, and the
    exponent of [s * 10 ^ j]. *)
Definition exponent_form (s j : Z) : string :=
  let digits := pretty s in
  let e := Z.of_nat (String.length digits) + j - 1 in
  match digits with
  | String d EmptyString => String d ("e+" +:+ pretty e)
  | String d rest => String d ("." +:+ rest +:+ "e+" +:+ pretty e)
  | EmptyString => EmptyString
  end.

(** The text of the Number that the integer [n] is; an integer that is not a
    binary64 value stands for the Number nearest to it, which is what
    [JSON.parse] makes of its numeral. *)
Definition Number_toString (n : Z) : string :=
  if Z.abs n <? 2 ^ 53 then pretty n
  else
    let sign := if n <? 0 then "-" else "" in
    match binary_normalize prec emax (Z.abs n) 0 false with
    | S754_finite _ m e =>
        let '(c, j) := shortest (Zpos m) e (Z.to_nat (Z.log2 (Z.abs n) / 3 + 2)) in
        if c <? 10 ^ 21 then sign +:+ pretty c
        else sign +:+ exponent_form (c / 10 ^ j) j
    | _ => sign +:+ "Infinity"
    end.

(** [`TOKEN_DEVICE_${config.deviceId}`], line 123. *)
Definition envTokenKey (config : DeviceConfig) : string :=
  "TOKEN_DEVICE_" +:+ Number_toString (deviceId config).

(** [process.env[envTokenKey]] when it passes [if (!token)]: a variable that
    is set, and not to the empty string. *)
Definition resolve_token (h : Host) (config : DeviceConfig) : option string :=
  match env h !! envTokenKey config with
  | Some token => if String.eqb token "" then None else Some token
  | None => None
  end.

(** The body of [deviceConfigs.forEach], lines 121-132.  The [n]-th device
    constructed takes the [n]-th value of [Math.random()]. *)
Definition instantiate (h : Host) (config : DeviceConfig) : Eff Process unit :=
  fun p =>
    match resolve_token h config with
    | None =>
        lift_io (console_write (WarnNoToken (deviceId config) (envTokenKey config))) p
    | Some token =>
        (Normal tt,
         with_devices
           (devices p ++
            [new_SimulatedDevice config token (Math_random h (length (devices p)))]) p)
    end.

Fixpoint forEach {S A : Type} (l : list A) (f : A -> Eff S unit) : Eff S unit :=
  match l with
  | [] => ret tt
  | a :: rest => (f a ;; forEach rest f)%eff
  end.

Definition app_get (path : string) : Eff Process unit :=
  fun p => (Normal tt, with_routes (routes p ++ [path]) p).

(** [app.listen(port, callback)] is recorded as called with [port].  It is
    the runtime that brings the server up, which is the event [Listening]
    below.  When the runtime refuses the port (a number outside 0..65535, or
    a port that is taken) the process ends and that event never comes: what
    is stated of a process whose server is up says nothing of such a run. *)
Definition app_listen (port : string) : Eff Process unit :=
  fun p => (Normal tt, with_listening (Some port) p).

(** The module body, lines 108-155, up to the call of [app.listen]. *)
Definition main (h : Host) : Eff Process unit :=
  (rawConfig <- readFileSync h (configPath h) ;;
   deviceConfigs <- parse_registry h rawConfig ;;
   lift_io (console_write (LogLoading (length deviceConfigs))) ;;
   forEach deviceConfigs (instantiate h) ;;
   (fun p => lift_io (console_write (LogInitialized (length (devices p)))) p) ;;
   app_get "/health" ;;
   app_listen (PORT h))%eff.

Definition initial : Process :=
  {| devices := []; io := {| console := []; posted := [] |}; routes := [];
     listening := None; started := false; timers := []; clock := 0;
     tick_times := []; crashed := None |}.

(** An exception that reaches the top level ends the process. *)
Definition top_level (c : Eff Process unit) (p : Process) : Process :=
  match c p with
  | (Normal _, p') => p'
  | (Throw error, p') => with_crashed (Some error) p'
  end.

Definition boot (h : Host) : Process := top_level (main h) initial.

(** One fleet tick, [devices.forEach(d => d.pushData())]. *)
Definition tick (h : Host) (inputs : nat -> Inputs) : Eff Process unit :=
  fun p =>
    let p' := with_tick_times (tick_times p ++ [clock p]) p in
    match forEach_pushData (TARGET_API_URL h) (devices p) 0 inputs (io p) with
    | (Normal devices', io') => (Normal tt, with_devices devices' (with_io io' p'))
    | (Throw error, io') => (Throw error, with_io io' p')
    end.

Definition setInterval (ms : Z) : Eff Process unit :=
  fun p => (Normal tt, with_timers (timers p ++ [{| delay := ms; due := clock p + ms |}]) p).

Definition startSimulation (h : Host) (inputs : nat -> Inputs) : Eff Process unit :=
  (tick h inputs ;; setInterval UPDATE_INTERVAL_MS)%eff.

(** The callback of [app.listen], lines 152-155. *)
Definition on_listening (h : Host) (inputs : nat -> Inputs) : Eff Process unit :=
  (lift_io (console_write (LogRunning (PORT h))) ;; startSimulation h inputs)%eff.

(** [GET /health]. *)
Record Health : Type := { health_status : string; activeDevices : nat }.

Definition health (p : Process) : Health :=
  {| health_status := "running"; activeDevices := length (devices p) |}.

(** ** The event loop *)

(** Node's runtime, as far as the process relies on it: the callback of
    [app.listen] runs once, after the module body, and an interval timer
    fires when its due time comes and every [delay] milliseconds after. *)

Definition at_time (t : Z) (p : Process) : Process := with_clock (Z.max (clock p) t) p.

Definition earlier (a b : Timer) : Timer := if due b <? due a then b else a.

Definition earliest (ts : list Timer) : option Timer :=
  match ts with
  | [] => None
  | t :: rest => Some (foldl earlier t rest)
  end.

(** An interval timer that has fired is due again [delay] later. *)
Fixpoint rearm (t : Timer) (ts : list Timer) : list Timer :=
  match ts with
  | [] => []
  | t' :: rest =>
      if (due t' =? due t) && (delay t' =? delay t)
      then {| delay := delay t; due := due t + delay t |} :: rest
      else t' :: rearm t rest
  end.

(** The timer [t] fires: time has come to [due t], and its callback, the
    fleet tick of line 143, runs. *)
Definition fire (h : Host) (inputs : nat -> Inputs) (t : Timer) : Eff Process unit :=
  fun p => tick h inputs (with_timers (rearm t (timers p)) (at_time (due t) p)).

Inductive Event : Type :=
| Listening (t : Z) (inputs : nat -> Inputs)     (* the server is up, at time t *)
| TimerDue (inputs : nat -> Inputs)              (* the earliest timer fires *)
| HealthRequest.                                 (* GET /health, a read *)

Definition handle (h : Host) (p : Process) (ev : Event) : Process :=
  match crashed p with
  | Some _ => p
  | None =>
      match ev with
      | Listening t inputs =>
          match listening p, started p with
          | Some _, false =>
              top_level (on_listening h inputs) (with_started true (at_time t p))
          | _, _ => p
          end
      | TimerDue inputs =>
          match earliest (timers p) with
          | Some t => top_level (fire h inputs t) p
          | None => p
          end
      | HealthRequest => p
      end
  end.

(** The process after start-up and a sequence of events. *)
Definition run (h : Host) (events : list Event) : Process :=
  foldl (handle h) (boot h) events.

(** The timers that are due by time [T] fire, earliest first; [inputs n] is
    what the [n]-th fleet tick of the process takes. *)
Fixpoint run_until (h : Host) (inputs : nat -> nat -> Inputs) (fuel : nat) (T : Z)
    (p : Process) : Process :=
  match fuel with
  | O => p
  | S fuel' =>
      match earliest (timers p) with
      | Some t =>
          if due t <=? T
          then run_until h inputs fuel' T
                 (handle h p (TimerDue (inputs (length (tick_times p)))))
          else at_time T p
      | None => at_time T p
      end
  end.

(** ** Auxiliary predicates for the rounding of binary64 operations *)

(** [rec] is [m] shifted right by [p] bits, with the round and sticky bits
    of what was shifted out. *)
Definition shr_inv (m p : Z) (rec : shr_record) : Prop :=
  0 <= shr_m rec /\
  exists rem, m = shr_m rec * 2 ^ p + rem /\ 0 <= rem < 2 ^ p /\
    shr_r rec = (2 ^ p <=? 2 * rem) /\
    shr_s rec = negb ((2 * rem) mod 2 ^ p =? 0).

(** What [binary_round_aux] returns for a mantissa [m2] at exponent [e1]. *)
Inductive round_result (s : bool) (m2 e1 : Z) : spec_float -> Prop :=
| rr_zero : m2 = 0 -> round_result s m2 e1 (S754_zero s)
| rr_finite (p : positive) (e2 : Z) :
    e1 <= e2 <= e1 + 1 -> Zpos p * 2 ^ (e2 - e1) = m2 -> e2 <= 971 ->
    round_result s m2 e1 (S754_finite s p e2)
| rr_overflow : 971 <= e1 -> 0 < m2 -> round_result s m2 e1 (S754_infinity s).

(** [r] is not NaN and carries the sign [s]. *)
Definition SFsigned (s : bool) (r : spec_float) : Prop :=
  match r with
  | S754_nan => False
  | S754_zero s' | S754_infinity s' | S754_finite s' _ _ => s' = s
  end.

(** Checks that are run over finite ranges of integers. *)
Definition check_Z2F (n : Z) : bool :=
  finiteF (Z2F n) && Qeq_bool (F2Q (Z2F n)) (inject_Z n).

Definition check_tenths (n : Z) : bool :=
  let t := parseFloat (Tenths false n) in
  finiteF t
  && Qle_bool (inject_Z n / 10 - (1 # 10000000000)) (F2Q t)
  && Qle_bool (F2Q t) (inject_Z n / 10 + (1 # 10000000000)).

Definition Zrange (lo : Z) (n : nat) : list Z :=
  map (fun k => lo + Z.of_nat k) (seq 0 n).

(** ** Predicates and examples used in the statements *)

(** The base values in the words of the specification, [20 + (N mod 10)] and
    [40 + (N mod 15)], [mod] being the residue, which is never negative. *)
Definition spec_baseTemperature (N : Z) : Z := 20 + N mod 10.
Definition spec_baseHumidity (N : Z) : Z := 40 + N mod 15.

(** A registry entry with a negative ID. *)
Definition config_minus3 : DeviceConfig :=
  {| deviceId := -3; serial := "S"; name := "N"; location := "L" |}.

(** Where the battery can be before a call, and where it is after one. *)
Definition battery_before (b : float) : Prop :=
  finiteF b = true /\ (0 <= F2Q b <= 100)%Q.

Definition battery_after (b : float) : Prop :=
  finiteF b = true /\ (0 < F2Q b <= 100)%Q.

Definition device7 : SimulatedDevice :=
  new_SimulatedDevice
    {| deviceId := 7; serial := "S7"; name := "Sensor7"; location := "Lab" |}
    "abc123" 0.

(** The reason [axios.post] rejects with, if it does. *)
Definition failure (o : Outcome) : option string :=
  match o with
  | Responded code =>
      if (200 <=? code) && (code <? 300) then None
      else Some ("Request failed with status code " +:+ pretty code)
  | NoResponse reason => Some reason
  end.

(** The registry entries whose token resolves. *)
Definition resolvable (h : Host) (config : DeviceConfig) : bool :=
  match resolve_token h config with
  | Some _ => true
  | None => false
  end.

(** A host with a registry of two devices and the token of the first. *)
Definition host7 : Host :=
  {| cwd := "/app";
     files := <["/app/devices.json" := "[...]"]> ∅;
     env := <["TOKEN_DEVICE_7" := "abc123"]> ∅;
     JSON_parse := fun _ =>
       Some [ {| deviceId := 7; serial := "S7"; name := "Sensor7"; location := "Lab" |};
              {| deviceId := 8; serial := "S8"; name := "Sensor8"; location := "Roof" |} ];
     Math_random := fun _ => 0.5%float |}.

(** A host without a registry file. *)
Definition host_bare : Host :=
  {| cwd := "/app"; files := ∅; env := ∅; JSON_parse := fun _ => None;
     Math_random := fun _ => 0.5%float |}.

Definition inputs_ok : Inputs :=
  {| random1 := 0.5; random2 := 0.25; now := "2026-01-01T00:00:00.000Z";
     outcome := Responded 200 |}.

Definition inputs_ok_all : nat -> Inputs := fun _ => inputs_ok.

(** ** Further predicates used in the statements *)

Definition check_tenths_range (n : Z) : bool :=
  let t := parseFloat (Tenths false n) in
  Qle_bool 0 (F2Q t) && Qle_bool (F2Q t) 100.

(** The drain of one call that does not reset, less the rounding of the
    subtraction: [0.35] as a binary64 number minus [2 ^ -47]. *)
Definition least_drain : Q :=
  ((6305039478318694 # 18014398509481984) - (1 # 140737488355328))%Q.

(** What one [pushData] call on [d] with the inputs [i] leaves behind: the
    device after it, the console line and the request. *)
Definition push_device (d : SimulatedDevice) (i : Inputs) : SimulatedDevice :=
  snd (generateTelemetry d (random1 i) (random2 i) (now i)).

Definition push_line (d : SimulatedDevice) (i : Inputs) : LogLine :=
  match failure (outcome i) with
  | Some reason => LogError (name (config d)) (deviceId (config d)) reason
  | None =>
      LogSent (name (config d)) (location (config d))
        (fst (generateTelemetry d (random1 i) (random2 i) (now i)))
  end.

Definition push_request (target : string) (d : SimulatedDevice) (i : Inputs) : Request :=
  {| url := target;
     body := fst (generateTelemetry d (random1 i) (random2 i) (now i));
     headers := [("Content-Type", "application/json"); ("x-device-token", token d)] |}.

(** The fleet that start-up builds from a registry, the first device taking
    the [n0]-th value of [Math.random()], and the warnings it writes. *)
Definition token_of (h : Host) (config : DeviceConfig) : string :=
  default "" (resolve_token h config).

Definition fleet_of (h : Host) (configs : list DeviceConfig) (n0 : nat)
    : list SimulatedDevice :=
  imap (fun j c => new_SimulatedDevice c (token_of h c) (Math_random h (n0 + j)))
       (List.filter (resolvable h) configs).

Definition warnings_of (h : Host) (configs : list DeviceConfig) : list LogLine :=
  map (fun c => WarnNoToken (deviceId c) (envTokenKey c))
      (List.filter (fun c => negb (resolvable h c)) configs).

(** What of a device no call changes. *)
Definition identity (d : SimulatedDevice) : DeviceConfig * string * Z * Z :=
  (config d, token d, baseTemp d, baseHum d).

(** A request as [pushData] makes them for a device of the fleet. *)
Definition request_ok (h : Host) (fleet : list SimulatedDevice) (r : Request) : Prop :=
  url r = TARGET_API_URL h /\
  payload (body r) = {| firmware := "1.0.4"; status := "ok" |} /\
  exists d, In d fleet /\
    headers r = [("Content-Type", "application/json"); ("x-device-token", token d)] /\
    tp_deviceId (body r) = deviceId (config d).

Definition is_Listening (ev : Event) : bool :=
  match ev with
  | Listening _ _ => true
  | _ => false
  end.

(** A host whose token for device 8 is set to the empty string. *)
Definition host_empty_token : Host :=
  {| cwd := "/app";
     files := <["/app/devices.json" := "[...]"]> ∅;
     env := <["TOKEN_DEVICE_8" := ""]> (<["TOKEN_DEVICE_7" := "abc123"]> ∅);
     JSON_parse := fun _ =>
       Some [ {| deviceId := 7; serial := "S7"; name := "Sensor7"; location := "Lab" |};
              {| deviceId := 8; serial := "S8"; name := "Sensor8"; location := "Roof" |} ];
     Math_random := fun _ => 0.5%float |}.

(** What holds of the process [p] at any time after a start-up that left it
    as [p0]. *)
Definition well_run (h : Host) (p0 p : Process) : Prop :=
  crashed p = None /\
  map identity (devices p) = map identity (devices p0) /\
  length (posted (io p)) = (length (tick_times p) * length (devices p0))%nat /\
  length (console (io p)) =
    (length (console (io p0)) + (if started p then 1 else 0)
     + length (tick_times p) * length (devices p0))%nat /\
  Forall (request_ok h (devices p0)) (posted (io p)) /\
  listening p = Some (PORT h) /\ routes p = ["/health"] /\
  (if started p
   then exists d, timers p = [{| delay := UPDATE_INTERVAL_MS; due := d |}]
   else timers p = [] /\ tick_times p = []).

(** The inputs of a call whose request finds nobody listening. *)
Definition inputs_refused : nat -> Inputs :=
  fun _ => {| random1 := 0.5; random2 := 0.25; now := "2026-01-01T00:00:02.000Z";
              outcome := NoResponse "connect ECONNREFUSED" |}.

(** The device of [host7] as start-up constructs it. *)
Definition device7_started : SimulatedDevice :=
  new_SimulatedDevice
    {| deviceId := 7; serial := "S7"; name := "Sensor7"; location := "Lab" |}
    "abc123" 0.5.

(** * Binary64 arithmetic: rounding and order *)

(** ** Digits and shifts *)

Lemma digits2_pos_size (m : positive) : digits2_pos m = Pos.size m.
Proof. induction m as [m IH|m IH|]; simpl; now rewrite ?IH. Qed.

Lemma digits2_pos_bounds (m : positive) :
  2 ^ (Zpos (digits2_pos m) - 1) <= Zpos m < 2 ^ Zpos (digits2_pos m).
Proof.
  rewrite digits2_pos_size.
  pose proof (Pos.size_gt m) as Hgt.
  pose proof (Pos.size_le m) as Hle.
  apply Pos2Z.pos_lt_pos in Hgt. apply Pos2Z.pos_le_pos in Hle.
  rewrite Pos2Z.inj_pow in Hgt, Hle.
  replace (Zpos (Pos.size m)) with (Z.succ (Zpos (Pos.size m) - 1)) in Hle at 1 by lia.
  rewrite Z.pow_succ_r in Hle by lia.
  change (Zpos m~0) with (2 * Zpos m) in Hle. lia.
Qed.

Lemma Zdigits2_bounds (m : Z) :
  0 < m -> 2 ^ (Zdigits2 m - 1) <= m < 2 ^ Zdigits2 m.
Proof. destruct m as [|p|p]; try lia. intros _. apply digits2_pos_bounds. Qed.

Lemma Zdigits2_nonneg (m : Z) : 0 <= Zdigits2 m.
Proof. destruct m; simpl; lia. Qed.

Lemma Zdigits2_unique (m d : Z) :
  0 < m -> 2 ^ (d - 1) <= m < 2 ^ d -> Zdigits2 m = d.
Proof.
  intros Hm [Hlo Hhi].
  destruct (Zdigits2_bounds m Hm) as [Hlo' Hhi'].
  pose proof (Zdigits2_nonneg m) as Hd.
  assert (0 <= d).
  { destruct (Z_lt_le_dec d 0) as [Hn|]; [|lia]. rewrite Z.pow_neg_r in Hhi; lia. }
  assert (Zdigits2 m - 1 < d).
  { apply (Z.pow_lt_mono_r_iff 2); lia. }
  assert (d - 1 < Zdigits2 m).
  { apply (Z.pow_lt_mono_r_iff 2); lia. }
  lia.
Qed.

(** Right shifts with the round and sticky bits. *)
Lemma shr_inv_init (m : Z) : 0 <= m -> shr_inv m 0 (shr_record_of_loc m loc_Exact).
Proof.
  intros Hm. split; [exact Hm|]. exists 0. simpl. repeat split; lia.
Qed.

Lemma shr_1_inv (m p : Z) (rec : shr_record) :
  0 <= p -> shr_inv m p rec -> shr_inv m (p + 1) (shr_1 rec).
Proof.
  intros Hp (Hm & rem & Heq & Hrem & Hr & Hs).
  assert (Hpow : 2 ^ (p + 1) = 2 * 2 ^ p) by (rewrite Z.pow_add_r by lia; lia).
  assert (Hpp : 0 < 2 ^ p) by (apply Z.pow_pos_nonneg; lia).
  destruct rec as [m1 r s]. cbn [shr_m shr_r shr_s] in *.
  assert (Hsticky : (r || s) = negb (rem =? 0)).
  { rewrite Hr, Hs. destruct (Z.eq_dec rem 0) as [->|Hne].
    - rewrite Z.mul_0_r, Z.mod_0_l by lia. destruct (2 ^ p <=? 0) eqn:E; [lia|reflexivity].
    - replace (rem =? 0) with false by (symmetry; apply Z.eqb_neq; lia).
      destruct (2 ^ p <=? 2 * rem) eqn:E; [reflexivity|]. cbn [orb].
      apply Z.leb_gt in E. rewrite Z.mod_small by lia.
      replace (2 * rem =? 0) with false by (symmetry; apply Z.eqb_neq; lia). reflexivity. }
  assert (Hmod : forall b, (b = 0 \/ b = 1) ->
     negb ((2 * (b * 2 ^ p + rem)) mod 2 ^ (p + 1) =? 0) = negb (rem =? 0)).
  { intros b Hb. rewrite Hpow. rewrite Z.mul_mod_distr_l by lia.
    replace ((b * 2 ^ p + rem) mod 2 ^ p) with rem.
    - f_equal. destruct (Z.eq_dec rem 0) as [->|Hne]; [reflexivity|].
      transitivity false; [apply Z.eqb_neq; lia|symmetry; apply Z.eqb_neq; lia].
    - rewrite Z.add_comm, Z.mod_add by lia. rewrite Z.mod_small; lia. }
  destruct m1 as [|[q|q|]|q]; try lia; unfold shr_inv; cbn [shr_1 shr_m shr_r shr_s]; (split; [lia|]).
  all: [> exists (0 * 2 ^ p + rem) | exists (1 * 2 ^ p + rem)
          | exists (0 * 2 ^ p + rem) | exists (1 * 2 ^ p + rem) ].
  all: rewrite Hsticky, Hmod by lia.
  all: split; [rewrite Hpow; lia|]; split; [lia|]; split; [|reflexivity].
  all: symmetry; first [apply Z.leb_gt; lia | apply Z.leb_le; lia].
Qed.

Lemma iter_shr_1_inv (n : positive) :
  forall (m p : Z) (rec : shr_record),
  0 <= p -> shr_inv m p rec -> shr_inv m (p + Zpos n) (iter_pos shr_1 n rec).
Proof.
  induction n as [n IH|n IH|]; intros m p rec Hp Hinv; simpl.
  - replace (p + Zpos n~1) with (p + 1 + Zpos n + Zpos n) by lia.
    apply IH; [lia|]. apply IH; [lia|]. now apply shr_1_inv.
  - replace (p + Zpos n~0) with (p + Zpos n + Zpos n) by lia.
    apply IH; [lia|]. now apply IH.
  - now apply shr_1_inv.
Qed.

Lemma fexp_eq (x : Z) : fexp x = Z.max (x - 53) (-1074).
Proof. reflexivity. Qed.

Lemma shr_fexp_spec (m e : Z) :
  0 <= m ->
  exists rec,
    shr_fexp prec emax m e loc_Exact = (rec, e + Z.max 0 (fexp (Zdigits2 m + e) - e)) /\
    shr_inv m (Z.max 0 (fexp (Zdigits2 m + e) - e)) rec.
Proof.
  intros Hm. unfold shr_fexp, shr.
  destruct (fexp (Zdigits2 m + e) - e) as [|n|n] eqn:Hn.
  - exists (shr_record_of_loc m loc_Exact). rewrite Z.add_0_r. split; [reflexivity|].
    now apply shr_inv_init.
  - exists (iter_pos shr_1 n (shr_record_of_loc m loc_Exact)).
    replace (Z.max 0 (Zpos n)) with (Zpos n) by lia. split; [reflexivity|].
    apply (iter_shr_1_inv n m 0); [lia|]. now apply shr_inv_init.
  - exists (shr_record_of_loc m loc_Exact).
    replace (Z.max 0 (Zneg n)) with 0 by lia. rewrite Z.add_0_r. split; [reflexivity|].
    now apply shr_inv_init.
Qed.

Lemma round_nearest_even_inv (m p : Z) (rec : shr_record) :
  0 <= p -> shr_inv m p rec ->
  let m2 := round_nearest_even (shr_m rec) (loc_of_shr_record rec) in
  shr_m rec <= m2 <= shr_m rec + 1 /\
  - 2 ^ p <= 2 * (m2 * 2 ^ p - m) <= 2 ^ p /\
  (p = 0 -> m2 = m).
Proof.
  intros Hp (Hm & rem & Heq & Hrem & Hr & Hs).
  assert (Hpp : 0 < 2 ^ p) by (apply Z.pow_pos_nonneg; lia).
  destruct rec as [m1 r s]. cbn [shr_m shr_r shr_s] in *.
  assert (Hp0 : p = 0 -> rem = 0).
  { intros ->. change (2 ^ 0) with 1 in Hrem. lia. }
  destruct r, s; cbn [loc_of_shr_record round_nearest_even].
  - (* beyond the midpoint *)
    symmetry in Hr. apply Z.leb_le in Hr.
    destruct (Z.eq_dec p 0) as [Hz|Hz]; [subst p; specialize (Hp0 eq_refl); change (2 ^ 0) with 1 in *; lia|].
    repeat split; try lia.
  - (* the midpoint *)
    symmetry in Hr. apply Z.leb_le in Hr.
    destruct (Z.eq_dec p 0) as [Hz|Hz]; [subst p; specialize (Hp0 eq_refl); change (2 ^ 0) with 1 in *; lia|].
    assert (2 * rem = 2 ^ p).
    { symmetry in Hs. apply negb_false_iff, Z.eqb_eq in Hs.
      apply Z.mod_divide in Hs; [|lia]. destruct Hs as [k Hk].
      assert (k = 1); [|subst k; lia].
      destruct (Z_lt_le_dec k 1); [nia|]. destruct (Z_lt_le_dec k 2); [lia|nia]. }
    destruct (Z.even m1); repeat split; lia.
  - (* below the midpoint *)
    symmetry in Hr. apply Z.leb_gt in Hr.
    repeat split; try lia. intros Hz. specialize (Hp0 Hz). subst. change (2 ^ 0) with 1. lia.
  - (* exact *)
    symmetry in Hr. apply Z.leb_gt in Hr.
    symmetry in Hs. apply negb_false_iff, Z.eqb_eq in Hs.
    rewrite Z.mod_small in Hs by lia.
    repeat split; try lia. intros ->. change (2 ^ 0) with 1. lia.
Qed.

(** After rounding, the second normalisation loses nothing. *)
Lemma renormalise_exact (m e m1 m2 : Z) :
  0 < m ->
  let f := fexp (Zdigits2 m + e) in
  let n1 := Z.max 0 (f - e) in
  (m1 * 2 ^ n1 <= m < (m1 + 1) * 2 ^ n1) ->
  m1 <= m2 <= m1 + 1 -> (n1 = 0 -> m2 = m) ->
  let n2 := Z.max 0 (fexp (Zdigits2 m2 + (e + n1)) - (e + n1)) in
  0 <= n2 <= 1 /\ (m2 / 2 ^ n2) * 2 ^ n2 = m2.
Proof.
  intros Hm f n1 Hm1 Hm2 Hexact n2.
  pose proof (Zdigits2_bounds m Hm) as Hd.
  pose proof (Zdigits2_nonneg m) as Hd0.
  set (d := Zdigits2 m) in *.
  assert (Hf : f = Z.max (d + e - 53) (-1074)) by reflexivity.
  assert (Hn1 : 0 <= n1) by lia.
  assert (Hpn1 : 0 < 2 ^ n1) by (apply Z.pow_pos_nonneg; lia).
  assert (Hm1n : 0 <= m1) by nia.
  destruct (Z.eq_dec n1 0) as [Hz|Hz].
  - (* no shift: the mantissa is unchanged *)
    specialize (Hexact Hz). subst m2.
    assert (n2 = 0).
    { unfold n2. fold d. rewrite Hz, Z.add_0_r. fold f. lia. }
    split; [lia|]. rewrite H. change (2 ^ 0) with 1. rewrite Z.div_1_r. lia.
  - assert (He1 : e + n1 = f) by lia.
    unfold n2. rewrite He1. clear n2.
    destruct (Z.eq_dec m2 0) as [Hm20|Hm20].
    { subst m2. cbn [Zdigits2]. rewrite fexp_eq.
      replace (Z.max 0 (Z.max (0 + f - 53) (-1074) - f)) with 0 by lia.
      split; [lia|]. reflexivity. }
    assert (Hm2p : 0 < m2) by lia.
    pose proof (Zdigits2_bounds m2 Hm2p) as Hd2.
    pose proof (Zdigits2_nonneg m2) as Hd20.
    set (d2 := Zdigits2 m2) in *.
    rewrite fexp_eq.
    destruct (Z_le_gt_dec d n1) as [Hdn|Hdn].
    + (* everything was shifted out *)
      assert (m < 2 ^ n1).
      { apply Z.lt_le_trans with (2 ^ d); [lia|]. apply Z.pow_le_mono_r; lia. }
      assert (m1 = 0) by nia.
      assert (m2 = 1) by lia.
      assert (d2 = 1) by (unfold d2; subst m2; reflexivity).
      replace (Z.max 0 (Z.max (d2 + f - 53) (-1074) - f)) with 0 by lia.
      split; [lia|]. change (2 ^ 0) with 1. rewrite Z.div_1_r. lia.
    + assert (Hsplit : 2 ^ d = 2 ^ (d - n1) * 2 ^ n1).
      { rewrite <- Z.pow_add_r by lia. f_equal. lia. }
      assert (Hsplit' : 2 ^ (d - 1) = 2 ^ (d - n1 - 1) * 2 ^ n1).
      { rewrite <- Z.pow_add_r by lia. f_equal. lia. }
      assert (Hk : 0 < 2 ^ (d - n1 - 1)) by (apply Z.pow_pos_nonneg; lia).
      assert (Hk2 : 2 ^ (d - n1) = 2 * 2 ^ (d - n1 - 1)).
      { replace (d - n1) with (Z.succ (d - n1 - 1)) at 1 by lia.
        rewrite Z.pow_succ_r by lia. reflexivity. }
      assert (Hm1hi : m1 < 2 ^ (d - n1)) by nia.
      assert (Hm1lo : 2 ^ (d - n1 - 1) <= m1) by nia.
      assert (Hd2lo : d - n1 <= d2).
      { assert (d - n1 - 1 < d2); [|lia]. apply (Z.pow_lt_mono_r_iff 2); lia. }
      assert (Hd2hi : d2 <= d - n1 + 1).
      { assert (d2 - 1 < d - n1 + 1); [|lia]. apply (Z.pow_lt_mono_r_iff 2); try lia.
        replace (d - n1 + 1) with (Z.succ (d - n1)) by lia. rewrite Z.pow_succ_r by lia. lia. }
      destruct (Z.eq_dec d2 (d - n1)) as [Heq|Hne].
      * replace (Z.max 0 (Z.max (d2 + f - 53) (-1074) - f)) with 0 by lia.
        split; [lia|]. change (2 ^ 0) with 1. rewrite Z.div_1_r. lia.
      * assert (Hd2eq : d2 = d - n1 + 1) by lia.
        assert (Hm2eq : m2 = 2 ^ (d - n1)).
        { replace (d2 - 1) with (d - n1) in Hd2 by lia. lia. }
        split; [lia|].
        destruct (Z.eq_dec (Z.max 0 (Z.max (d2 + f - 53) (-1074) - f)) 0) as [->|Hnz].
        { change (2 ^ 0) with 1. rewrite Z.div_1_r. lia. }
        replace (Z.max 0 (Z.max (d2 + f - 53) (-1074) - f)) with 1 by lia.
        change (2 ^ 1) with 2. rewrite Hm2eq, Hk2.
        rewrite (Z.mul_comm 2), Z.div_mul by lia. reflexivity.
Qed.

Theorem binary_round_aux_spec (s : bool) (m : positive) (e : Z) :
  let e1 := Z.max e (fexp (Zpos (digits2_pos m) + e)) in
  exists m2 : Z,
    0 <= m2 /\
    - 2 ^ (e1 - e) <= 2 * (m2 * 2 ^ (e1 - e) - Zpos m) <= 2 ^ (e1 - e) /\
    (e1 = e -> m2 = Zpos m) /\
    round_result s m2 e1 (binary_round_aux prec emax s (Zpos m) e loc_Exact).
Proof.
  intros e1.
  set (f := fexp (Zpos (digits2_pos m) + e)) in *.
  set (n1 := Z.max 0 (f - e)).
  assert (He1 : e1 = e + n1) by (unfold e1, n1; lia).
  assert (Hn1 : e1 - e = n1) by lia.
  destruct (shr_fexp_spec (Zpos m) e) as (rec1 & Hshr1 & Hinv1); [lia|].
  cbn [Zdigits2] in Hshr1, Hinv1. fold f in Hshr1, Hinv1. fold n1 in Hshr1, Hinv1.
  assert (H0n1 : 0 <= n1) by (unfold n1; lia).
  destruct (round_nearest_even_inv _ _ _ H0n1 Hinv1) as (Hm2 & Herr & Hex).
  set (m2 := round_nearest_even (shr_m rec1) (loc_of_shr_record rec1)) in *.
  destruct Hinv1 as (Hm1 & rem1 & Heq1 & Hrem1 & _).
  assert (H0m2 : 0 <= m2) by lia.
  destruct (shr_fexp_spec m2 (e + n1) H0m2) as (rec2 & Hshr2 & Hinv2).
  set (n2 := Z.max 0 (fexp (Zdigits2 m2 + (e + n1)) - (e + n1))) in *.
  assert (Hren : 0 <= n2 <= 1 /\ m2 / 2 ^ n2 * 2 ^ n2 = m2).
  { apply (renormalise_exact (Zpos m) e (shr_m rec1) m2); try lia.
    - change (shr_m rec1 * 2 ^ n1 <= Zpos m < (shr_m rec1 + 1) * 2 ^ n1). lia.
    - intros Hz. apply Hex. exact Hz. }
  destruct Hren as (Hn2 & Hexact2).
  destruct Hinv2 as (Hm3 & rem2 & Heq2 & Hrem2 & _).
  assert (Hpn2 : 0 < 2 ^ n2) by (apply Z.pow_pos_nonneg; lia).
  assert (Hm3eq : shr_m rec2 = m2 / 2 ^ n2).
  { apply (Z.div_unique_pos _ _ _ rem2); lia. }
  exists m2. rewrite Hn1. split; [exact H0m2|]. split; [exact Herr|].
  split; [intros Heq; apply Hex; lia|].
  unfold binary_round_aux. rewrite Hshr1. cbv beta iota. fold m2.
  rewrite Hshr2. cbv beta iota.
  destruct (shr_m rec2) as [|p|p] eqn:Hp; try lia.
  - apply rr_zero. rewrite <- Hm3eq in Hexact2. lia.
  - change (Z.sub emax prec) with 971.
    destruct (Z.leb (e + n1 + n2) 971) eqn:Hle.
    + apply Z.leb_le in Hle. apply rr_finite; try lia.
      replace (e + n1 + n2 - e1) with n2 by lia. rewrite <- Hm3eq in Hexact2. exact Hexact2.
    + apply Z.leb_gt in Hle. rewrite <- Hm3eq in Hexact2. apply rr_overflow; nia.
Qed.

(** ** Exact values *)

Section Values.
Local Open Scope Q_scope.

Lemma bpow_pos (e : Z) : 0 < bpow e.
Proof. apply Qpower_0_lt. reflexivity. Qed.

Lemma bpow_add (a b : Z) : bpow (a + b) == bpow a * bpow b.
Proof. apply Qpower_plus. discriminate. Qed.

Lemma bpow_Z (n : Z) : (0 <= n)%Z -> inject_Z (2 ^ n) == bpow n.
Proof. intros Hn. unfold bpow. now rewrite Zpower_Qpower. Qed.

Lemma bpow_le (a b : Z) : (a <= b)%Z -> bpow a <= bpow b.
Proof. intros Hab. apply Qpower_le_compat_l; [exact Hab|]. discriminate. Qed.

Lemma bpow_half (e : Z) : 2 * bpow (e - 1) == bpow e.
Proof.
  replace e with ((e - 1) + 1)%Z at 2 by lia. rewrite bpow_add.
  change (bpow 1) with 2. ring.
Qed.

Lemma bpow_shift (e n : Z) : (0 <= n)%Z -> bpow (e + n) == bpow e * inject_Z (2 ^ n).
Proof. intros Hn. rewrite bpow_add, bpow_Z by exact Hn. reflexivity. Qed.

Lemma inject_cond_Zopp (s : bool) (z : Z) :
  inject_Z (cond_Zopp s z) == (if s then - inject_Z z else inject_Z z).
Proof. destruct s; cbn [cond_Zopp]; [rewrite inject_Z_opp|]; reflexivity. Qed.

Lemma inject_Z_sub (x y : Z) : inject_Z (x - y) = inject_Z x - inject_Z y.
Proof. unfold Z.sub, Qminus. now rewrite inject_Z_plus, inject_Z_opp. Qed.

Ltac push_inject H :=
  repeat first [ rewrite inject_Z_opp in H | rewrite inject_Z_mult in H
               | rewrite inject_Z_plus in H | rewrite inject_Z_sub in H ].

Lemma half_ulp_bounds (M2 M A C B : Q) :
  - A <= 2 * (M2 * A - M * C) -> 2 * (M2 * A - M * C) <= A -> 2 * B == A ->
  (M * C - B <= M2 * A <= M * C + B) /\
  (- M * C - B <= - M2 * A <= - M * C + B).
Proof.
  intros Hlo Hhi Hh.
  setoid_replace (- M * C) with (- (M * C)) using relation Qeq by ring.
  setoid_replace (- M2 * A) with (- (M2 * A)) using relation Qeq by ring.
  set (X := M2 * A) in *. set (Y := M * C) in *. clearbody X Y.
  repeat split; lra.
Qed.

Lemma binary_round_aux_Q (s : bool) (m : positive) (e : Z) :
  let x := inject_Z (cond_Zopp s (Zpos m)) * bpow e in
  let e1 := Z.max e (fexp (Zpos (digits2_pos m) + e)) in
  let r := binary_round_aux prec emax s (Zpos m) e loc_Exact in
  (e1 < 971)%Z ->
  SFfinite r = true /\
  x - bpow (e1 - 1) <= SF2Q r <= x + bpow (e1 - 1) /\
  (e1 = e -> SF2Q r == x).
Proof.
  intros x e1 r He1.
  destruct (binary_round_aux_spec s m e) as (m2 & Hm2 & Herr & Hex & Hres).
  fold e1 in Herr, Hex, Hres. fold r in Hres.
  assert (Hn : (0 <= e1 - e)%Z) by (unfold e1; lia).
  assert (Hval : SF2Q r == inject_Z (cond_Zopp s m2) * bpow e1 /\ SFfinite r = true).
  { destruct Hres as [Hz|p e2 He2 Hp Hle|Hov Hpos]; [| |lia].
    - subst m2. split; [|reflexivity].
      replace (cond_Zopp s 0) with 0%Z by (destruct s; reflexivity).
      cbn [SF2Q]. change (inject_Z 0) with 0. ring.
    - split; [|reflexivity]. cbn [SF2Q]. subst m2.
      replace e2 with (e1 + (e2 - e1))%Z at 1 by lia.
      rewrite bpow_shift by lia.
      rewrite !inject_cond_Zopp, inject_Z_mult. destruct s; ring. }
  destruct Hval as [Hval Hfin]. split; [exact Hfin|].
  assert (Hb : bpow e1 == bpow e * inject_Z (2 ^ (e1 - e))).
  { rewrite <- bpow_shift by lia. replace (e + (e1 - e))%Z with e1 by lia. reflexivity. }
  pose proof (bpow_half e1) as Hh. pose proof (bpow_pos e) as Hpe.
  destruct Herr as [Hlo Hhi].
  rewrite Zle_Qle in Hlo, Hhi.
  push_inject Hlo. push_inject Hhi.
  set (P := inject_Z (2 ^ (e1 - e))) in *.
  set (M2 := inject_Z m2) in *. set (M := inject_Z (Zpos m)) in *.
  split.
  - rewrite Hval. unfold x. rewrite !inject_cond_Zopp. fold M2 M.
    change (inject_Z 2) with 2 in Hlo, Hhi.
    assert (Hlo' : - (bpow e * P) <= 2 * (M2 * (bpow e * P) - M * bpow e)).
    { setoid_replace (2 * (M2 * (bpow e * P) - M * bpow e))
        with (bpow e * (2 * (M2 * P - M))) using relation Qeq by ring.
      setoid_replace (- (bpow e * P)) with (bpow e * - P) using relation Qeq by ring.
      apply Qmult_le_l; assumption. }
    assert (Hhi' : 2 * (M2 * (bpow e * P) - M * bpow e) <= bpow e * P).
    { setoid_replace (2 * (M2 * (bpow e * P) - M * bpow e))
        with (bpow e * (2 * (M2 * P - M))) using relation Qeq by ring.
      apply Qmult_le_l; assumption. }
    rewrite <- Hb in Hlo', Hhi'.
    destruct (half_ulp_bounds M2 M (bpow e1) (bpow e) (bpow (e1 - 1)) Hlo' Hhi' Hh)
      as [Hpos Hneg].
    destruct s; [exact Hneg|exact Hpos].
  - intros Heq. rewrite Hval. unfold x. rewrite (Hex Heq), Heq. reflexivity.
Qed.

Lemma shl_align_spec (mx : positive) (ex ex' : Z) :
  snd (shl_align mx ex ex') = Z.min ex ex' /\
  Zpos (fst (shl_align mx ex ex')) = (Zpos mx * 2 ^ (ex - Z.min ex ex'))%Z.
Proof.
  unfold shl_align. destruct (ex' - ex)%Z as [|d|d] eqn:Hd; cbn [fst snd].
  - replace (Z.min ex ex') with ex by lia. rewrite Z.sub_diag. split; lia.
  - replace (Z.min ex ex') with ex by lia. rewrite Z.sub_diag. split; lia.
  - replace (Z.min ex ex') with ex' by lia. split; [reflexivity|].
    replace (ex - ex')%Z with (Zpos d) by lia.
    change (Pos.iter xO mx d) with (Zpower.shift_pos d mx).
    rewrite Zpower.shift_pos_correct. change (Zpower_pos 2 d) with (2 ^ Zpos d)%Z. lia.
Qed.

Lemma digits2_pos_shift (m mz : positive) (n : Z) :
  (0 <= n)%Z -> Zpos mz = (Zpos m * 2 ^ n)%Z ->
  Zpos (digits2_pos mz) = (Zpos (digits2_pos m) + n)%Z.
Proof.
  intros Hn Hmz. pose proof (digits2_pos_bounds m) as [Hlo Hhi].
  change (Zpos (digits2_pos mz)) with (Zdigits2 (Zpos mz)).
  assert (Hp : (0 < 2 ^ n)%Z) by (apply Z.pow_pos_nonneg; lia).
  apply Zdigits2_unique; [lia|]. rewrite Hmz.
  replace (Zpos (digits2_pos m) + n - 1)%Z with ((Zpos (digits2_pos m) - 1) + n)%Z by lia.
  rewrite !Z.pow_add_r by lia. split; nia.
Qed.

Lemma binary_round_Q (s : bool) (m : positive) (e : Z) :
  let x := inject_Z (cond_Zopp s (Zpos m)) * bpow e in
  let f := fexp (Zpos (digits2_pos m) + e) in
  let r := binary_round prec emax s m e in
  (Z.max e f < 971)%Z ->
  SFfinite r = true /\
  x - bpow (Z.max e f - 1) <= SF2Q r <= x + bpow (Z.max e f - 1) /\
  ((f <= e)%Z -> SF2Q r == x).
Proof.
  intros x f r Hmax. unfold r, binary_round. fold f.
  destruct (shl_align_spec m e f) as [Hez Hmz].
  destruct (shl_align m e f) as [mz ez]. cbn [fst snd] in Hez, Hmz.
  assert (Hn : (0 <= e - ez)%Z) by lia. rewrite <- Hez in Hmz.
  pose proof (digits2_pos_shift m mz (e - ez) Hn Hmz) as Hdig.
  destruct (binary_round_aux_Q s mz ez) as (Hfin & Hbnd & Hex).
  { rewrite Hdig. replace (Zpos (digits2_pos m) + (e - ez) + ez)%Z
      with (Zpos (digits2_pos m) + e)%Z by lia. fold f. lia. }
  rewrite Hdig in Hbnd, Hex.
  replace (Zpos (digits2_pos m) + (e - ez) + ez)%Z
      with (Zpos (digits2_pos m) + e)%Z in Hbnd, Hex by lia.
  fold f in Hbnd, Hex.
  assert (Hx : inject_Z (cond_Zopp s (Zpos mz)) * bpow ez == x).
  { assert (Hbe : bpow e == bpow ez * inject_Z (2 ^ (e - ez))).
    { rewrite <- bpow_shift by lia. replace (ez + (e - ez))%Z with e by lia. reflexivity. }
    unfold x. rewrite !inject_cond_Zopp, Hmz, inject_Z_mult, Hbe.
    destruct s; ring. }
  rewrite Hx in Hbnd, Hex.
  split; [exact Hfin|].
  destruct (Z_le_gt_dec f e) as [Hfe|Hfe].
  - assert (Heq : SF2Q (binary_round_aux prec emax s (Zpos mz) ez loc_Exact) == x).
    { apply Hex. lia. }
    split; [|intros _; exact Heq].
    rewrite Heq. pose proof (bpow_pos (Z.max e f - 1)). split; lra.
  - replace (Z.max ez f) with (Z.max e f) in Hbnd by lia.
    split; [exact Hbnd|]. intros Hc. lia.
Qed.

Lemma binary_normalize_Q (z e : Z) (szero : bool) :
  let x := inject_Z z * bpow e in
  let f := fexp (Zdigits2 z + e) in
  let r := binary_normalize prec emax z e szero in
  (Z.max e f < 971)%Z ->
  SFfinite r = true /\
  x - bpow (Z.max e f - 1) <= SF2Q r <= x + bpow (Z.max e f - 1) /\
  ((f <= e)%Z -> SF2Q r == x).
Proof.
  intros x f r Hmax. unfold r, binary_normalize. destruct z as [|m|m].
  - split; [reflexivity|]. unfold x. cbn [SF2Q].
    pose proof (bpow_pos (Z.max e f - 1)).
    setoid_replace (inject_Z 0 * bpow e) with 0 using relation Qeq by ring.
    split; [split; lra|]. intros _. reflexivity.
  - exact (binary_round_Q false m e Hmax).
  - exact (binary_round_Q true m e Hmax).
Qed.

(** ** Order of valid binary64 numbers *)

Lemma bounded_inv (m : positive) (e : Z) :
  bounded prec emax m e = true ->
  (Zpos m < 2 ^ 53)%Z /\ (-1074 <= e <= 971)%Z /\ (-1074 < e -> 2 ^ 52 <= Zpos m)%Z.
Proof.
  unfold bounded, canonical_mantissa. rewrite andb_true_iff, Z.eqb_eq, Z.leb_le.
  rewrite fexp_eq. change (emax - prec)%Z with 971%Z. intros [Hc He].
  pose proof (digits2_pos_bounds m) as [Hlo Hhi].
  set (d := Zpos (digits2_pos m)) in *.
  split; [|split; [lia|]].
  - apply Z.lt_le_trans with (2 ^ d)%Z; [exact Hhi|]. apply Z.pow_le_mono_r; lia.
  - intros Hne. replace d with 53%Z in Hlo by lia. exact Hlo.
Qed.

Lemma bounded_lt_exp (m1 m2 : positive) (e1 e2 : Z) :
  bounded prec emax m1 e1 = true -> bounded prec emax m2 e2 = true ->
  (e1 < e2)%Z ->
  inject_Z (Zpos m1) * bpow e1 < inject_Z (Zpos m2) * bpow e2.
Proof.
  intros H1 H2 Hlt.
  destruct (bounded_inv _ _ H1) as (Hm1 & He1 & _).
  destruct (bounded_inv _ _ H2) as (_ & He2 & Hm2). specialize (Hm2 ltac:(lia)).
  rewrite Zlt_Qlt in Hm1. rewrite Zle_Qle in Hm2.
  pose proof (bpow_le (e1 + 1) e2 ltac:(lia)) as Hb.
  rewrite bpow_add in Hb. change (bpow 1) with 2 in Hb.
  pose proof (bpow_pos e1) as Hp1.
  change (inject_Z (2 ^ 53)) with (2 * inject_Z (2 ^ 52)) in Hm1.
  assert (H52 : 0 < inject_Z (2 ^ 52)) by reflexivity.
  set (A := inject_Z (Zpos m1)) in *. set (B := inject_Z (Zpos m2)) in *.
  set (C := inject_Z (2 ^ 52)) in *. clearbody A B C.
  apply Qlt_le_trans with (2 * C * bpow e1).
  - apply Qmult_lt_compat_r; assumption.
  - apply Qle_trans with (C * bpow e2).
    + setoid_replace (2 * C * bpow e1) with (C * (bpow e1 * 2)) using relation Qeq by ring.
      apply Qmult_le_l; assumption.
    + apply Qmult_le_compat_r; [assumption|]. pose proof (bpow_pos e2). lra.
Qed.

Lemma Qcompare_Lt (a b : Q) : a < b -> (a ?= b) = Lt.
Proof. apply Qlt_alt. Qed.

Lemma Qcompare_Gt (a b : Q) : b < a -> (a ?= b) = Gt.
Proof. apply Qgt_alt. Qed.

Lemma Qcompare_Eq (a b : Q) : a == b -> (a ?= b) = Eq.
Proof. apply Qeq_alt. Qed.

Lemma Qcompare_mult_pos_r (a b c : Q) : 0 < c -> (a * c ?= b * c) = (a ?= b).
Proof.
  intros Hc. destruct (Qcompare_spec a b) as [Heq|Hlt|Hgt].
  - apply Qcompare_Eq. rewrite Heq. reflexivity.
  - apply Qcompare_Lt. apply Qmult_lt_compat_r; assumption.
  - apply Qcompare_Gt. apply Qmult_lt_compat_r; assumption.
Qed.

Lemma Qcompare_inject_pos (m1 m2 : positive) :
  (inject_Z (Zpos m1) ?= inject_Z (Zpos m2)) = Pos.compare m1 m2.
Proof.
  unfold Qcompare. cbn [inject_Z Qnum Qden]. rewrite !Z.mul_1_r. reflexivity.
Qed.

Lemma Qcompare_opp (a b : Q) : (- a ?= - b) = CompOpp (a ?= b).
Proof.
  destruct (Qcompare_spec a b) as [Heq|Hlt|Hgt]; cbn [CompOpp].
  - apply Qcompare_Eq. rewrite Heq. reflexivity.
  - apply Qcompare_Gt. lra.
  - apply Qcompare_Lt. lra.
Qed.

Lemma SFcompare_pos (m1 m2 : positive) (e1 e2 : Z) :
  bounded prec emax m1 e1 = true -> bounded prec emax m2 e2 = true ->
  match Z.compare e1 e2 with
  | Lt => Lt
  | Gt => Gt
  | Eq => Pos.compare_cont Eq m1 m2
  end = (inject_Z (Zpos m1) * bpow e1 ?= inject_Z (Zpos m2) * bpow e2).
Proof.
  intros H1 H2. destruct (Z.compare_spec e1 e2) as [Heq|Hlt|Hgt].
  - subst e2. rewrite Qcompare_mult_pos_r by apply bpow_pos.
    rewrite Qcompare_inject_pos. reflexivity.
  - symmetry. apply Qcompare_Lt. now apply bounded_lt_exp.
  - symmetry. apply Qcompare_Gt. now apply bounded_lt_exp.
Qed.

Theorem SFcompare_Q (x y : spec_float) :
  valid_binary x = true -> valid_binary y = true ->
  SFfinite x = true -> SFfinite y = true ->
  SFcompare x y = Some (SF2Q x ?= SF2Q y).
Proof.
  intros Vx Vy Fx Fy.
  destruct x as [sx| |  |sx mx ex]; try discriminate Fx;
  destruct y as [sy| |  |sy my ey]; try discriminate Fy; cbn [SFcompare SF2Q valid_binary] in *.
  - reflexivity.
  - f_equal. symmetry. pose proof (bpow_pos ey) as Hp.
    assert (0 < inject_Z (Zpos my)) by reflexivity.
    destruct sy; cbn [cond_Zopp]; [apply Qcompare_Gt|apply Qcompare_Lt].
    + rewrite inject_Z_opp. setoid_replace (- inject_Z (Zpos my) * bpow ey)
        with (- (inject_Z (Zpos my) * bpow ey)) using relation Qeq by ring.
      assert (0 < inject_Z (Zpos my) * bpow ey) by (apply Qmult_lt_0_compat; assumption). lra.
    + apply Qmult_lt_0_compat; assumption.
  - f_equal. symmetry. pose proof (bpow_pos ex) as Hp.
    assert (0 < inject_Z (Zpos mx)) by reflexivity.
    destruct sx; cbn [cond_Zopp]; [apply Qcompare_Lt|apply Qcompare_Gt].
    + rewrite inject_Z_opp. setoid_replace (- inject_Z (Zpos mx) * bpow ex)
        with (- (inject_Z (Zpos mx) * bpow ex)) using relation Qeq by ring.
      assert (0 < inject_Z (Zpos mx) * bpow ex) by (apply Qmult_lt_0_compat; assumption). lra.
    + apply Qmult_lt_0_compat; assumption.
  - f_equal.
    assert (Hx : 0 < inject_Z (Zpos mx) * bpow ex).
    { apply Qmult_lt_0_compat; [reflexivity|apply bpow_pos]. }
    assert (Hy : 0 < inject_Z (Zpos my) * bpow ey).
    { apply Qmult_lt_0_compat; [reflexivity|apply bpow_pos]. }
    destruct sx, sy; cbn [cond_Zopp]; rewrite ?inject_Z_opp.
    + setoid_replace (- inject_Z (Zpos mx) * bpow ex)
        with (- (inject_Z (Zpos mx) * bpow ex)) using relation Qeq by ring.
      setoid_replace (- inject_Z (Zpos my) * bpow ey)
        with (- (inject_Z (Zpos my) * bpow ey)) using relation Qeq by ring.
      rewrite Qcompare_opp, <- (SFcompare_pos mx my ex ey Vx Vy).
      destruct (Z.compare ex ey); reflexivity.
    + symmetry. apply Qcompare_Lt.
      setoid_replace (- inject_Z (Zpos mx) * bpow ex)
        with (- (inject_Z (Zpos mx) * bpow ex)) using relation Qeq by ring. lra.
    + symmetry. apply Qcompare_Gt.
      setoid_replace (- inject_Z (Zpos my) * bpow ey)
        with (- (inject_Z (Zpos my) * bpow ey)) using relation Qeq by ring. lra.
    + apply SFcompare_pos; assumption.
Qed.

(** ** Error of one rounding, from the magnitude of the exact result *)

Lemma bpow_lt_inv (a b : Z) : bpow a < bpow b -> (a < b)%Z.
Proof.
  intros Hlt. destruct (Z_lt_le_dec a b) as [H|H]; [exact H|].
  apply bpow_le in H. lra.
Qed.

Lemma ulp_exp_bound (m : positive) (e k : Z) :
  inject_Z (Zpos m) * bpow e < bpow k -> (-1021 <= k <= 971)%Z ->
  let e1 := Z.max e (fexp (Zpos (digits2_pos m) + e)) in
  (e1 < 971)%Z /\ (e1 = e \/ e1 <= k - 53)%Z.
Proof.
  intros Hx Hk e1.
  pose proof (digits2_pos_bounds m) as [Hlo _].
  set (d := Zpos (digits2_pos m)) in *.
  assert (Hd : (1 <= d)%Z) by (unfold d; lia).
  rewrite Zle_Qle, bpow_Z in Hlo by lia.
  assert (Hde : (d - 1 + e < k)%Z).
  { apply bpow_lt_inv. rewrite bpow_add.
    apply Qle_lt_trans with (inject_Z (Zpos m) * bpow e); [|exact Hx].
    apply Qmult_le_compat_r; [exact Hlo|]. pose proof (bpow_pos e). lra. }
  unfold e1. rewrite fexp_eq. fold d. lia.
Qed.

Lemma binary_round_aux_bound (s : bool) (m : positive) (e k : Z) :
  let x := inject_Z (cond_Zopp s (Zpos m)) * bpow e in
  let r := binary_round_aux prec emax s (Zpos m) e loc_Exact in
  inject_Z (Zpos m) * bpow e < bpow k -> (-1021 <= k <= 971)%Z ->
  SFfinite r = true /\ x - bpow (k - 54) <= SF2Q r <= x + bpow (k - 54).
Proof.
  intros x r Hx Hk.
  destruct (ulp_exp_bound m e k Hx Hk) as [He1 Hcase].
  destruct (binary_round_aux_Q s m e He1) as (Hfin & Hbnd & Hex).
  fold x r in Hbnd, Hex |- *. split; [exact Hfin|].
  pose proof (bpow_pos (k - 54)) as Hp.
  destruct Hcase as [Heq|Hle].
  - rewrite (Hex Heq). split; lra.
  - pose proof (bpow_le (Z.max e (fexp (Zpos (digits2_pos m) + e)) - 1) (k - 54) ltac:(lia)).
    split; lra.
Qed.

Lemma binary_normalize_bound (z e k : Z) (szero : bool) :
  let x := inject_Z z * bpow e in
  let r := binary_normalize prec emax z e szero in
  - bpow k < x < bpow k -> (-1021 <= k <= 971)%Z ->
  SFfinite r = true /\ x - bpow (k - 54) <= SF2Q r <= x + bpow (k - 54).
Proof.
  intros x r Hx Hk. pose proof (bpow_pos (k - 54)) as Hp.
  assert (Hgen : forall (s : bool) (m : positive),
    inject_Z (Zpos m) * bpow e < bpow k ->
    let y := inject_Z (cond_Zopp s (Zpos m)) * bpow e in
    SFfinite (binary_round prec emax s m e) = true /\
    y - bpow (k - 54) <= SF2Q (binary_round prec emax s m e) <= y + bpow (k - 54)).
  { intros s m Hm y. destruct (ulp_exp_bound m e k Hm Hk) as [He1 Hcase].
    destruct (binary_round_Q s m e He1) as (Hfin & Hbnd & Hex).
    fold y in Hbnd, Hex. split; [exact Hfin|].
    destruct Hcase as [Heq|Hle].
    - rewrite Hex by lia. split; lra.
    - pose proof (bpow_le (Z.max e (fexp (Zpos (digits2_pos m) + e)) - 1) (k - 54) ltac:(lia)).
      split; lra. }
  unfold r, x in *. destruct z as [|m|m]; cbn [binary_normalize].
  - split; [reflexivity|]. cbn [SF2Q].
    setoid_replace (inject_Z 0 * bpow e) with 0 using relation Qeq by ring. split; lra.
  - apply (Hgen false m). lra.
  - apply (Hgen true m). change (Zneg m) with (- Zpos m)%Z in Hx.
    rewrite inject_Z_opp in Hx. lra.
Qed.

(** ** Subtraction and multiplication of finite numbers *)

Lemma SF2Q_opp_sign (s : bool) (m : positive) (e : Z) :
  SF2Q (S754_finite (negb s) m e) == - SF2Q (S754_finite s m e).
Proof. cbn [SF2Q]. rewrite !inject_cond_Zopp. destruct s; cbn [negb]; ring. Qed.

Lemma aligned_value (s : bool) (m : positive) (e ez : Z) :
  (ez <= e)%Z ->
  inject_Z (cond_Zopp s (Zpos (fst (shl_align m e ez)))) * bpow ez
  == SF2Q (S754_finite s m e).
Proof.
  intros Hle. destruct (shl_align_spec m e ez) as [_ Hm].
  replace (Z.min e ez) with ez in Hm by lia.
  assert (Hbe : bpow e == bpow ez * inject_Z (2 ^ (e - ez))).
  { rewrite <- bpow_shift by lia. replace (ez + (e - ez))%Z with e by lia. reflexivity. }
  cbn [SF2Q]. rewrite !inject_cond_Zopp, Hm, inject_Z_mult, Hbe. destruct s; ring.
Qed.

Lemma SFsub_bound (x y : spec_float) (k : Z) :
  SFfinite x = true -> SFfinite y = true ->
  - bpow k < SF2Q x - SF2Q y < bpow k -> (-1021 <= k <= 971)%Z ->
  SFfinite (SFsub prec emax x y) = true /\
  SF2Q x - SF2Q y - bpow (k - 54) <= SF2Q (SFsub prec emax x y)
    <= SF2Q x - SF2Q y + bpow (k - 54).
Proof.
  intros Fx Fy Hx Hk. pose proof (bpow_pos (k - 54)) as Hp.
  destruct x as [sx| |  |sx mx ex]; try discriminate Fx;
  destruct y as [sy| |  |sy my ey]; try discriminate Fy.
  - assert (Hz : SFfinite (SFsub prec emax (S754_zero sx) (S754_zero sy)) = true /\
                 SF2Q (SFsub prec emax (S754_zero sx) (S754_zero sy)) == 0).
    { destruct sx, sy; split; reflexivity. }
    destruct Hz as [Hf Hv]. split; [exact Hf|]. rewrite Hv. cbn [SF2Q]. split; lra.
  - cbn [SFsub]. split; [reflexivity|]. rewrite SF2Q_opp_sign.
    change (SF2Q (S754_zero sx)) with 0. split; lra.
  - cbn [SFsub]. split; [reflexivity|].
    change (SF2Q (S754_zero sy)) with 0. split; lra.
  - cbn [SFsub].
    set (ez := Z.min ex ey).
    set (D := (cond_Zopp sx (Zpos (fst (shl_align mx ex ez)))
               - cond_Zopp sy (Zpos (fst (shl_align my ey ez))))%Z).
    assert (HD : inject_Z D * bpow ez
                 == SF2Q (S754_finite sx mx ex) - SF2Q (S754_finite sy my ey)).
    { unfold D. rewrite inject_Z_sub.
      rewrite <- (aligned_value sx mx ex ez), <- (aligned_value sy my ey ez) by (unfold ez; lia).
      ring. }
    rewrite <- HD in Hx |- *. apply binary_normalize_bound; assumption.
Qed.

Lemma SFmul_bound (x y : spec_float) (k : Z) :
  SFfinite x = true -> SFfinite y = true ->
  - bpow k < SF2Q x * SF2Q y < bpow k -> (-1021 <= k <= 971)%Z ->
  SFfinite (SFmul prec emax x y) = true /\
  SF2Q x * SF2Q y - bpow (k - 54) <= SF2Q (SFmul prec emax x y)
    <= SF2Q x * SF2Q y + bpow (k - 54).
Proof.
  intros Fx Fy Hx Hk. pose proof (bpow_pos (k - 54)) as Hp.
  destruct x as [sx| |  |sx mx ex]; try discriminate Fx;
  destruct y as [sy| |  |sy my ey]; try discriminate Fy; cbn [SFmul].
  1-3: split; [reflexivity|]; cbn [SF2Q];
       rewrite ?Qmult_0_l, ?Qmult_0_r; split; lra.
  assert (HP : inject_Z (cond_Zopp (xorb sx sy) (Zpos (mx * my))) * bpow (ex + ey)
               == SF2Q (S754_finite sx mx ex) * SF2Q (S754_finite sy my ey)).
  { cbn [SF2Q]. rewrite !inject_cond_Zopp, bpow_add, Pos2Z.inj_mul, inject_Z_mult.
    destruct sx, sy; cbn [xorb]; ring. }
  rewrite <- HP in Hx |- *.
  apply binary_round_aux_bound; [|exact Hk].
  rewrite inject_cond_Zopp in Hx. destruct (xorb sx sy); lra.
Qed.

(** ** The same facts on primitive floats *)

Lemma sub_bound (x y : float) (k : Z) :
  finiteF x = true -> finiteF y = true ->
  - bpow k < F2Q x - F2Q y < bpow k -> (-1021 <= k <= 971)%Z ->
  finiteF (x - y) = true /\
  F2Q x - F2Q y - bpow (k - 54) <= F2Q (x - y) <= F2Q x - F2Q y + bpow (k - 54).
Proof. unfold finiteF, F2Q. rewrite sub_spec. apply SFsub_bound. Qed.

Lemma mul_bound (x y : float) (k : Z) :
  finiteF x = true -> finiteF y = true ->
  - bpow k < F2Q x * F2Q y < bpow k -> (-1021 <= k <= 971)%Z ->
  finiteF (x * y) = true /\
  F2Q x * F2Q y - bpow (k - 54) <= F2Q (x * y) <= F2Q x * F2Q y + bpow (k - 54).
Proof. unfold finiteF, F2Q. rewrite mul_spec. apply SFmul_bound. Qed.

Lemma compare_F2Q (x y : float) :
  finiteF x = true -> finiteF y = true ->
  SFcompare (Prim2SF x) (Prim2SF y) = Some (F2Q x ?= F2Q y).
Proof. intros Fx Fy. apply SFcompare_Q; auto using Prim2SF_valid. Qed.

Lemma leb_F2Q (x y : float) :
  finiteF x = true -> finiteF y = true ->
  ((x <=? y)%float = true <-> F2Q x <= F2Q y).
Proof.
  intros Fx Fy. rewrite leb_spec. unfold SFleb. rewrite (compare_F2Q x y Fx Fy).
  destruct (Qcompare_spec (F2Q x) (F2Q y)) as [H|H|H]; split; intros; try lra; try reflexivity;
    try discriminate.
Qed.

Lemma ltb_F2Q (x y : float) :
  finiteF x = true -> finiteF y = true ->
  ((x <? y)%float = true <-> F2Q x < F2Q y).
Proof.
  intros Fx Fy. rewrite ltb_spec. unfold SFltb. rewrite (compare_F2Q x y Fx Fy).
  destruct (Qcompare_spec (F2Q x) (F2Q y)) as [H|H|H]; split; intros; try lra; try reflexivity;
    try discriminate.
Qed.

Lemma SFbetween_finite (lo x hi : spec_float) :
  SFfinite lo = true -> SFfinite hi = true ->
  SFleb lo x = true -> SFleb x hi = true \/ SFltb x hi = true ->
  SFfinite x = true.
Proof.
  intros Flo Fhi Hlo Hhi.
  destruct x as [sx|sx|  |sx mx ex]; try reflexivity; exfalso.
  - destruct lo as [?| | |? ? ?]; try discriminate;
    destruct hi as [?| | |? ? ?]; try discriminate;
    destruct sx; cbn in Hlo, Hhi; destruct Hhi; discriminate.
  - destruct lo as [?| | |? ? ?]; discriminate.
Qed.

Lemma between_finite (lo x hi : float) :
  finiteF lo = true -> finiteF hi = true ->
  (lo <=? x)%float = true -> (x <=? hi)%float = true \/ (x <? hi)%float = true ->
  finiteF x = true.
Proof.
  unfold finiteF. rewrite !leb_spec, ltb_spec. apply SFbetween_finite.
Qed.

(** ** Signs *)

Lemma round_result_signed (s : bool) (m2 e1 : Z) (r : spec_float) :
  round_result s m2 e1 r -> SFsigned s r.
Proof. intros [Hz|p e2 He2 Hp Hle|Hov Hpos]; reflexivity. Qed.

Lemma binary_round_aux_signed (s : bool) (m : positive) (e : Z) :
  SFsigned s (binary_round_aux prec emax s (Zpos m) e loc_Exact).
Proof.
  destruct (binary_round_aux_spec s m e) as (m2 & _ & _ & _ & Hres).
  exact (round_result_signed _ _ _ _ Hres).
Qed.

Lemma binary_round_signed (s : bool) (m : positive) (e : Z) :
  SFsigned s (binary_round prec emax s m e).
Proof.
  unfold binary_round.
  destruct (shl_align m e (fexp (Zpos (digits2_pos m) + e))) as [mz ez].
  apply binary_round_aux_signed.
Qed.

Lemma SFsigned_nonneg (r : spec_float) : SFsigned false r -> 0 <= SF2Q r.
Proof.
  destruct r as [s|s| |s m e]; cbn [SFsigned SF2Q]; try (intros; lra).
  intros ->. cbn [cond_Zopp]. apply Qmult_le_0_compat.
  - apply Qlt_le_weak. reflexivity.
  - pose proof (bpow_pos e). lra.
Qed.

Lemma SFsigned_le_zero (r : spec_float) :
  SFsigned true r -> SFleb r (S754_zero false) = true.
Proof. destruct r as [s|s| |s m e]; cbn [SFsigned]; intros H; subst; try reflexivity. destruct H. Qed.

Lemma SF2Q_nonneg_sign (s : bool) (m : positive) (e : Z) :
  0 <= SF2Q (S754_finite s m e) -> s = false.
Proof.
  destruct s; [|reflexivity]. cbn [SF2Q cond_Zopp]. intros H. exfalso.
  assert (Hp : 0 < inject_Z (Zpos m) * bpow e).
  { apply Qmult_lt_0_compat; [reflexivity|apply bpow_pos]. }
  change (Z.opp (Zpos m)) with (- Zpos m)%Z in H. rewrite inject_Z_opp in H.
  setoid_replace (- inject_Z (Zpos m) * bpow e)
    with (- (inject_Z (Zpos m) * bpow e)) using relation Qeq in H by ring.
  lra.
Qed.

Lemma SFmul_nonneg (x y : spec_float) :
  SFfinite x = true -> SFfinite y = true -> 0 <= SF2Q x -> 0 <= SF2Q y ->
  0 <= SF2Q (SFmul prec emax x y).
Proof.
  intros Fx Fy Hx Hy.
  destruct x as [sx| |  |sx mx ex]; try discriminate Fx;
  destruct y as [sy| |  |sy my ey]; try discriminate Fy; cbn [SFmul].
  1-3: cbn [SF2Q]; lra.
  rewrite (SF2Q_nonneg_sign _ _ _ Hx), (SF2Q_nonneg_sign _ _ _ Hy). cbn [xorb].
  apply SFsigned_nonneg, binary_round_aux_signed.
Qed.

Lemma mul_nonneg (x y : float) :
  finiteF x = true -> finiteF y = true -> 0 <= F2Q x -> 0 <= F2Q y ->
  0 <= F2Q (x * y).
Proof. unfold finiteF, F2Q. rewrite mul_spec. apply SFmul_nonneg. Qed.

(** Subtracting a positive number from one that is not larger gives a
    result that compares [<= 0], whatever its magnitude. *)
Lemma SFsub_le_zero (x : spec_float) (m : positive) (e : Z) :
  valid_binary x = true -> bounded prec emax m e = true ->
  SFleb x (S754_finite false m e) = true ->
  SFleb (SFsub prec emax x (S754_finite false m e)) (S754_zero false) = true.
Proof.
  intros Vx Vy Hle.
  destruct x as [sx|sx| |sx mx ex].
  - reflexivity.
  - destruct sx; [reflexivity|discriminate].
  - discriminate.
  - unfold SFleb in Hle.
    rewrite (SFcompare_Q (S754_finite sx mx ex) (S754_finite false m e) Vx Vy eq_refl eq_refl)
      in Hle.
    assert (Hq : SF2Q (S754_finite sx mx ex) <= SF2Q (S754_finite false m e)).
    { destruct (Qcompare_spec (SF2Q (S754_finite sx mx ex)) (SF2Q (S754_finite false m e)))
        as [H|H|H]; try discriminate; lra. }
    cbn [SFsub].
    set (ez := Z.min ex e).
    set (D := (cond_Zopp sx (Zpos (fst (shl_align mx ex ez)))
               - cond_Zopp false (Zpos (fst (shl_align m e ez))))%Z).
    assert (HD : inject_Z D * bpow ez
                 == SF2Q (S754_finite sx mx ex) - SF2Q (S754_finite false m e)).
    { unfold D. rewrite inject_Z_sub.
      rewrite <- (aligned_value sx mx ex ez), <- (aligned_value false m e ez) by (unfold ez; lia).
      ring. }
    assert (HD0 : (D <= 0)%Z).
    { destruct (Z_le_gt_dec D 0) as [H|H]; [exact H|exfalso].
      assert (0 < inject_Z D * bpow ez).
      { apply Qmult_lt_0_compat; [|apply bpow_pos]. rewrite <- (Zlt_Qlt 0). lia. }
      lra. }
    clearbody D. destruct D as [|p|p]; [reflexivity|lia|].
    cbn [binary_normalize]. apply SFsigned_le_zero, binary_round_signed.
Qed.

(** ** Numbers below one *)

Lemma SF_below_one (x : spec_float) :
  valid_binary x = true -> SF2Q x < 1 -> SF2Q x <= 1 - bpow (-53).
Proof.
  intros Vx Hlt. assert (Hb : bpow (-53) == 1 # 9007199254740992) by reflexivity.
  destruct x as [s|s| |s m e]; cbn [SF2Q] in *; try lra.
  destruct s; cbn [cond_Zopp] in *.
  { assert (0 < inject_Z (Zpos m) * bpow e).
    { apply Qmult_lt_0_compat; [reflexivity|apply bpow_pos]. }
    change (Z.opp (Zpos m)) with (- Zpos m)%Z. rewrite inject_Z_opp.
    setoid_replace (- inject_Z (Zpos m) * bpow e)
      with (- (inject_Z (Zpos m) * bpow e)) using relation Qeq by ring.
    lra. }
  cbn [valid_binary] in Vx. destruct (bounded_inv m e Vx) as (Hm & He & _).
  destruct (Z_lt_le_dec e (-53)) as [Hsmall|Hbig].
  - (* below 1/2 *)
    rewrite Zlt_Qlt in Hm.
    pose proof (bpow_le e (-54) ltac:(lia)) as Hle. pose proof (bpow_pos e) as Hp.
    assert (H54 : bpow (-54) == 1 # 18014398509481984) by reflexivity.
    assert (H53 : inject_Z (2 ^ 53) == 9007199254740992) by reflexivity.
    apply Qle_trans with (inject_Z (2 ^ 53) * bpow (-54)); [|rewrite H54, H53, Hb; lra].
    apply Qle_trans with (inject_Z (2 ^ 53) * bpow e).
    + apply Qmult_le_compat_r; lra.
    + apply Qmult_le_l; [reflexivity|exact Hle].
  - (* a multiple of [2 ^ e], with [-53 <= e] *)
    assert (He0 : (e < 0)%Z).
    { destruct (Z_lt_le_dec e 0) as [H|H]; [exact H|exfalso].
      pose proof (bpow_le 0 e H) as Hle. change (bpow 0) with 1 in Hle.
      assert (1 <= inject_Z (Zpos m)) by (rewrite <- (Zle_Qle 1); lia).
      assert (1 * 1 <= inject_Z (Zpos m) * bpow e).
      { apply Qmult_le_compat_nonneg; split; lra. }
      lra. }
    assert (Hinv : bpow e * inject_Z (2 ^ (- e)) == 1).
    { rewrite <- bpow_shift by lia. replace (e + - e)%Z with 0%Z by lia. reflexivity. }
    pose proof (bpow_pos e) as Hp.
    assert (Hmlt : (Zpos m < 2 ^ (- e))%Z).
    { rewrite Zlt_Qlt. apply (Qmult_lt_r _ _ (bpow e) Hp).
      rewrite (Qmult_comm (inject_Z (2 ^ (- e)))), Hinv. exact Hlt. }
    assert (Hmle : inject_Z (Zpos m) <= inject_Z (2 ^ (- e)) - 1).
    { change 1 with (inject_Z 1). rewrite <- inject_Z_sub, <- Zle_Qle. lia. }
    apply Qle_trans with ((inject_Z (2 ^ (- e)) - 1) * bpow e).
    + apply Qmult_le_compat_r; lra.
    + pose proof (bpow_le (-53) e Hbig).
      setoid_replace ((inject_Z (2 ^ (- e)) - 1) * bpow e)
        with (bpow e * inject_Z (2 ^ (- e)) - bpow e) using relation Qeq by ring.
      rewrite Hinv. lra.
Qed.

(** ** Integers and one-decimal numerals in the range of the readings *)

Lemma Zrange_check (P : Z -> bool) (lo : Z) (n : nat) :
  forallb P (Zrange lo n) = true ->
  forall z : Z, (lo <= z < lo + Z.of_nat n)%Z -> P z = true.
Proof.
  intros Hall z Hz. rewrite forallb_forall in Hall. apply Hall.
  unfold Zrange. apply in_map_iff. exists (Z.to_nat (z - lo)). split; [lia|].
  apply in_seq. lia.
Qed.

Lemma Z2F_small (n : Z) :
  (0 <= n <= 1000)%Z -> finiteF (Z2F n) = true /\ F2Q (Z2F n) == inject_Z n.
Proof.
  intros Hn.
  assert (Hall : forallb check_Z2F (Zrange 0 1001) = true) by (vm_compute; reflexivity).
  pose proof (Zrange_check _ _ _ Hall n ltac:(lia)) as Hc.
  unfold check_Z2F in Hc. apply andb_true_iff in Hc. destruct Hc as [Hf Hq].
  split; [exact Hf|]. now apply Qeq_bool_iff.
Qed.

Lemma parseFloat_tenths (n : Z) :
  (0 <= n <= 1000)%Z ->
  finiteF (parseFloat (Tenths false n)) = true /\
  inject_Z n / 10 - (1 # 10000000000) <= F2Q (parseFloat (Tenths false n))
    <= inject_Z n / 10 + (1 # 10000000000).
Proof.
  intros Hn.
  assert (Hall : forallb check_tenths (Zrange 0 1001) = true) by (vm_compute; reflexivity).
  pose proof (Zrange_check _ _ _ Hall n ltac:(lia)) as Hc.
  unfold check_tenths in Hc. cbv zeta in Hc.
  rewrite !andb_true_iff in Hc. destruct Hc as [[Hf Hlo] Hhi].
  split; [exact Hf|]. split; now apply Qle_bool_iff.
Qed.

End Values.

(** * The telemetry generator *)

Section Generator.
Local Open Scope Q_scope.

(** ** The battery *)

Lemma F2Q_drain : F2Q 0.35 == 6305039478318694 # 18014398509481984.
Proof. vm_compute. reflexivity. Qed.

Lemma battery_after_before (b : float) : battery_after b -> battery_before b.
Proof. intros (Hf & Hlo & Hhi). split; [exact Hf|]. split; lra. Qed.

Lemma drain_step (this : SimulatedDevice) (r1 r2 : float) (now : string) :
  battery_before (currentBattery this) ->
  battery_after (currentBattery (snd (generateTelemetry this r1 r2 now))).
Proof.
  intros (Hf & Hlo & Hhi). cbn [generateTelemetry snd currentBattery].
  set (b := currentBattery this) in *.
  destruct (sub_bound b 0.35 7) as (Hf1 & Hlo1 & Hhi1); [exact Hf|reflexivity| |lia|].
  { rewrite F2Q_drain. change (bpow 7) with 128. split; lra. }
  rewrite F2Q_drain in Hlo1, Hhi1.
  assert (H47 : bpow (7 - 54) == 1 # 140737488355328) by reflexivity.
  rewrite H47 in Hlo1, Hhi1.
  destruct (b - 0.35 <=? 0)%float eqn:Hreset.
  - split; [reflexivity|]. change (F2Q 100) with (inject_Z 7036874417766400 * bpow (-46)).
    assert (H100 : inject_Z 7036874417766400 * bpow (-46) == 100) by reflexivity.
    rewrite H100. split; lra.
  - split; [exact Hf1|].
    assert (Hpos : ~ F2Q (b - 0.35) <= F2Q 0).
    { intros Hle. apply (leb_F2Q (b - 0.35) 0 Hf1 eq_refl) in Hle. congruence. }
    change (F2Q 0) with 0 in Hpos. split; lra.
Qed.

Lemma calls_battery (inputs : list (float * float * string)) :
  forall this : SimulatedDevice,
  battery_before (currentBattery this) -> inputs <> [] ->
  battery_after (currentBattery (calls this inputs)).
Proof.
  induction inputs as [|[[r1 r2] now] rest IH]; intros this Hb Hne; [congruence|].
  cbn [calls foldl]. fold (calls (snd (generateTelemetry this r1 r2 now)) rest).
  pose proof (drain_step this r1 r2 now Hb) as Hstep.
  destruct rest as [|i rest'].
  - exact Hstep.
  - apply IH; [now apply battery_after_before|discriminate].
Qed.

(** C1.  From any initial battery value in [[0, 100)], the battery level
    after each call of a sequence of [generateTelemetry] calls is above 0
    and at most 100. *)
Theorem battery_invariant (this : SimulatedDevice)
    (inputs : list (float * float * string)) :
  (0 <=? currentBattery this)%float = true ->
  (currentBattery this <? 100)%float = true ->
  inputs <> [] ->
  (0 <? currentBattery (calls this inputs))%float = true /\
  (currentBattery (calls this inputs) <=? 100)%float = true.
Proof.
  intros Hlo Hhi Hne.
  assert (Hf : finiteF (currentBattery this) = true).
  { apply (between_finite 0 _ 100); auto. }
  assert (Hb : battery_before (currentBattery this)).
  { split; [exact Hf|].
    apply (leb_F2Q 0 (currentBattery this) eq_refl Hf) in Hlo.
    apply (ltb_F2Q (currentBattery this) 100 Hf eq_refl) in Hhi.
    change (F2Q 0) with 0 in Hlo.
    assert (H100 : F2Q 100 == 100) by reflexivity. rewrite H100 in Hhi. split; lra. }
  destruct (calls_battery inputs this Hb Hne) as (Hf' & Hlo' & Hhi').
  split.
  - apply (ltb_F2Q 0 (currentBattery (calls this inputs)) eq_refl Hf'). exact Hlo'.
  - apply (leb_F2Q (currentBattery (calls this inputs)) 100 Hf' eq_refl).
    assert (H100 : F2Q 100 == 100) by reflexivity. rewrite H100. exact Hhi'.
Qed.

Lemma battery_invariant_witness :
  (0 <? currentBattery (calls device7 [(0.5, 0.5, "t")%float]))%float = true /\
  (currentBattery (calls device7 [(0.5, 0.5, "t")%float]) <=? 100)%float = true.
Proof.
  apply (battery_invariant device7 [(0.5, 0.5, "t")%float]);
    [reflexivity|reflexivity|discriminate].
Defined.

(** C2.  When the battery level is at most 0.35 the call sets it to 100,
    and the payload reports 100: nothing is left of the drain. *)
Theorem battery_reset (this : SimulatedDevice) (r1 r2 : float) (now : string) :
  (currentBattery this <=? 0.35)%float = true ->
  currentBattery (snd (generateTelemetry this r1 r2 now)) = 100%float /\
  battery (fst (generateTelemetry this r1 r2 now)) = 100%float.
Proof.
  intros Hle. cbn [generateTelemetry fst snd currentBattery battery].
  assert (Hreset : (currentBattery this - 0.35 <=? 0)%float = true).
  { rewrite leb_spec, sub_spec. rewrite leb_spec in Hle.
    change (Prim2SF 0) with (S754_zero false).
    change (Prim2SF 0.35) with (S754_finite false 6305039478318694 (-54)) in *.
    apply SFsub_le_zero; [apply Prim2SF_valid|reflexivity|exact Hle]. }
  rewrite Hreset. split; reflexivity.
Qed.

Lemma battery_reset_witness :
  currentBattery (snd (generateTelemetry device7 0.5 0.5 "t")) = 100%float /\
  battery (fst (generateTelemetry device7 0.5 0.5 "t")) = 100%float.
Proof. apply (battery_reset device7 0.5 0.5 "t"). reflexivity. Defined.

(** ** Construction *)

(** C3, as amended.  The base values are functions of the device ID alone:
    20 plus the remainder of the ID by 10, and 40 plus its remainder by 15,
    the remainder being that of [%], which takes the sign of the ID; on the
    IDs that are not negative it is the [mod] of the specification.  Two
    constructions with the same ID agree on both values. *)
Theorem base_values (N : Z) (c1 c2 : DeviceConfig) (t1 t2 : string) (r1 r2 : float) :
  deviceId c1 = N -> deviceId c2 = N ->
  let d1 := new_SimulatedDevice c1 t1 r1 in
  let d2 := new_SimulatedDevice c2 t2 r2 in
  baseTemp d1 = (20 + Z.rem N 10)%Z /\ baseHum d1 = (40 + Z.rem N 15)%Z /\
  baseTemp d2 = baseTemp d1 /\ baseHum d2 = baseHum d1 /\
  ((0 <= N)%Z -> baseTemp d1 = (20 + N mod 10)%Z /\ baseHum d1 = (40 + N mod 15)%Z).
Proof.
  intros H1 H2. cbn [new_SimulatedDevice baseTemp baseHum]. rewrite H1, H2.
  repeat split; try reflexivity.
  - rewrite Z.rem_mod_nonneg by lia. reflexivity.
  - rewrite Z.rem_mod_nonneg by lia. reflexivity.
Qed.

Lemma base_values_witness :
  baseTemp device7 = 27%Z /\ baseHum device7 = 47%Z /\
  baseTemp (new_SimulatedDevice (config device7) "other" 0.75) = baseTemp device7 /\
  baseHum (new_SimulatedDevice (config device7) "other" 0.75) = baseHum device7 /\
  ((0 <= 7)%Z -> baseTemp device7 = 27%Z /\ baseHum device7 = 47%Z).
Proof.
  exact (base_values 7 (config device7) (config device7) "abc123" "other" 0 0.75
           eq_refl eq_refl).
Defined.

(** C3 as the specification words it fails on a negative ID: for the ID -3
    the constructor gives 17 and 37, where [20 + (-3 mod 10)] is 27 and
    [40 + (-3 mod 15)] is 52. *)
Lemma base_values_counterexample :
  baseTemp (new_SimulatedDevice config_minus3 "t" 0) = 17%Z /\
  spec_baseTemperature (deviceId config_minus3) = 27%Z /\
  baseHum (new_SimulatedDevice config_minus3 "t" 0) = 37%Z /\
  spec_baseHumidity (deviceId config_minus3) = 52%Z /\
  baseTemp (new_SimulatedDevice config_minus3 "t" 0)
    <> spec_baseTemperature (deviceId config_minus3) /\
  baseHum (new_SimulatedDevice config_minus3 "t" 0)
    <> spec_baseHumidity (deviceId config_minus3).
Proof. repeat split; discriminate. Qed.

(** On a negative ID the remainder is negative too. *)
Example base_values_negative_id :
  baseTemp (new_SimulatedDevice
              {| deviceId := -3; serial := "S"; name := "N"; location := "L" |} "t" 0)
  = 17%Z.
Proof. reflexivity. Qed.

Lemma base_ranges (c : DeviceConfig) (t : string) (r : float) :
  (11 <= baseTemp (new_SimulatedDevice c t r) <= 29)%Z /\
  (26 <= baseHum (new_SimulatedDevice c t r) <= 54)%Z.
Proof.
  cbn [new_SimulatedDevice baseTemp baseHum].
  pose proof (Z.rem_bound_abs (deviceId c) 10 ltac:(lia)).
  pose proof (Z.rem_bound_abs (deviceId c) 15 ltac:(lia)). lia.
Qed.

(** C8.  A call leaves every field of the device but [currentBattery] as
    it was. *)
Theorem generateTelemetry_frame (this : SimulatedDevice) (r1 r2 : float) (now : string) :
  let this' := snd (generateTelemetry this r1 r2 now) in
  config this' = config this /\ token this' = token this /\
  baseTemp this' = baseTemp this /\ baseHum this' = baseHum this /\
  this' = {| config := config this; token := token this; baseTemp := baseTemp this;
             baseHum := baseHum this; currentBattery := currentBattery this' |}.
Proof. cbn [generateTelemetry snd config token baseTemp baseHum currentBattery]. auto. Qed.

Lemma calls_frame (inputs : list (float * float * string)) :
  forall this : SimulatedDevice,
  config (calls this inputs) = config this /\ token (calls this inputs) = token this /\
  baseTemp (calls this inputs) = baseTemp this /\ baseHum (calls this inputs) = baseHum this.
Proof.
  induction inputs as [|[[r1 r2] now] rest IH]; intros this; [auto|].
  cbn [calls foldl]. fold (calls (snd (generateTelemetry this r1 r2 now)) rest).
  destruct (IH (snd (generateTelemetry this r1 r2 now))) as (Hc & Ht & Hbt & Hbh).
  rewrite Hc, Ht, Hbt, Hbh. auto.
Qed.

(** C10.  The initial battery level is [Math.floor] of the draw times 100:
    a whole number from 0 to 99.  It is 0 for a draw of 0, so it need not
    be positive before the first call. *)
Theorem initial_battery (c : DeviceConfig) (t : string) (r : float) :
  (0 <=? r)%float = true -> (r <? 1)%float = true ->
  let b := currentBattery (new_SimulatedDevice c t r) in
  b = Math_floor (r * 100) /\ finiteF b = true /\
  (exists n : Z, (0 <= n <= 99)%Z /\ n = Qfloor (F2Q (r * 100)) /\ F2Q b == inject_Z n) /\
  (0 <? currentBattery (new_SimulatedDevice c t 0))%float = false.
Proof.
  intros Hlo Hhi. cbn [new_SimulatedDevice currentBattery]. cbv zeta.
  split; [reflexivity|].
  enough (Hmain : finiteF (Math_floor (r * 100)) = true /\
                  exists n : Z, (0 <= n <= 99)%Z /\ n = Qfloor (F2Q (r * 100)) /\
                                F2Q (Math_floor (r * 100)) == inject_Z n).
  { destruct Hmain as [Hm1 Hm2]. split; [exact Hm1|]. split; [exact Hm2|reflexivity]. }
  assert (Hf : finiteF r = true) by (apply (between_finite 0 r 1); auto).
  apply (leb_F2Q 0 r eq_refl Hf) in Hlo. apply (ltb_F2Q r 1 Hf eq_refl) in Hhi.
  change (F2Q 0) with 0 in Hlo. assert (H1 : F2Q 1 == 1) by reflexivity. rewrite H1 in Hhi.
  pose proof (SF_below_one (Prim2SF r) (Prim2SF_valid r) Hhi) as Hgap. fold (F2Q r) in Hgap.
  assert (H53 : bpow (-53) == 1 # 9007199254740992) by reflexivity. rewrite H53 in Hgap.
  assert (H100 : F2Q 100 == 100) by reflexivity.
  destruct (mul_bound r 100 7) as (Hfx & Hlox & Hhix); [exact Hf|reflexivity| |lia|].
  { rewrite H100. change (bpow 7) with 128. split; lra. }
  pose proof (mul_nonneg r 100 Hf eq_refl Hlo ltac:(rewrite H100; lra)) as Hx0.
  rewrite H100 in Hhix.
  assert (H47 : bpow (7 - 54) == 1 # 140737488355328) by reflexivity. rewrite H47 in Hhix.
  assert (Hx100 : F2Q (r * 100) < 100) by lra. clear Hlox Hhix.
  set (x := (r * 100)%float) in *.
  assert (Hn : (0 <= Qfloor (F2Q x) <= 99)%Z).
  { split.
    - rewrite <- (Qfloor_Z 0). apply Qfloor_resp_le. exact Hx0.
    - assert (Qfloor (F2Q x) < 100)%Z; [|lia].
      rewrite Zlt_Qlt. apply Qle_lt_trans with (F2Q x); [apply Qfloor_le|exact Hx100]. }
  unfold Math_floor. unfold finiteF, F2Q in Hfx, Hx0, Hx100 |- *.
  fold (F2Q x). destruct (Prim2SF x) as [s|s| |s m e] eqn:Hsf; try discriminate Hfx.
  - (* a zero *)
    rewrite Hsf. split; [reflexivity|]. exists 0%Z.
    unfold F2Q. rewrite Hsf. cbn [SF2Q]. repeat split; try lia; try reflexivity.
  - destruct (e <? 0)%Z eqn:He.
    + (* a fraction: the integer below it *)
      destruct (Z2F_small (Qfloor (F2Q x)) ltac:(lia)) as [Hfz Hvz].
      split; [exact Hfz|]. exists (Qfloor (F2Q x)). repeat split; try lia. exact Hvz.
    + (* an integer already *)
      apply Z.ltb_ge in He. rewrite Hsf. split; [reflexivity|].
      pose proof (SF2Q_nonneg_sign s m e Hx0) as Hs. subst s.
      assert (Hv : F2Q x == inject_Z (Zpos m * 2 ^ e)).
      { unfold F2Q. rewrite Hsf. cbn [SF2Q cond_Zopp].
        rewrite inject_Z_mult, bpow_Z by lia. reflexivity. }
      exists (Zpos m * 2 ^ e)%Z. rewrite (Qfloor_comp _ _ Hv), Qfloor_Z in Hn.
      repeat split; try lia.
      * rewrite (Qfloor_comp _ _ Hv), Qfloor_Z. reflexivity.
      * rewrite <- Hv. unfold F2Q. rewrite Hsf. reflexivity.
Qed.

Lemma initial_battery_witness :
  currentBattery device7 = Math_floor (0 * 100) /\ finiteF (currentBattery device7) = true /\
  (exists n : Z, (0 <= n <= 99)%Z /\ n = Qfloor (F2Q (0 * 100)) /\
                 F2Q (currentBattery device7) == inject_Z n) /\
  (0 <? currentBattery device7)%float = false.
Proof.
  exact (initial_battery (config device7) "abc123" 0 eq_refl eq_refl).
Defined.

(** ** Readings *)

Lemma F2Q_low : F2Q 0.8 == 7205759403792794 # 9007199254740992.
Proof. vm_compute. reflexivity. Qed.

Lemma F2Q_high : F2Q 1.2 == 5404319552844595 # 4503599627370496.
Proof. vm_compute. reflexivity. Qed.

Lemma inject_Z_le (a b : Z) : (a <= b)%Z -> inject_Z a <= inject_Z b.
Proof. now rewrite <- Zle_Qle. Qed.

Lemma inject_Z_lt (a b : Z) : inject_Z a < inject_Z b -> (a < b)%Z.
Proof. now rewrite <- Zlt_Qlt. Qed.

(** A base value times a variance factor, printed with one decimal. *)
Lemma reading_within (base : Z) (v : float) :
  (11 <= base <= 54)%Z ->
  (0.8 <=? v)%float = true -> (v <? 1.2)%float = true ->
  let t := parseFloat (toFixed1 (Z2F base * v)) in
  (exists n : Z, (8 * base <= n <= 12 * base)%Z /\ t = parseFloat (Tenths false n)) /\
  finiteF t = true /\
  (4 # 5) * inject_Z base - (1 # 20) <= F2Q t <= (6 # 5) * inject_Z base + (1 # 20).
Proof.
  intros Hbase Hlo Hhi t.
  assert (Hfv : finiteF v = true) by (apply (between_finite 0.8 v 1.2); auto).
  apply (leb_F2Q 0.8 v eq_refl Hfv) in Hlo. apply (ltb_F2Q v 1.2 Hfv eq_refl) in Hhi.
  rewrite F2Q_low in Hlo. rewrite F2Q_high in Hhi.
  destruct (Z2F_small base ltac:(lia)) as [Hfb Hvb].
  assert (HB : 11 <= inject_Z base <= 54).
  { split; [apply (inject_Z_le 11 base)|apply (inject_Z_le base 54)]; lia. }
  set (B := inject_Z base) in *. set (W := F2Q v) in *.
  assert (HPlo : B * (7205759403792794 # 9007199254740992) <= B * W).
  { apply Qmult_le_l; lra. }
  assert (HPhi : B * W < B * (5404319552844595 # 4503599627370496)).
  { apply Qmult_lt_l; lra. }
  destruct (mul_bound (Z2F base) v 7) as (Hfx & Hlox & Hhix); [exact Hfb|exact Hfv| |lia|].
  { rewrite Hvb. fold B W. change (bpow 7) with 128. split; lra. }
  rewrite Hvb in Hlox, Hhix. fold B W in Hlox, Hhix.
  assert (H47 : bpow (7 - 54) == 1 # 140737488355328) by reflexivity.
  rewrite H47 in Hlox, Hhix.
  set (x := (Z2F base * v)%float) in *.
  assert (Hxlo : (4 # 5) * B - (1 # 100000000000) <= F2Q x) by lra.
  assert (Hxhi : F2Q x <= (6 # 5) * B + (1 # 100000000000)) by lra.
  clear Hlox Hhix HPlo HPhi.
  (* the text of [x.toFixed(1)] *)
  assert (Htext : toFixed1 x = Tenths false (Qfloor (10 * F2Q x + (1 # 2)))).
  { unfold toFixed1. unfold F2Q in Hxlo, Hxhi. unfold finiteF in Hfx.
    pose proof (Prim2SF_valid x) as Hvalid.
    destruct (Prim2SF x) as [s|s| |s m e] eqn:Hsf; try discriminate Hfx.
    - cbn [SF2Q] in Hxlo. lra.
    - pose proof (SF2Q_nonneg_sign s m e ltac:(lra)) as Hs. subst s.
      assert (He : (e <? -3)%Z = true).
      { apply Z.ltb_lt. destruct (Z_lt_le_dec e (-3)) as [H|H]; [exact H|exfalso].
        cbn [valid_binary] in Hvalid.
        destruct (bounded_inv m e Hvalid) as (_ & _ & Hm). specialize (Hm ltac:(lia)).
        rewrite Zle_Qle in Hm. pose proof (bpow_le (-3) e H) as Hb.
        assert (H3 : bpow (-3) == 1 # 8) by reflexivity. rewrite H3 in Hb.
        assert (H52 : inject_Z (2 ^ 52) == 4503599627370496) by reflexivity.
        rewrite H52 in Hm. cbn [SF2Q cond_Zopp] in Hxhi.
        assert (4503599627370496 * (1 # 8) <= inject_Z (Zpos m) * bpow e).
        { apply Qmult_le_compat_nonneg; split; lra. }
        lra. }
      rewrite He. f_equal. apply Qfloor_comp.
      unfold F2Q. rewrite Hsf. rewrite Qabs_pos by lra. reflexivity. }
  set (n := Qfloor (10 * F2Q x + (1 # 2))) in *.
  assert (Hn : (8 * base <= n <= 12 * base)%Z).
  { split.
    - replace (8 * base)%Z with (Qfloor (inject_Z (8 * base))) by apply Qfloor_Z.
      apply Qfloor_resp_le. rewrite inject_Z_mult. fold B. change (inject_Z 8) with 8. lra.
    - assert (n < 12 * base + 1)%Z; [|lia].
      rewrite Zlt_Qlt. apply Qle_lt_trans with (10 * F2Q x + (1 # 2)); [apply Qfloor_le|].
      rewrite inject_Z_plus, inject_Z_mult. fold B.
      change (inject_Z 12) with 12. change (inject_Z 1) with 1. lra. }
  destruct (parseFloat_tenths n ltac:(lia)) as (Hft & Htlo & Hthi).
  assert (Hnq : 8 * B <= inject_Z n <= 12 * B).
  { destruct Hn as [Hn1 Hn2]. rewrite Zle_Qle in Hn1, Hn2.
    rewrite inject_Z_mult in Hn1, Hn2. fold B in Hn1, Hn2.
    change (inject_Z 8) with 8 in Hn1. change (inject_Z 12) with 12 in Hn2. split; lra. }
  unfold t. rewrite Htext. split; [exists n; split; [exact Hn|reflexivity]|].
  split; [exact Hft|].
  assert (Hdiv : inject_Z n / 10 == inject_Z n * (1 # 10)) by (unfold Qdiv; reflexivity).
  rewrite Hdiv in Htlo, Hthi. split; lra.
Qed.

(** C4.  With both variance factors in [[0.8, 1.2)], the temperature and the
    humidity of the payload are within 0.05, half a unit of the decimal
    they are rounded to, of the interval from 0.8 to 1.2 times the base
    value; each is the one-decimal numeral [n / 10] for an integer [n] with
    [0.8 * base <= n / 10 <= 1.2 * base]. *)
Theorem reading_range (c : DeviceConfig) (tok : string) (r0 : float)
    (history : list (float * float * string)) (r1 r2 : float) (now : string) :
  let this := calls (new_SimulatedDevice c tok r0) history in
  let data := fst (generateTelemetry this r1 r2 now) in
  (0.8 <=? variance r1)%float = true -> (variance r1 <? 1.2)%float = true ->
  (0.8 <=? variance r2)%float = true -> (variance r2 <? 1.2)%float = true ->
  ((4 # 5) * inject_Z (baseTemp this) - (1 # 20) <= F2Q (temperature data)
     <= (6 # 5) * inject_Z (baseTemp this) + (1 # 20)) /\
  ((4 # 5) * inject_Z (baseHum this) - (1 # 20) <= F2Q (humidity data)
     <= (6 # 5) * inject_Z (baseHum this) + (1 # 20)) /\
  (exists n : Z, (8 * baseTemp this <= n <= 12 * baseTemp this)%Z /\
                 temperature data = parseFloat (Tenths false n)) /\
  (exists n : Z, (8 * baseHum this <= n <= 12 * baseHum this)%Z /\
                 humidity data = parseFloat (Tenths false n)).
Proof.
  intros this data H1lo H1hi H2lo H2hi.
  destruct (calls_frame history (new_SimulatedDevice c tok r0)) as (_ & _ & Hbt & Hbh).
  fold this in Hbt, Hbh.
  destruct (base_ranges c tok r0) as [Ht Hh]. rewrite <- Hbt in Ht. rewrite <- Hbh in Hh.
  destruct (reading_within (baseTemp this) (variance r1) ltac:(lia) H1lo H1hi)
    as (Hn1 & _ & Hq1).
  destruct (reading_within (baseHum this) (variance r2) ltac:(lia) H2lo H2hi)
    as (Hn2 & _ & Hq2).
  unfold data. cbn [generateTelemetry fst temperature humidity]. auto.
Qed.

Lemma reading_range_witness :
  ((4 # 5) * inject_Z 27 - (1 # 20)
     <= F2Q (temperature (fst (generateTelemetry device7 0.5 0.25 "t")))
     <= (6 # 5) * inject_Z 27 + (1 # 20)) /\
  ((4 # 5) * inject_Z 47 - (1 # 20)
     <= F2Q (humidity (fst (generateTelemetry device7 0.5 0.25 "t")))
     <= (6 # 5) * inject_Z 47 + (1 # 20)) /\
  (exists n : Z, (8 * 27 <= n <= 12 * 27)%Z /\
     temperature (fst (generateTelemetry device7 0.5 0.25 "t")) = parseFloat (Tenths false n)) /\
  (exists n : Z, (8 * 47 <= n <= 12 * 47)%Z /\
     humidity (fst (generateTelemetry device7 0.5 0.25 "t")) = parseFloat (Tenths false n)).
Proof.
  exact (reading_range (config device7) "abc123" 0 [] 0.5 0.25 "t"
           eq_refl eq_refl eq_refl eq_refl).
Defined.

End Generator.

(** * The device agent *)

Lemma pushData_result (target : string) (this : SimulatedDevice) (i : Inputs) (io0 : IO) :
  let data := fst (generateTelemetry this (random1 i) (random2 i) (now i)) in
  let this' := snd (generateTelemetry this (random1 i) (random2 i) (now i)) in
  pushData target this i io0 =
  (Normal this',
   {| console := console io0 ++
        [ match failure (outcome i) with
          | Some reason => LogError (name (config this)) (deviceId (config this)) reason
          | None => LogSent (name (config this)) (location (config this)) data
          end ];
      posted := posted io0 ++
        [ {| url := target; body := data;
             headers := [("Content-Type", "application/json");
                         ("x-device-token", token this)] |} ] |}).
Proof.
  unfold pushData, generateTelemetry, bind, try_catch, axios_post, console_write, ret, failure.
  cbn [fst snd config token tp_deviceId].
  destruct (outcome i) as [code|reason]; [destruct ((200 <=? code) && (code <? 300))|];
    reflexivity.
Qed.

Lemma forEach_pushData_normal (target : string) (inputs : nat -> Inputs)
    (ds : list SimulatedDevice) :
  forall (k : nat) (io0 : IO),
  exists (ds' : list SimulatedDevice) (io' : IO),
    forEach_pushData target ds k inputs io0 = (Normal ds', io') /\
    map config ds' = map config ds /\
    (exists lines, console io' = console io0 ++ lines) /\
    length (posted io') = (length (posted io0) + length ds)%nat.
Proof.
  induction ds as [|d rest IH]; intros k io0.
  - exists [], io0. cbn. repeat split; try lia. exists []. now rewrite app_nil_r.
  - cbn [forEach_pushData]. unfold bind. rewrite pushData_result. cbv beta iota.
    match goal with |- context [forEach_pushData target rest (S k) inputs ?i] =>
      destruct (IH (S k) i) as (ds' & io' & Hrun & Hcfg & (lines & Hcon) & Hpost) end.
    rewrite Hrun. unfold ret.
    eexists _, io'. split; [reflexivity|].
    cbn [console posted] in Hcon, Hpost. cbn [map]. rewrite Hcfg. repeat split.
    + eexists. rewrite Hcon, <- app_assoc. reflexivity.
    + rewrite Hpost, length_app. cbn [length]. lia.
Qed.

Lemma tick_normal (h : Host) (inputs : nat -> Inputs) (p : Process) :
  exists p', tick h inputs p = (Normal tt, p') /\
    map config (devices p') = map config (devices p) /\
    (exists lines, console (io p') = console (io p) ++ lines) /\
    length (posted (io p')) = (length (posted (io p)) + length (devices p))%nat /\
    routes p' = routes p /\ listening p' = listening p /\ started p' = started p /\
    timers p' = timers p /\ clock p' = clock p /\
    tick_times p' = tick_times p ++ [clock p] /\ crashed p' = crashed p.
Proof.
  unfold tick.
  destruct (forEach_pushData_normal (TARGET_API_URL h) inputs (devices p) 0 (io p))
    as (ds' & io' & Hrun & Hcfg & Hcon & Hpost).
  rewrite Hrun. eexists. split; [reflexivity|].
  cbn. repeat split; assumption.
Qed.

(** C5.  [pushData] returns normally whatever the network does: it sends one
    request and writes one line, the error line with the device's name, its
    ID and the reason when the request failed.  So a fleet tick, which calls
    it on every device, completes, and the process goes on. *)
Theorem delivery_failure_absorbed (h : Host) (this : SimulatedDevice) (i : Inputs)
    (io0 : IO) (inputs : nat -> Inputs) (p : Process) :
  (exists io',
     pushData (TARGET_API_URL h) this i io0
       = (Normal (snd (generateTelemetry this (random1 i) (random2 i) (now i))), io') /\
     length (posted io') = S (length (posted io0)) /\
     forall reason, failure (outcome i) = Some reason ->
       console io' = console io0 ++
                     [LogError (name (config this)) (deviceId (config this)) reason]) /\
  (exists p', tick h inputs p = (Normal tt, p') /\
     length (devices p') = length (devices p) /\
     crashed (top_level (tick h inputs) p) = crashed p).
Proof.
  split.
  - rewrite pushData_result. eexists. split; [reflexivity|].
    cbn [console posted]. split.
    + rewrite length_app. cbn [length]. lia.
    + intros reason Hreason. rewrite Hreason. reflexivity.
  - destruct (tick_normal h inputs p) as (p' & Hrun & Hcfg & _ & _ & _ & _ & _ & _ & _ & _ & Hcr).
    exists p'. split; [exact Hrun|]. split.
    + rewrite <- (length_map config (devices p')), Hcfg. apply length_map.
    + unfold top_level. rewrite Hrun. exact Hcr.
Qed.

(** * Start-up *)

Lemma forEach_instantiate (h : Host) (configs : list DeviceConfig) :
  forall p : Process,
  exists p', forEach configs (instantiate h) p = (Normal tt, p') /\
    map config (devices p') = map config (devices p) ++ List.filter (resolvable h) configs /\
    (exists lines, console (io p') = console (io p) ++ lines /\
       forall c, In c configs -> resolvable h c = false ->
         In (WarnNoToken (deviceId c) (envTokenKey c)) lines) /\
    posted (io p') = posted (io p) /\ routes p' = routes p /\
    listening p' = listening p /\ started p' = started p /\ timers p' = timers p /\
    clock p' = clock p /\ tick_times p' = tick_times p /\ crashed p' = crashed p.
Proof.
  induction configs as [|c rest IH]; intros p.
  - exists p. cbn. rewrite app_nil_r. repeat split; try reflexivity.
    exists []. rewrite app_nil_r. split; [reflexivity|]. intros c [].
  - cbn [forEach]. unfold bind. unfold instantiate at 1. unfold resolvable at 1.
    cbn [List.filter]. unfold resolvable at 1.
    destruct (resolve_token h c) as [tok|] eqn:Hres.
    + match goal with |- context [forEach rest (instantiate h) ?q] =>
        destruct (IH q) as (p' & Hrun & Hcfg & (lines & Hcon & Hwarn) & Hrest) end.
      rewrite Hrun. exists p'. split; [reflexivity|].
      cbn in Hcfg, Hcon, Hrest. split.
      { rewrite Hcfg, map_app. cbn [map new_SimulatedDevice config].
        rewrite <- app_assoc. reflexivity. }
      split; [|exact Hrest].
      exists lines. split; [exact Hcon|]. intros c' [->|Hin] Hc'.
      * unfold resolvable in Hc'. rewrite Hres in Hc'. discriminate.
      * now apply Hwarn.
    + unfold lift_io, console_write. cbv beta iota zeta.
      match goal with |- context [forEach rest (instantiate h) ?q] =>
        destruct (IH q) as (p' & Hrun & Hcfg & (lines & Hcon & Hwarn) & Hrest) end.
      rewrite Hrun. exists p'. split; [reflexivity|].
      cbn in Hcfg, Hcon, Hrest. split; [exact Hcfg|]. split; [|exact Hrest].
      exists (WarnNoToken (deviceId c) (envTokenKey c) :: lines). split.
      * rewrite Hcon, <- app_assoc. reflexivity.
      * intros c' [->|Hin] Hc'; [left; reflexivity|right; now apply Hwarn].
Qed.

Lemma boot_ok (h : Host) (raw : string) (configs : list DeviceConfig) :
  files h !! configPath h = Some raw -> JSON_parse h raw = Some configs ->
  crashed (boot h) = None /\
  map config (devices (boot h)) = List.filter (resolvable h) configs /\
  (forall c, In c configs -> resolvable h c = false ->
     In (WarnNoToken (deviceId c) (envTokenKey c)) (console (io (boot h)))) /\
  posted (io (boot h)) = [] /\ routes (boot h) = ["/health"] /\
  listening (boot h) = Some (PORT h) /\ started (boot h) = false /\
  timers (boot h) = [] /\ clock (boot h) = 0%Z /\ tick_times (boot h) = [].
Proof.
  intros Hfile Hparse.
  unfold boot, top_level, main, bind, readFileSync, parse_registry, ret, throw,
    lift_io, console_write, app_get, app_listen.
  rewrite Hfile. cbv beta iota zeta. rewrite Hparse. cbv beta iota zeta.
  match goal with |- context [forEach configs (instantiate h) ?q] =>
    destruct (forEach_instantiate h configs q)
      as (p' & Hrun & Hcfg & (lines & Hcon & Hwarn) & Hpost & Hro & Hli & Hst & Hti & Hcl & Htt & Hcr)
  end.
  rewrite Hrun. cbv beta iota zeta.
  cbn in Hcfg, Hcon, Hpost, Hro, Hli, Hst, Hti, Hcl, Htt, Hcr |- *.
  rewrite Hcfg, Hcon, Hpost, Hro, Hst, Hti, Hcl, Htt, Hcr.
  repeat split; try reflexivity.
  intros c Hin Hc. apply in_app_iff. left. right. now apply Hwarn.
Qed.

Lemma boot_failed (h : Host) :
  files h !! configPath h = None \/
  (exists raw, files h !! configPath h = Some raw /\ JSON_parse h raw = None) ->
  boot h = with_crashed (crashed (boot h)) initial /\ crashed (boot h) <> None.
Proof.
  unfold boot, top_level, main, bind, readFileSync, parse_registry, ret, throw.
  intros [Hfile|(raw & Hfile & Hparse)]; rewrite Hfile; cbv beta iota zeta.
  - split; [reflexivity|discriminate].
  - rewrite Hparse. cbv beta iota zeta. split; [reflexivity|discriminate].
Qed.

(** * The event loop *)

Lemma on_listening_result (h : Host) (inputs : nat -> Inputs) (p : Process) :
  exists p', on_listening h inputs p = (Normal tt, p') /\
    map config (devices p') = map config (devices p) /\
    (exists lines, console (io p') = console (io p) ++ lines) /\
    routes p' = routes p /\ listening p' = listening p /\ started p' = started p /\
    timers p' = timers p ++ [{| delay := UPDATE_INTERVAL_MS; due := clock p + UPDATE_INTERVAL_MS |}] /\
    clock p' = clock p /\ tick_times p' = tick_times p ++ [clock p] /\ crashed p' = crashed p /\
    length (posted (io p')) = (length (posted (io p)) + length (devices p))%nat.
Proof.
  unfold on_listening, startSimulation, bind, lift_io, console_write.
  cbv beta iota zeta.
  match goal with |- context [tick h inputs ?q] =>
    destruct (tick_normal h inputs q)
      as (p' & Hrun & Hcfg & (lines & Hcon) & Hpost & Hro & Hli & Hst & Hti & Hcl & Htt & Hcr) end.
  rewrite Hrun. unfold setInterval. eexists. split; [reflexivity|].
  cbn in Hcfg, Hcon, Hpost, Hro, Hli, Hst, Hti, Hcl, Htt, Hcr |- *.
  rewrite Hcfg, Hro, Hli, Hst, Hti, Hcl, Htt, Hcr, Hpost. repeat split; try reflexivity.
  eexists. rewrite Hcon, <- app_assoc. reflexivity.
Qed.

Lemma fire_result (h : Host) (inputs : nat -> Inputs) (t : Timer) (p : Process) :
  exists p', fire h inputs t p = (Normal tt, p') /\
    map config (devices p') = map config (devices p) /\
    (exists lines, console (io p') = console (io p) ++ lines) /\
    routes p' = routes p /\ listening p' = listening p /\ started p' = started p /\
    timers p' = rearm t (timers p) /\
    clock p' = Z.max (clock p) (due t) /\
    tick_times p' = tick_times p ++ [Z.max (clock p) (due t)] /\ crashed p' = crashed p /\
    length (posted (io p')) = (length (posted (io p)) + length (devices p))%nat.
Proof.
  unfold fire.
  match goal with |- context [tick h inputs ?q] =>
    destruct (tick_normal h inputs q)
      as (p' & Hrun & Hcfg & Hcon & Hpost & Hro & Hli & Hst & Hti & Hcl & Htt & Hcr) end.
  rewrite Hrun. exists p'. split; [reflexivity|].
  cbn in Hcfg, Hcon, Hpost, Hro, Hli, Hst, Hti, Hcl, Htt, Hcr.
  repeat split; assumption.
Qed.

Ltac unchanged :=
  repeat split; try assumption; try reflexivity;
  try (exists []; now rewrite app_nil_r).

(** What no event changes: which devices there are, what was written to the
    console, and whether the process has crashed. *)
Lemma handle_stable (h : Host) (p : Process) (ev : Event) :
  map config (devices (handle h p ev)) = map config (devices p) /\
  (exists lines, console (io (handle h p ev)) = console (io p) ++ lines) /\
  crashed (handle h p ev) = crashed p.
Proof.
  unfold handle. destruct (crashed p) eqn:Hcr; [unchanged|].
  destruct ev as [t inputs|inputs|].
  - destruct (listening p); [|unchanged]. destruct (started p); [unchanged|].
    unfold top_level.
    destruct (on_listening_result h inputs (with_started true (at_time t p)))
      as (p' & Hrun & Hcfg & Hcon & _ & _ & _ & _ & _ & _ & Hcr' & _).
    rewrite Hrun. cbn in Hcfg, Hcon, Hcr'. rewrite Hcr'. auto.
  - destruct (earliest (timers p)) as [t|]; [|unchanged].
    unfold top_level.
    destruct (fire_result h inputs t p)
      as (p' & Hrun & Hcfg & Hcon & _ & _ & _ & _ & _ & _ & Hcr' & _).
    rewrite Hrun. rewrite Hcr'. auto.
  - unchanged.
Qed.

Lemma run_stable (h : Host) (events : list Event) :
  forall p : Process,
  map config (devices (foldl (handle h) p events)) = map config (devices p) /\
  (exists lines, console (io (foldl (handle h) p events)) = console (io p) ++ lines) /\
  crashed (foldl (handle h) p events) = crashed p.
Proof.
  induction events as [|ev rest IH]; intros p; cbn [foldl].
  - repeat split. exists []. now rewrite app_nil_r.
  - destruct (IH (handle h p ev)) as (Hcfg & (l2 & Hcon) & Hcr).
    destruct (handle_stable h p ev) as (Hcfg1 & (l1 & Hcon1) & Hcr1).
    rewrite Hcfg, Hcfg1, Hcr, Hcr1. repeat split.
    exists (l1 ++ l2). rewrite Hcon, Hcon1, <- app_assoc. reflexivity.
Qed.

Lemma run_crashed (h : Host) (events : list Event) :
  forall p : Process, crashed p <> None -> foldl (handle h) p events = p.
Proof.
  induction events as [|ev rest IH]; intros p Hcr; cbn [foldl]; [reflexivity|].
  assert (Hh : handle h p ev = p).
  { unfold handle. destruct (crashed p); [reflexivity|congruence]. }
  rewrite Hh. now apply IH.
Qed.

(** * The fleet *)

(** The variable that is read for a device: the ID as a template literal
    prints it. *)
Example envTokenKey_small :
  envTokenKey {| deviceId := 7; serial := "S7"; name := "Sensor7"; location := "Lab" |}
  = "TOKEN_DEVICE_7" /\
  envTokenKey config_minus3 = "TOKEN_DEVICE_-3".
Proof. split; reflexivity. Qed.

Example envTokenKey_large :
  envTokenKey {| deviceId := 2 ^ 53; serial := "S"; name := "N"; location := "L" |}
  = "TOKEN_DEVICE_9007199254740992" /\
  envTokenKey {| deviceId := 2 ^ 60; serial := "S"; name := "N"; location := "L" |}
  = "TOKEN_DEVICE_1152921504606847000" /\
  envTokenKey {| deviceId := 10 ^ 21; serial := "S"; name := "N"; location := "L" |}
  = "TOKEN_DEVICE_1e+21" /\
  envTokenKey {| deviceId := 2 ^ 70; serial := "S"; name := "N"; location := "L" |}
  = "TOKEN_DEVICE_1.1805916207174113e+21" /\
  envTokenKey {| deviceId := - 2 ^ 64; serial := "S"; name := "N"; location := "L" |}
  = "TOKEN_DEVICE_-18446744073709552000".
Proof. vm_compute. repeat split. Qed.

(** C6.  A registry entry whose [TOKEN_DEVICE_<N>] variable is absent never
    has a device in the fleet: after start-up and any sequence of events no
    device has its ID, the warning that names the ID is on the console, and
    [activeDevices] counts the entries whose token resolves, which it is not
    one of. *)
Theorem exclusion (h : Host) (raw : string) (configs : list DeviceConfig)
    (c : DeviceConfig) (events : list Event) :
  files h !! configPath h = Some raw -> JSON_parse h raw = Some configs ->
  In c configs -> env h !! envTokenKey c = None ->
  let p := run h events in
  (forall d, In d (devices p) -> deviceId (config d) <> deviceId c) /\
  In (WarnNoToken (deviceId c) (envTokenKey c)) (console (io p)) /\
  activeDevices (health p) = length (List.filter (resolvable h) configs) /\
  ~ In c (List.filter (resolvable h) configs).
Proof.
  intros Hfile Hparse Hin Henv p.
  destruct (boot_ok h raw configs Hfile Hparse) as (_ & Hcfg0 & Hwarn & _).
  destruct (run_stable h events (boot h)) as (Hcfg & (lines & Hcon) & _).
  fold (run h events) in Hcfg, Hcon. fold p in Hcfg, Hcon. rewrite Hcfg0 in Hcfg.
  assert (Hc : resolvable h c = false).
  { unfold resolvable, resolve_token. rewrite Henv. reflexivity. }
  repeat split.
  - intros d Hd Hid.
    assert (Hcd : In (config d) (List.filter (resolvable h) configs)).
    { rewrite <- Hcfg. apply in_map. exact Hd. }
    apply filter_In in Hcd. destruct Hcd as [_ Hres].
    unfold resolvable, resolve_token, envTokenKey in Hres, Henv.
    rewrite Hid, Henv in Hres. discriminate.
  - rewrite Hcon. apply in_app_iff. left. now apply Hwarn.
  - cbn [health activeDevices]. rewrite <- Hcfg. symmetry. apply length_map.
  - intros Hf. apply filter_In in Hf. destruct Hf as [_ Hres]. congruence.
Qed.

Lemma exclusion_witness :
  (forall d, In d (devices (run host7 [Listening 0 (fun _ => inputs_ok); HealthRequest])) ->
     deviceId (config d) <> 8%Z) /\
  In (WarnNoToken 8 "TOKEN_DEVICE_8")
     (console (io (run host7 [Listening 0 (fun _ => inputs_ok); HealthRequest]))) /\
  activeDevices (health (run host7 [Listening 0 (fun _ => inputs_ok); HealthRequest])) = 1%nat /\
  ~ In {| deviceId := 8; serial := "S8"; name := "Sensor8"; location := "Roof" |}
       (List.filter (resolvable host7)
          [ {| deviceId := 7; serial := "S7"; name := "Sensor7"; location := "Lab" |};
            {| deviceId := 8; serial := "S8"; name := "Sensor8"; location := "Roof" |} ]).
Proof.
  exact (exclusion host7 "[...]" _
           {| deviceId := 8; serial := "S8"; name := "Sensor8"; location := "Roof" |}
           [Listening 0 (fun _ => inputs_ok); HealthRequest]
           eq_refl eq_refl (or_intror (or_introl eq_refl)) eq_refl).
Defined.

(** C7.  When [devices.json] is missing, or is not JSON, the exception of
    line 115 or 116 reaches the top level: the process has crashed with no
    device constructed, no route registered, [app.listen] not called, no
    timer set and no tick run, and no later event changes that. *)
Theorem configuration_fatal (h : Host) (events : list Event) :
  files h !! configPath h = None \/
  (exists raw, files h !! configPath h = Some raw /\ JSON_parse h raw = None) ->
  let p := run h events in
  crashed p <> None /\ devices p = [] /\ routes p = [] /\ listening p = None /\
  started p = false /\ timers p = [] /\ tick_times p = [] /\
  posted (io p) = [] /\ console (io p) = [].
Proof.
  intros Hbad p. destruct (boot_failed h Hbad) as [Hboot Hcr].
  unfold p, run. rewrite (run_crashed h events (boot h) Hcr).
  split; [exact Hcr|]. rewrite Hboot. cbn. repeat split.
Qed.

Lemma configuration_fatal_witness :
  crashed (run host_bare [Listening 0 (fun _ => inputs_ok)]) <> None /\
  devices (run host_bare [Listening 0 (fun _ => inputs_ok)]) = [] /\
  routes (run host_bare [Listening 0 (fun _ => inputs_ok)]) = [] /\
  listening (run host_bare [Listening 0 (fun _ => inputs_ok)]) = None /\
  started (run host_bare [Listening 0 (fun _ => inputs_ok)]) = false /\
  timers (run host_bare [Listening 0 (fun _ => inputs_ok)]) = [] /\
  tick_times (run host_bare [Listening 0 (fun _ => inputs_ok)]) = [] /\
  posted (io (run host_bare [Listening 0 (fun _ => inputs_ok)])) = [] /\
  console (io (run host_bare [Listening 0 (fun _ => inputs_ok)])) = [].
Proof.
  exact (configuration_fatal host_bare [Listening 0 (fun _ => inputs_ok)]
           (or_introl eq_refl)).
Defined.

(** * The schedule *)

Lemma seq_shift_map (f : nat -> Z) (n : nat) :
  map f (seq 1 n) = map (fun k => f (S k)) (seq 0 n).
Proof. rewrite <- seq_shift, map_map. reflexivity. Qed.

Lemma run_until_ticks (h : Host) (inputs : nat -> nat -> Inputs) (T : Z) (fuel : nat) :
  forall (p : Process) (d : Z),
  crashed p = None -> timers p = [{| delay := 2000; due := d |}] ->
  (clock p <= d)%Z -> (T - d < 2000 * Z.of_nat fuel)%Z ->
  let q := run_until h inputs fuel T p in
  tick_times q = tick_times p ++
    map (fun k => d + 2000 * Z.of_nat k)%Z (seq 0 (Z.to_nat ((T - d + 2000) / 2000))) /\
  length (devices q) = length (devices p) /\
  (length (posted (io q)) + length (tick_times p) * length (devices p)
   = length (posted (io p)) + length (tick_times q) * length (devices p))%nat.
Proof.
  induction fuel as [|fuel IH]; intros p d Hcr Htm Hclk Hfuel; cbn [run_until].
  - assert (Hq : ((T - d + 2000) / 2000 <= 0)%Z).
    { assert ((T - d + 2000) / 2000 < 1)%Z; [|lia]. apply Z.div_lt_upper_bound; lia. }
    replace (Z.to_nat ((T - d + 2000) / 2000)) with 0%nat by lia.
    cbn. rewrite app_nil_r. repeat split.
  - rewrite Htm. cbn [earliest foldl due].
    destruct (d <=? T)%Z eqn:Hdue.
    + apply Z.leb_le in Hdue.
      unfold handle. rewrite Hcr, Htm. cbn [earliest foldl]. unfold top_level.
      destruct (fire_result h (inputs (length (tick_times p))) {| delay := 2000; due := d |} p)
        as (p' & Hrun & Hcfg & _ & _ & _ & _ & Htm' & Hclk' & Htt' & Hcr' & Hpost).
      rewrite Hrun.
      rewrite Htm in Htm'. cbn [rearm due delay] in Htm'. rewrite !Z.eqb_refl in Htm'.
      cbn [andb] in Htm'. cbn [due] in Hclk', Htt'.
      replace (Z.max (clock p) d) with d in Hclk', Htt' by lia.
      rewrite Hcr in Hcr'.
      destruct (IH p' (d + 2000)%Z Hcr' Htm' ltac:(lia) ltac:(lia)) as (Hticks & Hlen & Hposted).
      assert (Hlen' : length (devices p') = length (devices p)).
      { rewrite <- (length_map config (devices p')), Hcfg. apply length_map. }
      cbv zeta. split; [|split].
      * rewrite Hticks, Htt', <- app_assoc. f_equal.
        replace (T - (d + 2000) + 2000)%Z with (T - d)%Z by lia.
        replace (Z.to_nat ((T - d + 2000) / 2000))
          with (S (Z.to_nat ((T - d) / 2000))).
        2:{ replace (T - d + 2000)%Z with (T - d + 1 * 2000)%Z by lia.
            rewrite Z.div_add by lia.
            pose proof (Z.div_pos (T - d) 2000 ltac:(lia) ltac:(lia)). lia. }
        cbn [seq map app]. f_equal; [lia|].
        rewrite seq_shift_map. apply map_ext. intros k. lia.
      * rewrite Hlen. exact Hlen'.
      * rewrite Hlen' in Hposted. rewrite Htt', length_app in Hposted. cbn [length] in Hposted.
        lia.
    + apply Z.leb_gt in Hdue.
      assert (Hq : ((T - d + 2000) / 2000 <= 0)%Z).
      { assert ((T - d + 2000) / 2000 < 1)%Z; [|lia]. apply Z.div_lt_upper_bound; lia. }
      replace (Z.to_nat ((T - d + 2000) / 2000)) with 0%nat by lia.
      cbn. rewrite app_nil_r. repeat split.
Qed.

(** C9.  When the server is up, at [t0], the fleet tick runs once and one
    interval timer of [UPDATE_INTERVAL_MS], 2000 ms, is set; by any later
    time [T] the ticks have run at [t0], [t0 + 2000], [t0 + 4000], ..., one
    for every period elapsed, and each has posted once for every device. *)
Theorem cadence (h : Host) (raw : string) (configs : list DeviceConfig)
    (inputs : nat -> nat -> Inputs) (t0 T : Z) (fuel : nat) :
  files h !! configPath h = Some raw -> JSON_parse h raw = Some configs ->
  (0 <= t0 <= T)%Z -> ((T - t0) / 2000 < Z.of_nat fuel)%Z ->
  let p1 := run h [Listening t0 (inputs 0%nat)] in
  let pT := run_until h inputs fuel T p1 in
  UPDATE_INTERVAL_MS = 2000%Z /\
  tick_times p1 = [t0] /\
  timers p1 = [{| delay := UPDATE_INTERVAL_MS; due := (t0 + UPDATE_INTERVAL_MS)%Z |}] /\
  tick_times pT =
    map (fun k => t0 + UPDATE_INTERVAL_MS * Z.of_nat k)%Z
        (seq 0 (S (Z.to_nat ((T - t0) / UPDATE_INTERVAL_MS)))) /\
  length (posted (io pT)) = (length (tick_times pT) * length (devices (boot h)))%nat.
Proof.
  intros Hfile Hparse Ht Hfuel p1 pT.
  destruct (boot_ok h raw configs Hfile Hparse)
    as (Hcr & _ & _ & Hpost & _ & Hli & Hst & Htm & Hclk & Htt).
  assert (Hp1 : exists q, p1 = q /\ crashed q = None /\ tick_times q = [t0] /\
                  timers q = [{| delay := 2000; due := (t0 + 2000)%Z |}] /\
                  clock q = t0 /\ length (devices q) = length (devices (boot h)) /\
                  length (posted (io q)) = length (devices (boot h))).
  { unfold p1, run. cbn [foldl]. unfold handle. rewrite Hcr, Hli, Hst. unfold top_level.
    destruct (on_listening_result h (inputs 0%nat) (with_started true (at_time t0 (boot h))))
      as (q & Hrun & Hcfg & _ & _ & _ & _ & Htm' & Hclk' & Htt' & Hcr' & Hposted).
    rewrite Hrun. exists q. split; [reflexivity|].
    cbn in Hcfg, Htm', Hclk', Htt', Hcr', Hposted.
    rewrite Htm, Hclk, Htt, ?Hcr, ?Hpost in *. cbn in Hposted, Htm', Htt'.
    replace (Z.max 0 t0) with t0 in * by lia.
    repeat split; try assumption.
    rewrite <- !(length_map config). f_equal. exact Hcfg. }
  destruct Hp1 as (q & Hq & Hqcr & Hqtt & Hqtm & Hqclk & Hqlen & Hqpost).
  split; [reflexivity|]. split; [rewrite Hq; exact Hqtt|].
  split; [rewrite Hq; exact Hqtm|].
  destruct (run_until_ticks h inputs T fuel q (t0 + 2000)%Z Hqcr Hqtm ltac:(lia))
    as (Hticks & Hlen & Hposted).
  { assert (T - t0 < 2000 * ((T - t0) / 2000 + 1))%Z; [|lia].
    pose proof (Z.mod_pos_bound (T - t0) 2000 ltac:(lia)).
    pose proof (Z.div_mod (T - t0) 2000 ltac:(lia)). lia. }
  unfold pT. rewrite Hq. unfold UPDATE_INTERVAL_MS. split.
  - rewrite Hticks, Hqtt.
    replace (T - (t0 + 2000) + 2000)%Z with (T - t0)%Z by lia.
    cbn [seq map app]. f_equal; [lia|].
    rewrite seq_shift_map. apply map_ext. intros k. lia.
  - rewrite Hqtt, Hqlen, Hqpost in Hposted. cbn [length] in Hposted. lia.
Qed.

Lemma cadence_witness :
  UPDATE_INTERVAL_MS = 2000%Z /\
  tick_times (run host7 [Listening 5 inputs_ok_all]) = [5%Z] /\
  timers (run host7 [Listening 5 inputs_ok_all])
    = [{| delay := UPDATE_INTERVAL_MS; due := (5 + UPDATE_INTERVAL_MS)%Z |}] /\
  tick_times (run_until host7 (fun _ => inputs_ok_all) 4 6004 (run host7 [Listening 5 inputs_ok_all]))
    = map (fun k => 5 + UPDATE_INTERVAL_MS * Z.of_nat k)%Z
          (seq 0 (S (Z.to_nat ((6004 - 5) / UPDATE_INTERVAL_MS)))) /\
  length (posted (io (run_until host7 (fun _ => inputs_ok_all) 4 6004
                        (run host7 [Listening 5 inputs_ok_all]))))
    = (length (tick_times (run_until host7 (fun _ => inputs_ok_all) 4 6004
                             (run host7 [Listening 5 inputs_ok_all])))
       * length (devices (boot host7)))%nat.
Proof.
  apply (cadence host7 "[...]" _ (fun _ => inputs_ok_all) 5 6004 4 eq_refl eq_refl);
    [lia|reflexivity].
Defined.

(** * Further properties of the generator *)

Section GeneratorMore.
Local Open Scope Q_scope.

(** ** Addition, and the gap below a binary64 number *)

Lemma SFadd_bound (x y : spec_float) (k : Z) :
  SFfinite x = true -> SFfinite y = true ->
  - bpow k < SF2Q x + SF2Q y < bpow k -> (-1021 <= k <= 971)%Z ->
  SFfinite (SFadd prec emax x y) = true /\
  SF2Q x + SF2Q y - bpow (k - 54) <= SF2Q (SFadd prec emax x y)
    <= SF2Q x + SF2Q y + bpow (k - 54).
Proof.
  intros Fx Fy Hx Hk. pose proof (bpow_pos (k - 54)) as Hp.
  destruct x as [sx| |  |sx mx ex]; try discriminate Fx;
  destruct y as [sy| |  |sy my ey]; try discriminate Fy.
  - assert (Hz : SFfinite (SFadd prec emax (S754_zero sx) (S754_zero sy)) = true /\
                 SF2Q (SFadd prec emax (S754_zero sx) (S754_zero sy)) == 0).
    { destruct sx, sy; split; reflexivity. }
    destruct Hz as [Hf Hv]. split; [exact Hf|]. rewrite Hv. cbn [SF2Q]. split; lra.
  - cbn [SFadd]. split; [reflexivity|].
    change (SF2Q (S754_zero sx)) with 0. split; lra.
  - cbn [SFadd]. split; [reflexivity|].
    change (SF2Q (S754_zero sy)) with 0. split; lra.
  - cbn [SFadd].
    set (ez := Z.min ex ey).
    set (D := (cond_Zopp sx (Zpos (fst (shl_align mx ex ez)))
               + cond_Zopp sy (Zpos (fst (shl_align my ey ez))))%Z).
    assert (HD : inject_Z D * bpow ez
                 == SF2Q (S754_finite sx mx ex) + SF2Q (S754_finite sy my ey)).
    { unfold D. rewrite inject_Z_plus.
      rewrite <- (aligned_value sx mx ex ez), <- (aligned_value sy my ey ez) by (unfold ez; lia).
      ring. }
    rewrite <- HD in Hx |- *. apply binary_normalize_bound; assumption.
Qed.

Lemma add_bound (x y : float) (k : Z) :
  finiteF x = true -> finiteF y = true ->
  - bpow k < F2Q x + F2Q y < bpow k -> (-1021 <= k <= 971)%Z ->
  finiteF (x + y) = true /\
  F2Q x + F2Q y - bpow (k - 54) <= F2Q (x + y) <= F2Q x + F2Q y + bpow (k - 54).
Proof. unfold finiteF, F2Q. rewrite add_spec. apply SFadd_bound. Qed.

(** A valid number below the normal number [M * 2 ^ E] is at most the
    number before it, [(M - 1) * 2 ^ E]. *)
Lemma SF_gap_below (y : spec_float) (M : positive) (E : Z) :
  valid_binary y = true -> bounded prec emax M E = true -> (2 ^ 52 < Zpos M)%Z ->
  SF2Q y < inject_Z (Zpos M) * bpow E ->
  SF2Q y <= inject_Z (Zpos M - 1) * bpow E.
Proof.
  intros Vy Vc HM Hlt. pose proof (bpow_pos E) as HpE.
  assert (HM1 : 4503599627370496 <= inject_Z (Zpos M - 1)).
  { apply (inject_Z_le (2 ^ 52) (Zpos M - 1)). lia. }
  assert (Hc0 : 0 <= inject_Z (Zpos M - 1) * bpow E).
  { apply Qmult_le_0_compat; lra. }
  destruct y as [s|s| |s m e]; cbn [SF2Q] in *; try lra.
  destruct s; cbn [cond_Zopp] in *.
  { assert (0 < inject_Z (Zpos m) * bpow e).
    { apply Qmult_lt_0_compat; [reflexivity|apply bpow_pos]. }
    change (Z.opp (Zpos m)) with (- Zpos m)%Z. rewrite inject_Z_opp.
    setoid_replace (- inject_Z (Zpos m) * bpow e)
      with (- (inject_Z (Zpos m) * bpow e)) using relation Qeq by ring.
    lra. }
  cbn [valid_binary] in Vy.
  destruct (Z.compare_spec e E) as [Heq|Hlo|Hhi].
  - subst e. apply Qmult_le_compat_r; [|lra].
    apply inject_Z_le. assert (Zpos m < Zpos M)%Z; [|lia].
    apply inject_Z_lt. apply (Qmult_lt_r _ _ (bpow E) HpE). exact Hlt.
  - destruct (bounded_inv m e Vy) as (Hm & _ & _).
    rewrite Zlt_Qlt in Hm.
    assert (H53 : inject_Z (2 ^ 53) == 2 * 4503599627370496) by reflexivity.
    rewrite H53 in Hm.
    pose proof (bpow_le (e + 1) E ltac:(lia)) as Hb.
    rewrite bpow_add in Hb. change (bpow 1) with 2 in Hb.
    pose proof (bpow_pos e) as Hpe.
    apply Qle_trans with (4503599627370496 * bpow E).
    + apply Qle_trans with (2 * 4503599627370496 * bpow e).
      * apply Qmult_le_compat_r; lra.
      * setoid_replace (2 * 4503599627370496 * bpow e)
          with (4503599627370496 * (bpow e * 2)) using relation Qeq by ring.
        apply Qmult_le_l; [reflexivity|exact Hb].
    + apply Qmult_le_compat_r; lra.
  - pose proof (bounded_lt_exp M m E e Vc Vy Hhi). lra.
Qed.

Lemma gap_below (y : float) (M : positive) (E : Z) :
  bounded prec emax M E = true -> (2 ^ 52 < Zpos M)%Z ->
  F2Q y < inject_Z (Zpos M) * bpow E ->
  F2Q y <= inject_Z (Zpos M - 1) * bpow E.
Proof. intros Vc HM. apply SF_gap_below; [apply Prim2SF_valid|exact Vc|exact HM]. Qed.

(** ** The variance factor *)

(** The exact value of the factor lies between those of the binary64
    numbers 0.8 and 1.2. *)
Lemma variance_value (r : float) :
  (0 <=? r)%float = true -> (r <? 1)%float = true ->
  finiteF (variance r) = true /\
  F2Q 0.8 <= F2Q (variance r) /\ F2Q (variance r) <= F2Q 1.2.
Proof.
  intros Hlo Hhi. unfold variance.
  assert (Hf : finiteF r = true) by (apply (between_finite 0 r 1); auto).
  apply (leb_F2Q 0 r eq_refl Hf) in Hlo. apply (ltb_F2Q r 1 Hf eq_refl) in Hhi.
  change (F2Q 0) with 0 in Hlo. assert (H1 : F2Q 1 == 1) by reflexivity. rewrite H1 in Hhi.
  pose proof (SF_below_one (Prim2SF r) (Prim2SF_valid r) Hhi) as Hgap. fold (F2Q r) in Hgap.
  assert (H53 : bpow (-53) == 1 # 9007199254740992) by reflexivity. rewrite H53 in Hgap.
  assert (H04 : F2Q 0.4 == 7205759403792794 # 18014398509481984)
    by (vm_compute; reflexivity).
  (* the product *)
  destruct (mul_bound r 0.4 (-1)) as (Hfx & _ & Hhix); [exact Hf|reflexivity| |lia|].
  { rewrite H04. change (bpow (-1)) with (1 # 2). split; lra. }
  pose proof (mul_nonneg r 0.4 Hf eq_refl Hlo ltac:(rewrite H04; lra)) as Hx0.
  rewrite H04 in Hhix.
  assert (H55 : bpow (-1 - 54) == 1 # 36028797018963968) by reflexivity.
  rewrite H55 in Hhix.
  set (x := (r * 0.4)%float) in *.
  assert (Hxlt : F2Q x < inject_Z 7205759403792794 * bpow (-54)).
  { assert (Hc : inject_Z 7205759403792794 * bpow (-54)
                 == 7205759403792794 # 18014398509481984) by reflexivity.
    rewrite Hc. lra. }
  apply (gap_below x 7205759403792794 (-54) eq_refl ltac:(lia)) in Hxlt.
  assert (Hc1 : inject_Z (7205759403792794 - 1) * bpow (-54)
                == 7205759403792793 # 18014398509481984) by reflexivity.
  rewrite Hc1 in Hxlt.
  (* the sum *)
  destruct (add_bound 0.8 x 1) as (Hfs & Hlos & His); [reflexivity|exact Hfx| |lia|].
  { rewrite F2Q_low. change (bpow 1) with 2. split; lra. }
  rewrite F2Q_low in Hlos, His.
  assert (Hb53 : bpow (1 - 54) == 1 # 9007199254740992) by reflexivity.
  rewrite Hb53 in Hlos, His.
  set (v := (0.8 + x)%float) in *.
  split; [exact Hfs|]. split.
  - rewrite F2Q_low.
    destruct (Qlt_le_dec (F2Q v) (7205759403792794 # 9007199254740992)) as [Hbelow|Hok];
      [exfalso|exact Hok].
    assert (Hbelow' : F2Q v < inject_Z 7205759403792794 * bpow (-53)).
    { assert (Hc : inject_Z 7205759403792794 * bpow (-53)
                   == 7205759403792794 # 9007199254740992) by reflexivity.
      rewrite Hc. exact Hbelow. }
    apply (gap_below v 7205759403792794 (-53) eq_refl ltac:(lia)) in Hbelow'.
    assert (Hc2 : inject_Z (7205759403792794 - 1) * bpow (-53)
                  == 7205759403792793 # 9007199254740992) by reflexivity.
    rewrite Hc2 in Hbelow'.
    destruct (Qlt_le_dec ((7205759403792794 # 9007199254740992) + F2Q x) 1) as [Hs|Hs].
    + (* a sum below one is rounded by at most [2 ^ -54] *)
      destruct (add_bound 0.8 x 0) as (_ & Hlo0 & _); [reflexivity|exact Hfx| |lia|].
      { rewrite F2Q_low. change (bpow 0) with 1. split; lra. }
      rewrite F2Q_low in Hlo0. fold v in Hlo0.
      assert (Hb54 : bpow (0 - 54) == 1 # 18014398509481984) by reflexivity.
      rewrite Hb54 in Hlo0. lra.
    + lra.
  - rewrite F2Q_high.
    assert (Hup : F2Q v < inject_Z 5404319552844596 * bpow (-52)).
    { assert (Hc : inject_Z 5404319552844596 * bpow (-52)
                   == 5404319552844596 # 4503599627370496) by reflexivity.
      rewrite Hc. lra. }
    apply (gap_below v 5404319552844596 (-52) eq_refl ltac:(lia)) in Hup.
    assert (Hc3 : inject_Z (5404319552844596 - 1) * bpow (-52)
                  == 5404319552844595 # 4503599627370496) by reflexivity.
    rewrite Hc3 in Hup. exact Hup.
Qed.

(** X1.  For every draw in [[0, 1)] the variance factor
    [0.8 + Math.random() * 0.4] is at least 0.8 and at most 1.2, as binary64
    numbers. *)
Theorem variance_range (r : float) :
  (0 <=? r)%float = true -> (r <? 1)%float = true ->
  (0.8 <=? variance r)%float = true /\ (variance r <=? 1.2)%float = true.
Proof.
  intros Hlo Hhi. destruct (variance_value r Hlo Hhi) as (Hf & Hl & Hu). split.
  - apply (leb_F2Q 0.8 (variance r) eq_refl Hf). exact Hl.
  - apply (leb_F2Q (variance r) 1.2 Hf eq_refl). exact Hu.
Qed.

Lemma variance_range_witness :
  (0.8 <=? variance 0.5)%float = true /\ (variance 0.5 <=? 1.2)%float = true.
Proof. apply (variance_range 0.5); reflexivity. Defined.

(** ** Readings from the draws *)

(** [reading_within] with the upper end included: the factor can be 1.2. *)
Lemma reading_within_closed (base : Z) (v : float) :
  (11 <= base <= 54)%Z ->
  (0.8 <=? v)%float = true -> (v <=? 1.2)%float = true ->
  let t := parseFloat (toFixed1 (Z2F base * v)) in
  (exists n : Z, (8 * base <= n <= 12 * base)%Z /\ t = parseFloat (Tenths false n)) /\
  finiteF t = true /\
  (4 # 5) * inject_Z base - (1 # 20) <= F2Q t <= (6 # 5) * inject_Z base + (1 # 20).
Proof.
  intros Hbase Hlo Hhi t.
  assert (Hfv : finiteF v = true) by (apply (between_finite 0.8 v 1.2); auto).
  apply (leb_F2Q 0.8 v eq_refl Hfv) in Hlo. apply (leb_F2Q v 1.2 Hfv eq_refl) in Hhi.
  rewrite F2Q_low in Hlo. rewrite F2Q_high in Hhi.
  destruct (Z2F_small base ltac:(lia)) as [Hfb Hvb].
  assert (HB : 11 <= inject_Z base <= 54).
  { split; [apply (inject_Z_le 11 base)|apply (inject_Z_le base 54)]; lia. }
  set (B := inject_Z base) in *. set (W := F2Q v) in *.
  assert (HPlo : B * (7205759403792794 # 9007199254740992) <= B * W).
  { apply Qmult_le_l; lra. }
  assert (HPhi : B * W <= B * (5404319552844595 # 4503599627370496)).
  { apply Qmult_le_l; lra. }
  destruct (mul_bound (Z2F base) v 7) as (Hfx & Hlox & Hhix); [exact Hfb|exact Hfv| |lia|].
  { rewrite Hvb. fold B W. change (bpow 7) with 128. split; lra. }
  rewrite Hvb in Hlox, Hhix. fold B W in Hlox, Hhix.
  assert (H47 : bpow (7 - 54) == 1 # 140737488355328) by reflexivity.
  rewrite H47 in Hlox, Hhix.
  set (x := (Z2F base * v)%float) in *.
  assert (Hxlo : (4 # 5) * B - (1 # 100000000000) <= F2Q x) by lra.
  assert (Hxhi : F2Q x <= (6 # 5) * B + (1 # 100000000000)) by lra.
  clear Hlox Hhix HPlo HPhi.
  (* the text of [x.toFixed(1)] *)
  assert (Htext : toFixed1 x = Tenths false (Qfloor (10 * F2Q x + (1 # 2)))).
  { unfold toFixed1. unfold F2Q in Hxlo, Hxhi. unfold finiteF in Hfx.
    pose proof (Prim2SF_valid x) as Hvalid.
    destruct (Prim2SF x) as [s|s| |s m e] eqn:Hsf; try discriminate Hfx.
    - cbn [SF2Q] in Hxlo. lra.
    - pose proof (SF2Q_nonneg_sign s m e ltac:(lra)) as Hs. subst s.
      assert (He : (e <? -3)%Z = true).
      { apply Z.ltb_lt. destruct (Z_lt_le_dec e (-3)) as [H|H]; [exact H|exfalso].
        cbn [valid_binary] in Hvalid.
        destruct (bounded_inv m e Hvalid) as (_ & _ & Hm). specialize (Hm ltac:(lia)).
        rewrite Zle_Qle in Hm. pose proof (bpow_le (-3) e H) as Hb.
        assert (H3 : bpow (-3) == 1 # 8) by reflexivity. rewrite H3 in Hb.
        assert (H52 : inject_Z (2 ^ 52) == 4503599627370496) by reflexivity.
        rewrite H52 in Hm. cbn [SF2Q cond_Zopp] in Hxhi.
        assert (4503599627370496 * (1 # 8) <= inject_Z (Zpos m) * bpow e).
        { apply Qmult_le_compat_nonneg; split; lra. }
        lra. }
      rewrite He. f_equal. apply Qfloor_comp.
      unfold F2Q. rewrite Hsf. rewrite Qabs_pos by lra. reflexivity. }
  set (n := Qfloor (10 * F2Q x + (1 # 2))) in *.
  assert (Hn : (8 * base <= n <= 12 * base)%Z).
  { split.
    - replace (8 * base)%Z with (Qfloor (inject_Z (8 * base))) by apply Qfloor_Z.
      apply Qfloor_resp_le. rewrite inject_Z_mult. fold B. change (inject_Z 8) with 8. lra.
    - assert (n < 12 * base + 1)%Z; [|lia].
      rewrite Zlt_Qlt. apply Qle_lt_trans with (10 * F2Q x + (1 # 2)); [apply Qfloor_le|].
      rewrite inject_Z_plus, inject_Z_mult. fold B.
      change (inject_Z 12) with 12. change (inject_Z 1) with 1. lra. }
  destruct (parseFloat_tenths n ltac:(lia)) as (Hft & Htlo & Hthi).
  assert (Hnq : 8 * B <= inject_Z n <= 12 * B).
  { destruct Hn as [Hn1 Hn2]. rewrite Zle_Qle in Hn1, Hn2.
    rewrite inject_Z_mult in Hn1, Hn2. fold B in Hn1, Hn2.
    change (inject_Z 8) with 8 in Hn1. change (inject_Z 12) with 12 in Hn2. split; lra. }
  unfold t. rewrite Htext. split; [exists n; split; [exact Hn|reflexivity]|].
  split; [exact Hft|].
  assert (Hdiv : inject_Z n / 10 == inject_Z n * (1 # 10)) by (unfold Qdiv; reflexivity).
  rewrite Hdiv in Htlo, Hthi. split; lra.
Qed.

(** X2.  For every device reachable from the constructor and every pair of
    draws in [[0, 1)], the temperature and the humidity of the payload are
    one-decimal numerals [n / 10] with [0.8 * base <= n / 10 <= 1.2 * base],
    within 0.05 of that interval as binary64 numbers. *)
Theorem reading_range_draws (c : DeviceConfig) (tok : string) (r0 : float)
    (history : list (float * float * string)) (r1 r2 : float) (now : string) :
  let this := calls (new_SimulatedDevice c tok r0) history in
  let data := fst (generateTelemetry this r1 r2 now) in
  (0 <=? r1)%float = true -> (r1 <? 1)%float = true ->
  (0 <=? r2)%float = true -> (r2 <? 1)%float = true ->
  ((4 # 5) * inject_Z (baseTemp this) - (1 # 20) <= F2Q (temperature data)
     <= (6 # 5) * inject_Z (baseTemp this) + (1 # 20)) /\
  ((4 # 5) * inject_Z (baseHum this) - (1 # 20) <= F2Q (humidity data)
     <= (6 # 5) * inject_Z (baseHum this) + (1 # 20)) /\
  (exists n : Z, (8 * baseTemp this <= n <= 12 * baseTemp this)%Z /\
                 temperature data = parseFloat (Tenths false n)) /\
  (exists n : Z, (8 * baseHum this <= n <= 12 * baseHum this)%Z /\
                 humidity data = parseFloat (Tenths false n)).
Proof.
  intros this data H1lo H1hi H2lo H2hi.
  destruct (variance_value r1 H1lo H1hi) as (F1 & L1 & U1).
  destruct (variance_value r2 H2lo H2hi) as (F2 & L2 & U2).
  apply (leb_F2Q 0.8 (variance r1) eq_refl F1) in L1.
  apply (leb_F2Q (variance r1) 1.2 F1 eq_refl) in U1.
  apply (leb_F2Q 0.8 (variance r2) eq_refl F2) in L2.
  apply (leb_F2Q (variance r2) 1.2 F2 eq_refl) in U2.
  rename L1 into V1lo, U1 into V1hi, L2 into V2lo, U2 into V2hi.
  destruct (calls_frame history (new_SimulatedDevice c tok r0)) as (_ & _ & Hbt & Hbh).
  fold this in Hbt, Hbh.
  destruct (base_ranges c tok r0) as [Ht Hh]. rewrite <- Hbt in Ht. rewrite <- Hbh in Hh.
  destruct (reading_within_closed (baseTemp this) (variance r1) ltac:(lia) V1lo V1hi)
    as (Hn1 & _ & Hq1).
  destruct (reading_within_closed (baseHum this) (variance r2) ltac:(lia) V2lo V2hi)
    as (Hn2 & _ & Hq2).
  unfold data. cbn [generateTelemetry fst temperature humidity]. auto.
Qed.

Lemma reading_range_draws_witness :
  ((4 # 5) * inject_Z 27 - (1 # 20)
     <= F2Q (temperature (fst (generateTelemetry device7 0.5 0.25 "t")))
     <= (6 # 5) * inject_Z 27 + (1 # 20)) /\
  ((4 # 5) * inject_Z 47 - (1 # 20)
     <= F2Q (humidity (fst (generateTelemetry device7 0.5 0.25 "t")))
     <= (6 # 5) * inject_Z 47 + (1 # 20)) /\
  (exists n : Z, (8 * 27 <= n <= 12 * 27)%Z /\
     temperature (fst (generateTelemetry device7 0.5 0.25 "t")) = parseFloat (Tenths false n)) /\
  (exists n : Z, (8 * 47 <= n <= 12 * 47)%Z /\
     humidity (fst (generateTelemetry device7 0.5 0.25 "t")) = parseFloat (Tenths false n)).
Proof.
  exact (reading_range_draws (config device7) "abc123" 0 [] 0.5 0.25 "t"
           eq_refl eq_refl eq_refl eq_refl).
Defined.

(** ** The battery between two resets *)

(** A positive integer at an exponent that a valid number can have does not
    round to zero. *)
Lemma binary_round_pos (m : positive) (e : Z) :
  (-1074 <= e)%Z ->
  SFltb (S754_zero false) (binary_round prec emax false m e) = true.
Proof.
  intros He. unfold binary_round.
  set (f := fexp (Zpos (digits2_pos m) + e)).
  destruct (shl_align_spec m e f) as [Hez Hmz].
  destruct (shl_align m e f) as [mz ez]. cbn [fst snd] in Hez, Hmz.
  assert (Hf : (-1074 <= f)%Z) by (unfold f; rewrite fexp_eq; lia).
  assert (Hn : (0 <= e - ez)%Z) by lia. rewrite <- Hez in Hmz.
  pose proof (digits2_pos_shift m mz (e - ez) Hn Hmz) as Hdig.
  destruct (binary_round_aux_spec false mz ez) as (m2 & Hm2 & Herr & Hex & Hres).
  rewrite Hdig in Herr, Hex, Hres.
  replace (Zpos (digits2_pos m) + (e - ez) + ez)%Z
    with (Zpos (digits2_pos m) + e)%Z in Herr, Hex, Hres by lia.
  fold f in Herr, Hex, Hres.
  assert (Hpos : (0 < m2)%Z).
  { destruct (Z.eq_dec (Z.max ez f) ez) as [Heq|Hne]; [rewrite (Hex Heq); lia|].
    (* a real shift: [ez = e < f] and [mz = m] *)
    assert (Hlt : (e < f)%Z) by lia.
    replace ez with e in * by lia. replace (Z.max e f) with f in * by lia.
    rewrite Z.sub_diag in Hmz. change (2 ^ 0)%Z with 1%Z in Hmz. rewrite Z.mul_1_r in Hmz.
    injection Hmz as ->.
    destruct (Z.eq_dec m2 0) as [Hz|Hz]; [exfalso|lia]. subst m2.
    pose proof (digits2_pos_bounds m) as [Hlo _].
    set (d := Zpos (digits2_pos m)) in *.
    assert (Hd : (1 <= d)%Z) by (unfold d; lia).
    assert (H2 : (2 ^ d <= 2 ^ (f - e))%Z).
    { replace d with (Z.succ (d - 1)) at 1 by lia. rewrite Z.pow_succ_r by lia. lia. }
    assert (Hdn : (d <= f - e)%Z).
    { apply (Z.pow_le_mono_r_iff 2); lia. }
    unfold f in Hdn. rewrite fexp_eq in Hdn. fold d in Hdn. lia. }
  destruct Hres as [Hz|p e2 _ _ _|_ _]; [lia|reflexivity|reflexivity].
Qed.

(** Subtracting a positive number from a larger one gives a result that
    compares [> 0]. *)
Lemma SFsub_gt_zero (x : spec_float) (m : positive) (e : Z) :
  valid_binary x = true -> bounded prec emax m e = true ->
  SFltb (S754_finite false m e) x = true ->
  SFltb (S754_zero false) (SFsub prec emax x (S754_finite false m e)) = true.
Proof.
  intros Vx Vy Hlt.
  destruct x as [sx|sx| |sx mx ex].
  - discriminate.
  - destruct sx; [discriminate|reflexivity].
  - discriminate.
  - unfold SFltb in Hlt.
    rewrite (SFcompare_Q (S754_finite false m e) (S754_finite sx mx ex) Vy Vx eq_refl eq_refl)
      in Hlt.
    assert (Hq : SF2Q (S754_finite false m e) < SF2Q (S754_finite sx mx ex)).
    { destruct (Qcompare_spec (SF2Q (S754_finite false m e)) (SF2Q (S754_finite sx mx ex)))
        as [H|H|H]; try discriminate; lra. }
    cbn [SFsub].
    set (ez := Z.min ex e).
    set (D := (cond_Zopp sx (Zpos (fst (shl_align mx ex ez)))
               - cond_Zopp false (Zpos (fst (shl_align m e ez))))%Z).
    assert (HD : inject_Z D * bpow ez
                 == SF2Q (S754_finite sx mx ex) - SF2Q (S754_finite false m e)).
    { unfold D. rewrite inject_Z_sub.
      rewrite <- (aligned_value sx mx ex ez), <- (aligned_value false m e ez) by (unfold ez; lia).
      ring. }
    assert (HD0 : (0 < D)%Z).
    { destruct (Z_lt_le_dec 0 D) as [H|H]; [exact H|exfalso].
      assert (inject_Z D * bpow ez <= 0); [|lra].
      pose proof (bpow_pos ez).
      setoid_replace (inject_Z D * bpow ez) with (- (inject_Z (- D) * bpow ez))
        using relation Qeq by (rewrite inject_Z_opp; ring).
      assert (0 <= inject_Z (- D) * bpow ez); [|lra].
      apply Qmult_le_0_compat; [apply (inject_Z_le 0 (- D)); lia|lra]. }
    cbn [valid_binary] in Vx.
    destruct (bounded_inv mx ex Vx) as (_ & Hex & _).
    destruct (bounded_inv m e Vy) as (_ & He & _).
    clearbody D. destruct D as [|p|p]; try lia.
    cbn [binary_normalize]. apply binary_round_pos. unfold ez. lia.
Qed.

(** One call that does not reset. *)
Lemma drain_step_bound (b : float) :
  battery_before b -> (b - 0.35 <=? 0)%float = false ->
  battery_after (b - 0.35) /\
  F2Q b - least_drain - (2 # 140737488355328) <= F2Q (b - 0.35) <= F2Q b - least_drain.
Proof.
  intros (Hf & Hlo & Hhi) Hreset. unfold least_drain.
  destruct (sub_bound b 0.35 7) as (Hf1 & Hlo1 & Hhi1); [exact Hf|reflexivity| |lia|].
  { rewrite F2Q_drain. change (bpow 7) with 128. split; lra. }
  rewrite F2Q_drain in Hlo1, Hhi1.
  assert (H47 : bpow (7 - 54) == 1 # 140737488355328) by reflexivity.
  rewrite H47 in Hlo1, Hhi1.
  assert (Hpos : ~ F2Q (b - 0.35) <= F2Q 0).
  { intros Hle. apply (leb_F2Q (b - 0.35) 0 Hf1 eq_refl) in Hle. congruence. }
  change (F2Q 0) with 0 in Hpos.
  split; [split; [exact Hf1|split; lra]|split; lra].
Qed.

(** X3.  A call on a battery level above 0.35 and at most 100 does not
    reset: it stores the level minus 0.35, which is positive, smaller than
    the level before, and off the exact difference by at most [1e-14]. *)
Theorem battery_drains (this : SimulatedDevice) (r1 r2 : float) (now : string) :
  (0.35 <? currentBattery this)%float = true ->
  (currentBattery this <=? 100)%float = true ->
  let b := currentBattery this in
  let b' := currentBattery (snd (generateTelemetry this r1 r2 now)) in
  b' = (b - 0.35)%float /\ (0 <? b')%float = true /\ (b' <? b)%float = true /\
  F2Q b - (35 # 100) - (1 # 100000000000000) <= F2Q b'
    <= F2Q b - (35 # 100) + (1 # 100000000000000).
Proof.
  intros Hlo Hhi b b'.
  assert (Hpos : (0 <? b - 0.35)%float = true).
  { rewrite ltb_spec, sub_spec. rewrite ltb_spec in Hlo.
    change (Prim2SF 0) with (S754_zero false).
    change (Prim2SF 0.35) with (S754_finite false 6305039478318694 (-54)) in *.
    apply SFsub_gt_zero; [apply Prim2SF_valid|reflexivity|exact Hlo]. }
  assert (Hf : finiteF b = true).
  { apply (between_finite 0.35 b 100); auto. unfold b.
    rewrite leb_spec. rewrite ltb_spec in Hlo. unfold SFleb, SFltb in *.
    destruct (SFcompare (Prim2SF 0.35) (Prim2SF (currentBattery this))) as [[| |]|];
      try discriminate Hlo; reflexivity. }
  assert (Hnoreset : (b - 0.35 <=? 0)%float = false).
  { rewrite leb_spec. rewrite ltb_spec in Hpos. unfold SFleb, SFltb in *.
    destruct (Prim2SF 0) eqn:H0; try discriminate H0.
    destruct (Prim2SF (b - 0.35)) as [s1|s1| |s1 m1 e1]; try discriminate Hpos.
    - destruct s1; [discriminate Hpos|reflexivity].
    - destruct s1; [discriminate Hpos|reflexivity]. }
  assert (Hb : battery_before b).
  { split; [exact Hf|].
    apply (ltb_F2Q 0.35 b eq_refl Hf) in Hlo. apply (leb_F2Q b 100 Hf eq_refl) in Hhi.
    rewrite F2Q_drain in Hlo. assert (H100 : F2Q 100 == 100) by reflexivity.
    rewrite H100 in Hhi. split; lra. }
  destruct (drain_step_bound b Hb Hnoreset) as ((Hf' & Hlo' & Hhi') & Hdlo & Hdhi).
  unfold least_drain in Hdlo, Hdhi.
  assert (Heq : b' = (b - 0.35)%float).
  { unfold b'. cbn [generateTelemetry snd currentBattery]. fold b. now rewrite Hnoreset. }
  rewrite Heq. split; [reflexivity|]. split; [exact Hpos|]. split.
  - apply (ltb_F2Q (b - 0.35) b Hf' Hf). lra.
  - split; lra.
Qed.

Lemma battery_drains_witness :
  currentBattery (snd (generateTelemetry (calls device7 [(0.5, 0.5, "t")%float]) 0.5 0.5 "t"))
    = (currentBattery (calls device7 [(0.5, 0.5, "t")%float]) - 0.35)%float /\
  (0 <? currentBattery
          (snd (generateTelemetry (calls device7 [(0.5, 0.5, "t")%float]) 0.5 0.5 "t")))%float
    = true /\
  (currentBattery (snd (generateTelemetry (calls device7 [(0.5, 0.5, "t")%float]) 0.5 0.5 "t"))
     <? currentBattery (calls device7 [(0.5, 0.5, "t")%float]))%float = true /\
  F2Q (currentBattery (calls device7 [(0.5, 0.5, "t")%float])) - (35 # 100)
    - (1 # 100000000000000)
  <= F2Q (currentBattery
            (snd (generateTelemetry (calls device7 [(0.5, 0.5, "t")%float]) 0.5 0.5 "t")))
  <= F2Q (currentBattery (calls device7 [(0.5, 0.5, "t")%float])) - (35 # 100)
     + (1 # 100000000000000).
Proof.
  apply (battery_drains (calls device7 [(0.5, 0.5, "t")%float]) 0.5 0.5 "t"); reflexivity.
Defined.

Lemma reset_or_drain (inputs : list (float * float * string)) :
  forall this : SimulatedDevice,
  battery_before (currentBattery this) ->
  (exists k : nat, (1 <= k <= length inputs)%nat /\
     currentBattery (calls this (take k inputs)) = 100%float) \/
  (battery_before (currentBattery (calls this inputs)) /\
   F2Q (currentBattery (calls this inputs))
     <= F2Q (currentBattery this) - inject_Z (Z.of_nat (length inputs)) * least_drain).
Proof.
  induction inputs as [|[[r1 r2] now] rest IH]; intros this Hb.
  - right. cbn [calls foldl length]. split; [exact Hb|].
    change (inject_Z (Z.of_nat 0)) with 0. lra.
  - cbn [calls foldl]. fold (calls (snd (generateTelemetry this r1 r2 now)) rest).
    destruct (currentBattery this - 0.35 <=? 0)%float eqn:Hreset.
    + left. exists 1%nat. split; [cbn [length]; lia|].
      cbn [take calls foldl generateTelemetry snd currentBattery]. now rewrite Hreset.
    + destruct (drain_step_bound (currentBattery this) Hb Hreset) as (Hafter & _ & Hd).
      assert (Hnext : currentBattery (snd (generateTelemetry this r1 r2 now))
                      = (currentBattery this - 0.35)%float).
      { cbn [generateTelemetry snd currentBattery]. now rewrite Hreset. }
      destruct (IH (snd (generateTelemetry this r1 r2 now))) as [(k & Hk & H100)|(Hb' & Hle)].
      { rewrite Hnext. now apply battery_after_before. }
      * left. exists (S k). split; [cbn [length]; lia|].
        cbn [take calls foldl].
        fold (calls (snd (generateTelemetry this r1 r2 now)) (take k rest)). exact H100.
      * right. split; [exact Hb'|]. rewrite Hnext in Hle.
        cbn [length]. rewrite Nat2Z.inj_succ. unfold Z.succ. rewrite inject_Z_plus.
        change (inject_Z 1) with 1. lra.
Qed.

(** X4.  From a battery level between 0 and 100, any 286 calls in a row
    include one that resets the level to exactly 100: the level cannot stay
    positive through 286 drains of 0.35. *)
Theorem battery_resets_within (this : SimulatedDevice)
    (inputs : list (float * float * string)) :
  (0 <=? currentBattery this)%float = true ->
  (currentBattery this <=? 100)%float = true ->
  length inputs = 286%nat ->
  exists k : nat, (1 <= k <= 286)%nat /\
    currentBattery (calls this (take k inputs)) = 100%float.
Proof.
  intros Hlo Hhi Hlen.
  assert (Hf : finiteF (currentBattery this) = true) by (apply (between_finite 0 _ 100); auto).
  assert (Hb : battery_before (currentBattery this)).
  { split; [exact Hf|].
    apply (leb_F2Q 0 (currentBattery this) eq_refl Hf) in Hlo.
    apply (leb_F2Q (currentBattery this) 100 Hf eq_refl) in Hhi.
    change (F2Q 0) with 0 in Hlo.
    assert (H100 : F2Q 100 == 100) by reflexivity. rewrite H100 in Hhi. split; lra. }
  destruct (reset_or_drain inputs this Hb) as [(k & Hk & H100)|((_ & Hpos & _) & Hle)].
  - exists k. rewrite Hlen in Hk. split; [exact Hk|exact H100].
  - exfalso. rewrite Hlen in Hle. destruct Hb as (_ & _ & Hb100).
    unfold least_drain in Hle. change (inject_Z (Z.of_nat 286)) with 286 in Hle. lra.
Qed.

Lemma battery_resets_within_witness :
  exists k : nat, (1 <= k <= 286)%nat /\
    currentBattery (calls device7 (take k (repeat (0.5, 0.5, "t")%float 286))) = 100%float.
Proof.
  apply (battery_resets_within device7 (repeat (0.5, 0.5, "t")%float 286));
    [reflexivity|reflexivity|reflexivity].
Defined.

(** ** The battery of the payload *)

Lemma parseFloat_tenths_range (n : Z) :
  (0 <= n <= 1000)%Z ->
  0 <= F2Q (parseFloat (Tenths false n)) <= 100.
Proof.
  intros Hn.
  assert (Hall : forallb check_tenths_range (Zrange 0 1001) = true) by (vm_compute; reflexivity).
  pose proof (Zrange_check _ _ _ Hall n ltac:(lia)) as Hc.
  unfold check_tenths_range in Hc. cbv zeta in Hc.
  rewrite andb_true_iff in Hc. destruct Hc as [Hlo Hhi].
  split; now apply Qle_bool_iff.
Qed.

(** X5.  The battery of the payload is the level stored by the call, printed
    with one decimal: a numeral [n / 10] with [0 <= n <= 1000], between 0
    and 100 and within 0.05 of the stored level (so a stored level below
    0.05 is reported as 0). *)
Theorem battery_reading (this : SimulatedDevice) (r1 r2 : float) (now : string) :
  (0 <=? currentBattery this)%float = true ->
  (currentBattery this <=? 100)%float = true ->
  let data := fst (generateTelemetry this r1 r2 now) in
  let b' := currentBattery (snd (generateTelemetry this r1 r2 now)) in
  battery data = parseFloat (toFixed1 b') /\
  (exists n : Z, (0 <= n <= 1000)%Z /\ battery data = parseFloat (Tenths false n)) /\
  0 <= F2Q (battery data) <= 100 /\
  F2Q b' - (1 # 20) - (1 # 10000000000) <= F2Q (battery data)
    <= F2Q b' + (1 # 20) + (1 # 10000000000).
Proof.
  intros Hlo Hhi data b'.
  assert (Hf : finiteF (currentBattery this) = true) by (apply (between_finite 0 _ 100); auto).
  assert (Hb : battery_before (currentBattery this)).
  { split; [exact Hf|].
    apply (leb_F2Q 0 (currentBattery this) eq_refl Hf) in Hlo.
    apply (leb_F2Q (currentBattery this) 100 Hf eq_refl) in Hhi.
    change (F2Q 0) with 0 in Hlo.
    assert (H100 : F2Q 100 == 100) by reflexivity. rewrite H100 in Hhi. split; lra. }
  destruct (drain_step this r1 r2 now Hb) as (Hf' & Hlo' & Hhi'). fold b' in Hf', Hlo', Hhi'.
  assert (Hdata : battery data = parseFloat (toFixed1 b')) by reflexivity.
  split; [exact Hdata|]. rewrite Hdata. clearbody b'. clear data Hdata.
  assert (Htext : toFixed1 b' = Tenths false (Qfloor (10 * F2Q b' + (1 # 2)))).
  { unfold toFixed1. unfold F2Q in Hlo', Hhi'. unfold finiteF in Hf'.
    pose proof (Prim2SF_valid b') as Hvalid.
    destruct (Prim2SF b') as [s|s| |s m e] eqn:Hsf; try discriminate Hf'.
    - cbn [SF2Q] in Hlo'. lra.
    - pose proof (SF2Q_nonneg_sign s m e ltac:(lra)) as Hs. subst s.
      assert (He : (e <? -3)%Z = true).
      { apply Z.ltb_lt. destruct (Z_lt_le_dec e (-3)) as [H|H]; [exact H|exfalso].
        cbn [valid_binary] in Hvalid.
        destruct (bounded_inv m e Hvalid) as (_ & _ & Hm). specialize (Hm ltac:(lia)).
        rewrite Zle_Qle in Hm. pose proof (bpow_le (-3) e H) as Hbp.
        assert (H3 : bpow (-3) == 1 # 8) by reflexivity. rewrite H3 in Hbp.
        assert (H52 : inject_Z (2 ^ 52) == 4503599627370496) by reflexivity.
        rewrite H52 in Hm. cbn [SF2Q cond_Zopp] in Hhi'.
        assert (4503599627370496 * (1 # 8) <= inject_Z (Zpos m) * bpow e).
        { apply Qmult_le_compat_nonneg; split; lra. }
        lra. }
      rewrite He. f_equal. apply Qfloor_comp.
      unfold F2Q. rewrite Hsf. rewrite Qabs_pos by lra. reflexivity. }
  set (n := Qfloor (10 * F2Q b' + (1 # 2))) in *.
  pose proof (Qfloor_le (10 * F2Q b' + (1 # 2))) as Hfl.
  pose proof (Qlt_floor (10 * F2Q b' + (1 # 2))) as Hfu.
  fold n in Hfl, Hfu. rewrite inject_Z_plus in Hfu. change (inject_Z 1) with 1 in Hfu.
  assert (Hn : (0 <= n <= 1000)%Z).
  { split.
    - replace 0%Z with (Qfloor (inject_Z 0)) by apply Qfloor_Z.
      apply Qfloor_resp_le. change (inject_Z 0) with 0. lra.
    - change 1000%Z with (Qfloor (1000 + (1 # 2))).
      apply Qfloor_resp_le. lra. }
  rewrite Htext.
  destruct (parseFloat_tenths n Hn) as (_ & Htlo & Hthi).
  pose proof (parseFloat_tenths_range n Hn) as Hrange.
  assert (Hdiv : inject_Z n / 10 == inject_Z n * (1 # 10)) by (unfold Qdiv; reflexivity).
  rewrite Hdiv in Htlo, Hthi.
  split; [exists n; split; [exact Hn|reflexivity]|]. split; [exact Hrange|]. split; lra.
Qed.

Lemma battery_reading_witness :
  battery (fst (generateTelemetry device7 0.5 0.5 "t"))
    = parseFloat (toFixed1 (currentBattery (snd (generateTelemetry device7 0.5 0.5 "t")))) /\
  (exists n : Z, (0 <= n <= 1000)%Z /\
     battery (fst (generateTelemetry device7 0.5 0.5 "t")) = parseFloat (Tenths false n)) /\
  0 <= F2Q (battery (fst (generateTelemetry device7 0.5 0.5 "t"))) <= 100 /\
  F2Q (currentBattery (snd (generateTelemetry device7 0.5 0.5 "t"))) - (1 # 20)
    - (1 # 10000000000)
  <= F2Q (battery (fst (generateTelemetry device7 0.5 0.5 "t")))
  <= F2Q (currentBattery (snd (generateTelemetry device7 0.5 0.5 "t"))) + (1 # 20)
     + (1 # 10000000000).
Proof.
  apply (battery_reading device7 0.5 0.5 "t"); reflexivity.
Defined.

(** A device constructed with the draw 0.07 starts at 7; its 20th call
    stores a level of about [2e-15], which is positive, and reports 0. *)
Example battery_reading_zero :
  let this := calls (new_SimulatedDevice (config device7) "t" 0.07)
                    (repeat (0.5%float, 0.5%float, "t") 19) in
  currentBattery (new_SimulatedDevice (config device7) "t" 0.07) = 7%float /\
  (0 <? currentBattery (snd (generateTelemetry this 0.5 0.5 "t")))%float = true /\
  battery (fst (generateTelemetry this 0.5 0.5 "t")) = 0%float.
Proof. vm_compute. repeat split. Qed.

End GeneratorMore.

(** * Further properties of the agent and of the process *)

(** ** One tick, device by device *)

Lemma forEach_pushData_eq (target : string) (inputs : nat -> Inputs)
    (ds : list SimulatedDevice) :
  forall (k : nat) (io0 : IO),
  forEach_pushData target ds k inputs io0 =
  (Normal (imap (fun j d => push_device d (inputs (k + j)%nat)) ds),
   {| console := console io0 ++ imap (fun j d => push_line d (inputs (k + j)%nat)) ds;
      posted := posted io0 ++
                imap (fun j d => push_request target d (inputs (k + j)%nat)) ds |}).
Proof.
  induction ds as [|d rest IH]; intros k io0.
  - cbn. rewrite !app_nil_r. destruct io0; reflexivity.
  - cbn [forEach_pushData]. unfold bind. rewrite pushData_result. cbv beta iota.
    rewrite IH. unfold ret. cbn [console posted]. rewrite !imap_cons.
    rewrite Nat.add_0_r. rewrite <- !app_assoc. cbn [app].
    assert (Hshift : forall (B : Type) (g : SimulatedDevice -> Inputs -> B),
               imap (fun j x => g x (inputs (S k + j)%nat)) rest =
               imap ((fun j x => g x (inputs (k + j)%nat)) ∘ S) rest).
    { intros B g. apply imap_ext. intros j x _. cbn. do 2 f_equal. lia. }
    rewrite (Hshift _ push_device), (Hshift _ push_line),
      (Hshift _ (push_request target)).
    reflexivity.
Qed.

(** X6.  A fleet tick completes with, for each device in the order of the
    fleet, the device advanced by one [generateTelemetry] call, one request
    sent and one console line written; what is sent and written for a
    device depends on that device and its own inputs only, so a failed
    delivery changes nothing for the others.  (The deliveries of a tick are
    taken to settle in the order they were started, which is the order of
    the console lines.) *)
Theorem tick_each_device (h : Host) (inputs : nat -> Inputs) (p : Process) :
  exists p', tick h inputs p = (Normal tt, p') /\
    devices p' = imap (fun j d => push_device d (inputs j)) (devices p) /\
    console (io p') = console (io p) ++
                      imap (fun j d => push_line d (inputs j)) (devices p) /\
    posted (io p') = posted (io p) ++
                     imap (fun j d => push_request (TARGET_API_URL h) d (inputs j)) (devices p) /\
    routes p' = routes p /\ listening p' = listening p /\ started p' = started p /\
    timers p' = timers p /\ clock p' = clock p /\
    tick_times p' = tick_times p ++ [clock p] /\ crashed p' = crashed p.
Proof.
  unfold tick. rewrite forEach_pushData_eq. eexists. split; [reflexivity|].
  cbn. repeat split.
Qed.

Lemma identity_push_device (d : SimulatedDevice) (i : Inputs) :
  identity (push_device d i) = identity d.
Proof. reflexivity. Qed.

Lemma identity_imap_push (f : nat -> Inputs) (ds : list SimulatedDevice) :
  map identity (imap (fun j d => push_device d (f j)) ds) = map identity ds.
Proof.
  revert f. induction ds as [|d rest IH]; intros f; [reflexivity|].
  rewrite imap_cons. cbn [map]. rewrite identity_push_device. f_equal.
  apply (IH (fun j => f (S j))).
Qed.

(** ** Start-up, entry by entry *)

Lemma fleet_of_cons_some (h : Host) (c : DeviceConfig) (rest : list DeviceConfig)
    (n : nat) (tok : string) :
  resolve_token h c = Some tok ->
  fleet_of h (c :: rest) n =
  new_SimulatedDevice c tok (Math_random h n) :: fleet_of h rest (S n).
Proof.
  intros Hres. unfold fleet_of. cbn [List.filter]. unfold resolvable at 1.
  rewrite Hres. rewrite imap_cons. unfold token_of at 1. rewrite Hres.
  cbn [default]. rewrite Nat.add_0_r. f_equal.
  apply imap_ext. intros j x _. cbn. do 2 f_equal. lia.
Qed.

Lemma fleet_of_cons_none (h : Host) (c : DeviceConfig) (rest : list DeviceConfig)
    (n : nat) :
  resolve_token h c = None -> fleet_of h (c :: rest) n = fleet_of h rest n.
Proof.
  intros Hres. unfold fleet_of. cbn [List.filter]. unfold resolvable at 1.
  rewrite Hres. reflexivity.
Qed.

Lemma warnings_of_cons_some (h : Host) (c : DeviceConfig) (rest : list DeviceConfig)
    (tok : string) :
  resolve_token h c = Some tok -> warnings_of h (c :: rest) = warnings_of h rest.
Proof.
  intros Hres. unfold warnings_of. cbn [List.filter]. unfold resolvable at 1.
  rewrite Hres. reflexivity.
Qed.

Lemma warnings_of_cons_none (h : Host) (c : DeviceConfig) (rest : list DeviceConfig) :
  resolve_token h c = None ->
  warnings_of h (c :: rest) =
  WarnNoToken (deviceId c) (envTokenKey c) :: warnings_of h rest.
Proof.
  intros Hres. unfold warnings_of. cbn [List.filter]. unfold resolvable at 1.
  rewrite Hres. reflexivity.
Qed.

Lemma forEach_instantiate_eq (h : Host) (configs : list DeviceConfig) :
  forall p : Process,
  forEach configs (instantiate h) p =
  (Normal tt,
   with_devices (devices p ++ fleet_of h configs (length (devices p)))
     (with_io {| console := console (io p) ++ warnings_of h configs;
                 posted := posted (io p) |} p)).
Proof.
  induction configs as [|c rest IH]; intros p.
  - cbn. unfold fleet_of, warnings_of. cbn. rewrite !app_nil_r.
    destruct p as [ds [co po] ? ? ? ? ? ? ?]; reflexivity.
  - cbn [forEach]. unfold bind. unfold instantiate at 1.
    destruct (resolve_token h c) as [tok|] eqn:Hres.
    + rewrite IH.
      rewrite (fleet_of_cons_some h c rest _ tok Hres),
        (warnings_of_cons_some h c rest tok Hres).
      unfold with_devices, with_io. cbn. rewrite length_app. cbn [length].
      rewrite Nat.add_1_r, <- app_assoc. reflexivity.
    + unfold lift_io, console_write. cbv beta iota zeta. rewrite IH.
      rewrite (fleet_of_cons_none h c rest _ Hres),
        (warnings_of_cons_none h c rest Hres).
      unfold with_devices, with_io. cbn. rewrite <- app_assoc. reflexivity.
Qed.

Lemma boot_eq (h : Host) (raw : string) (configs : list DeviceConfig) :
  files h !! configPath h = Some raw -> JSON_parse h raw = Some configs ->
  boot h =
  {| devices := fleet_of h configs 0;
     io := {| console := [LogLoading (length configs)] ++ warnings_of h configs ++
                         [LogInitialized (length (fleet_of h configs 0))];
              posted := [] |};
     routes := ["/health"]; listening := Some (PORT h); started := false;
     timers := []; clock := 0; tick_times := []; crashed := None |}.
Proof.
  intros Hfile Hparse.
  unfold boot, top_level, main, bind, readFileSync, parse_registry, ret, throw.
  rewrite Hfile. cbv beta iota zeta. rewrite Hparse. cbv beta iota zeta.
  unfold lift_io at 1, console_write at 1. cbv beta iota zeta.
  rewrite forEach_instantiate_eq. cbv beta iota zeta.
  unfold lift_io, console_write, app_get, app_listen. cbn.
  reflexivity.
Qed.

Lemma filter_partition_length {A : Type} (f : A -> bool) (l : list A) :
  (length (List.filter f l) + length (List.filter (fun a => negb (f a)) l))%nat = length l.
Proof.
  induction l as [|a l IH]; [reflexivity|]. cbn [List.filter].
  destruct (f a); cbn [negb length]; lia.
Qed.

Lemma map_imap_inverse {A B : Type} (g : B -> A) (l : list A) :
  forall f : nat -> A -> B, (forall j a, g (f j a) = a) -> map g (imap f l) = l.
Proof.
  induction l as [|a l IH]; intros f Hf; [reflexivity|].
  rewrite imap_cons. cbn [map]. rewrite Hf. f_equal. apply IH.
  intros j b. apply Hf.
Qed.

(** X7.  Start-up builds the fleet from the registry entries whose token
    resolves, in the order of the registry and without merging entries:
    the [j]-th of them becomes a device with that entry as its config, the
    value of its [TOKEN_DEVICE_<N>] variable as its token, and the [j]-th
    value of [Math.random()] for its battery. *)
Theorem fleet_construction (h : Host) (raw : string) (configs : list DeviceConfig) :
  files h !! configPath h = Some raw -> JSON_parse h raw = Some configs ->
  devices (boot h) = fleet_of h configs 0 /\
  map config (devices (boot h)) = List.filter (resolvable h) configs /\
  (forall (j : nat) (d : SimulatedDevice), devices (boot h) !! j = Some d ->
     env h !! envTokenKey (config d) = Some (token d) /\ token d <> "" /\
     currentBattery d = Math_floor (Math_random h j * 100)).
Proof.
  intros Hfile Hparse. rewrite (boot_eq h raw configs Hfile Hparse). cbn [devices].
  split; [reflexivity|]. split.
  - unfold fleet_of. apply map_imap_inverse. reflexivity.
  - intros j d Hj. unfold fleet_of in Hj. rewrite list_lookup_imap in Hj.
    destruct (List.filter (resolvable h) configs !! j) as [c|] eqn:Hc; [|discriminate].
    cbn in Hj. injection Hj as <-. cbn [new_SimulatedDevice config token currentBattery].
    apply list_elem_of_lookup_2, list_elem_of_In, filter_In in Hc. destruct Hc as [_ Hres].
    unfold resolvable in Hres. unfold token_of.
    destruct (resolve_token h c) as [tok|] eqn:Htok; [|discriminate]. cbn [default].
    unfold resolve_token in Htok.
    destruct (env h !! envTokenKey c) as [tok'|]; [|discriminate].
    destruct (String.eqb tok' "") eqn:He; [discriminate|]. injection Htok as ->.
    apply String.eqb_neq in He. auto.
Qed.

Lemma fleet_construction_witness :
  devices (boot host7) = fleet_of host7
    [ {| deviceId := 7; serial := "S7"; name := "Sensor7"; location := "Lab" |};
      {| deviceId := 8; serial := "S8"; name := "Sensor8"; location := "Roof" |} ] 0 /\
  map config (devices (boot host7)) = List.filter (resolvable host7)
    [ {| deviceId := 7; serial := "S7"; name := "Sensor7"; location := "Lab" |};
      {| deviceId := 8; serial := "S8"; name := "Sensor8"; location := "Roof" |} ] /\
  (forall (j : nat) (d : SimulatedDevice), devices (boot host7) !! j = Some d ->
     env host7 !! envTokenKey (config d) = Some (token d) /\ token d <> "" /\
     currentBattery d = Math_floor (Math_random host7 j * 100)).
Proof. exact (fleet_construction host7 "[...]" _ eq_refl eq_refl). Defined.

(** X8.  The console after start-up: the line with the number of registry
    entries, one warning for each entry whose token does not resolve, in
    the order of the registry, and the line with the number of devices;
    the warnings and the devices together are as many as the entries. *)
Theorem startup_console (h : Host) (raw : string) (configs : list DeviceConfig) :
  files h !! configPath h = Some raw -> JSON_parse h raw = Some configs ->
  console (io (boot h)) =
    [LogLoading (length configs)] ++ warnings_of h configs ++
    [LogInitialized (length (devices (boot h)))] /\
  (length (devices (boot h)) + length (warnings_of h configs))%nat = length configs.
Proof.
  intros Hfile Hparse. rewrite (boot_eq h raw configs Hfile Hparse). cbn [devices io console].
  split; [reflexivity|].
  unfold fleet_of, warnings_of. rewrite length_imap, length_map.
  apply filter_partition_length.
Qed.

Lemma startup_console_witness :
  console (io (boot host7)) =
    [LogLoading 2] ++
    warnings_of host7
      [ {| deviceId := 7; serial := "S7"; name := "Sensor7"; location := "Lab" |};
        {| deviceId := 8; serial := "S8"; name := "Sensor8"; location := "Roof" |} ] ++
    [LogInitialized (length (devices (boot host7)))] /\
  (length (devices (boot host7)) +
   length (warnings_of host7
      [ {| deviceId := 7; serial := "S7"; name := "Sensor7"; location := "Lab" |};
        {| deviceId := 8; serial := "S8"; name := "Sensor8"; location := "Roof" |} ]))%nat
  = 2%nat.
Proof. exact (startup_console host7 "[...]" _ eq_refl eq_refl). Defined.

(** ** The process over any sequence of events *)

Lemma tick_eq (h : Host) (inputs : nat -> Inputs) (p : Process) :
  tick h inputs p =
  (Normal tt,
   {| devices := imap (fun j d => push_device d (inputs j)) (devices p);
      io := {| console := console (io p) ++
                          imap (fun j d => push_line d (inputs j)) (devices p);
               posted := posted (io p) ++
                         imap (fun j d => push_request (TARGET_API_URL h) d (inputs j))
                              (devices p) |};
      routes := routes p; listening := listening p; started := started p;
      timers := timers p; clock := clock p;
      tick_times := tick_times p ++ [clock p]; crashed := crashed p |}).
Proof. unfold tick. rewrite forEach_pushData_eq. reflexivity. Qed.

Lemma handle_Listening_eq (h : Host) (p : Process) (t : Z) (inputs : nat -> Inputs)
    (port : string) :
  crashed p = None -> listening p = Some port -> started p = false ->
  handle h p (Listening t inputs) =
  {| devices := imap (fun j d => push_device d (inputs j)) (devices p);
     io := {| console := console (io p) ++ LogRunning (PORT h) ::
                         imap (fun j d => push_line d (inputs j)) (devices p);
              posted := posted (io p) ++
                        imap (fun j d => push_request (TARGET_API_URL h) d (inputs j))
                             (devices p) |};
     routes := routes p; listening := listening p; started := true;
     timers := timers p ++ [{| delay := UPDATE_INTERVAL_MS;
                               due := Z.max (clock p) t + UPDATE_INTERVAL_MS |}];
     clock := Z.max (clock p) t;
     tick_times := tick_times p ++ [Z.max (clock p) t]; crashed := None |}.
Proof.
  intros Hcr Hli Hst. unfold handle. rewrite Hcr, Hli, Hst.
  unfold top_level, on_listening, startSimulation, bind, lift_io, console_write.
  cbv beta iota zeta. rewrite tick_eq. unfold setInterval. cbn.
  rewrite <- app_assoc. rewrite Hcr, Hli. reflexivity.
Qed.

Lemma handle_TimerDue_eq (h : Host) (p : Process) (t : Timer) (inputs : nat -> Inputs) :
  crashed p = None -> earliest (timers p) = Some t ->
  handle h p (TimerDue inputs) =
  {| devices := imap (fun j d => push_device d (inputs j)) (devices p);
     io := {| console := console (io p) ++
                         imap (fun j d => push_line d (inputs j)) (devices p);
              posted := posted (io p) ++
                        imap (fun j d => push_request (TARGET_API_URL h) d (inputs j))
                             (devices p) |};
     routes := routes p; listening := listening p; started := started p;
     timers := rearm t (timers p);
     clock := Z.max (clock p) (due t);
     tick_times := tick_times p ++ [Z.max (clock p) (due t)]; crashed := None |}.
Proof.
  intros Hcr Hti. unfold handle. rewrite Hcr, Hti.
  unfold top_level, fire. rewrite tick_eq. cbn. rewrite Hcr. reflexivity.
Qed.

Lemma run_snoc (h : Host) (events : list Event) (ev : Event) :
  run h (events ++ [ev]) = handle h (run h events) ev.
Proof. unfold run. rewrite foldl_app. reflexivity. Qed.

Lemma run_invariant (h : Host) (P : Process -> Prop) :
  P (boot h) -> (forall p ev, P p -> P (handle h p ev)) ->
  forall events, P (run h events).
Proof.
  intros H0 Hstep events. induction events as [|ev events IH] using rev_ind.
  - exact H0.
  - rewrite run_snoc. now apply Hstep.
Qed.

Lemma request_ok_push (h : Host) (fleet ds : list SimulatedDevice) (f : nat -> Inputs) :
  map identity ds = map identity fleet ->
  Forall (request_ok h fleet)
    (imap (fun j d => push_request (TARGET_API_URL h) d (f j)) ds).
Proof.
  intros Hid. apply Forall_forall. intros r Hr.
  apply list_elem_of_lookup in Hr. destruct Hr as [j Hj].
  rewrite list_lookup_imap in Hj.
  destruct (ds !! j) as [d|] eqn:Hd; [|discriminate]. cbn in Hj. injection Hj as <-.
  assert (Hin : In (identity d) (map identity fleet)).
  { rewrite <- Hid. apply in_map. apply (proj1 (list_elem_of_In _ _)).
    eapply list_elem_of_lookup_2. exact Hd. }
  apply in_map_iff in Hin. destruct Hin as (d0 & Hd0 & Hin0).
  unfold identity in Hd0. injection Hd0 as Hc Ht _ _.
  split; [reflexivity|]. split; [reflexivity|].
  exists d0. split; [exact Hin0|]. cbn. rewrite Hc, Ht. split; reflexivity.
Qed.

Ltac proj_cbn :=
  cbn [devices io console posted routes listening started timers clock
       tick_times crashed].

Lemma well_run_step (h : Host) (p0 p : Process) (ev : Event) :
  well_run h p0 p -> well_run h p0 (handle h p ev).
Proof.
  intros (Hcr & Hid & Hpost & Hcon & Hreq & Hli & Hro & Htimers).
  assert (Hlen : length (devices p) = length (devices p0)).
  { rewrite <- (length_map identity (devices p)), Hid. apply length_map. }
  destruct ev as [t inputs|inputs|].
  - destruct (started p) eqn:Hst.
    + assert (Hh : handle h p (Listening t inputs) = p).
      { unfold handle. rewrite Hcr, Hli, Hst. reflexivity. }
      rewrite Hh. unfold well_run. rewrite Hst. auto 10.
    + rewrite (handle_Listening_eq h p t inputs _ Hcr Hli Hst).
      destruct Htimers as [Hti Htt]. unfold well_run. proj_cbn.
      rewrite Htt in Hpost, Hcon. cbn [length] in Hpost, Hcon.
      rewrite identity_imap_push, !length_app, Hti, Htt. cbn [length].
      rewrite !length_imap, Hlen.
      split; [reflexivity|]. split; [exact Hid|]. split; [lia|]. split; [lia|].
      split; [apply Forall_app; split; [exact Hreq|now apply request_ok_push]|].
      split; [exact Hli|]. split; [exact Hro|]. eexists. reflexivity.
  - destruct (started p) eqn:Hst.
    + destruct Htimers as [d Hti].
      assert (He : earliest (timers p) = Some {| delay := UPDATE_INTERVAL_MS; due := d |}).
      { rewrite Hti. reflexivity. }
      rewrite (handle_TimerDue_eq h p _ inputs Hcr He). unfold well_run. proj_cbn.
      rewrite identity_imap_push, !length_app, !length_imap, Hst, Hti, Hlen. cbn [length].
      split; [reflexivity|]. split; [exact Hid|]. split; [lia|]. split; [lia|].
      split; [apply Forall_app; split; [exact Hreq|now apply request_ok_push]|].
      split; [exact Hli|]. split; [exact Hro|].
      cbn [rearm due delay]. rewrite !Z.eqb_refl. cbn [andb]. eexists. reflexivity.
    + destruct Htimers as [Hti Htt].
      assert (Hh : handle h p (TimerDue inputs) = p).
      { unfold handle. rewrite Hcr, Hti. reflexivity. }
      rewrite Hh. unfold well_run. rewrite Hst. auto 10.
  - assert (Hh : handle h p HealthRequest = p).
    { unfold handle. rewrite Hcr. reflexivity. }
    rewrite Hh. unfold well_run. auto 10.
Qed.

Lemma started_step (h : Host) (p0 p : Process) (ev : Event) :
  well_run h p0 p -> started (handle h p ev) = started p || is_Listening ev.
Proof.
  intros (Hcr & _ & _ & _ & _ & Hli & _ & Htimers).
  destruct ev as [t inputs|inputs|].
  - destruct (started p) eqn:Hst.
    + unfold handle. rewrite Hcr, Hli, Hst. cbn. exact Hst.
    + rewrite (handle_Listening_eq h p t inputs _ Hcr Hli Hst). reflexivity.
  - cbn [is_Listening]. rewrite orb_false_r. destruct (started p) eqn:Hst.
    + destruct Htimers as [d Hti].
      assert (He : earliest (timers p) = Some {| delay := UPDATE_INTERVAL_MS; due := d |}).
      { rewrite Hti. reflexivity. }
      rewrite (handle_TimerDue_eq h p _ inputs Hcr He). cbn [started]. exact Hst.
    + destruct Htimers as [Hti _]. unfold handle. rewrite Hcr, Hti. cbn. exact Hst.
  - cbn [is_Listening]. rewrite orb_false_r. unfold handle. rewrite Hcr. reflexivity.
Qed.

Lemma well_run_boot (h : Host) (raw : string) (configs : list DeviceConfig) :
  files h !! configPath h = Some raw -> JSON_parse h raw = Some configs ->
  well_run h (boot h) (boot h).
Proof.
  intros Hfile Hparse. rewrite (boot_eq h raw configs Hfile Hparse).
  unfold well_run. cbn. repeat split; try reflexivity; try lia. constructor.
Qed.

Lemma well_run_run (h : Host) (raw : string) (configs : list DeviceConfig)
    (events : list Event) :
  files h !! configPath h = Some raw -> JSON_parse h raw = Some configs ->
  well_run h (boot h) (run h events).
Proof.
  intros Hfile Hparse. apply run_invariant.
  - exact (well_run_boot h raw configs Hfile Hparse).
  - intros p ev. apply well_run_step.
Qed.

Lemma boot_cases (h : Host) :
  (exists raw configs,
     files h !! configPath h = Some raw /\ JSON_parse h raw = Some configs) \/
  (files h !! configPath h = None \/
   (exists raw, files h !! configPath h = Some raw /\ JSON_parse h raw = None)).
Proof.
  destruct (files h !! configPath h) as [raw|] eqn:Hfile; [|right; left; reflexivity].
  destruct (JSON_parse h raw) as [configs|] eqn:Hparse.
  - left. exists raw, configs. split; [reflexivity|exact Hparse].
  - right. right. exists raw. split; [reflexivity|exact Hparse].
Qed.

Lemma boot_timers (h : Host) : timers (boot h) = [].
Proof.
  destruct (boot_cases h) as [(raw & configs & Hfile & Hparse)|Hbad].
  - rewrite (boot_eq h raw configs Hfile Hparse). reflexivity.
  - destruct (boot_failed h Hbad) as [Hboot _]. rewrite Hboot. reflexivity.
Qed.

Lemma unresolvable_excluded (h : Host) (raw : string) (configs : list DeviceConfig)
    (c : DeviceConfig) (events : list Event) :
  files h !! configPath h = Some raw -> JSON_parse h raw = Some configs ->
  In c configs -> resolvable h c = false ->
  (forall d, In d (devices (run h events)) -> deviceId (config d) <> deviceId c) /\
  In (WarnNoToken (deviceId c) (envTokenKey c)) (console (io (run h events))) /\
  ~ In c (List.filter (resolvable h) configs).
Proof.
  intros Hfile Hparse Hin Hc.
  destruct (boot_ok h raw configs Hfile Hparse) as (_ & Hcfg0 & Hwarn & _).
  destruct (run_stable h events (boot h)) as (Hcfg & (lines & Hcon) & _).
  fold (run h events) in Hcfg, Hcon. rewrite Hcfg0 in Hcfg.
  split; [|split].
  - intros d Hd Hid.
    assert (Hcd : In (config d) (List.filter (resolvable h) configs)).
    { rewrite <- Hcfg. apply in_map. exact Hd. }
    apply filter_In in Hcd. destruct Hcd as [_ Hres].
    unfold resolvable, resolve_token, envTokenKey in Hres, Hc.
    rewrite Hid in Hres. rewrite Hres in Hc. discriminate.
  - rewrite Hcon. apply in_app_iff. left. now apply Hwarn.
  - intros Hf. apply filter_In in Hf. destruct Hf as [_ Hres]. congruence.
Qed.

(** X9.  A registry entry whose [TOKEN_DEVICE_<N>] variable is set to the
    empty string is treated as one whose variable is absent: [if (!token)]
    takes it, so the warning is written and no device with its ID is in the
    fleet, after start-up and any sequence of events. *)
Theorem empty_token_excluded (h : Host) (raw : string) (configs : list DeviceConfig)
    (c : DeviceConfig) (events : list Event) :
  files h !! configPath h = Some raw -> JSON_parse h raw = Some configs ->
  In c configs -> env h !! envTokenKey c = Some "" ->
  (forall d, In d (devices (run h events)) -> deviceId (config d) <> deviceId c) /\
  In (WarnNoToken (deviceId c) (envTokenKey c)) (console (io (run h events))) /\
  ~ In c (List.filter (resolvable h) configs).
Proof.
  intros Hfile Hparse Hin Henv.
  apply (unresolvable_excluded h raw configs c events Hfile Hparse Hin).
  unfold resolvable, resolve_token. rewrite Henv. reflexivity.
Qed.

Lemma empty_token_excluded_witness :
  (forall d, In d (devices (run host_empty_token [Listening 0 inputs_ok_all; TimerDue inputs_ok_all])) ->
     deviceId (config d) <> 8%Z) /\
  In (WarnNoToken 8 "TOKEN_DEVICE_8")
     (console (io (run host_empty_token [Listening 0 inputs_ok_all; TimerDue inputs_ok_all]))) /\
  ~ In {| deviceId := 8; serial := "S8"; name := "Sensor8"; location := "Roof" |}
       (List.filter (resolvable host_empty_token)
          [ {| deviceId := 7; serial := "S7"; name := "Sensor7"; location := "Lab" |};
            {| deviceId := 8; serial := "S8"; name := "Sensor8"; location := "Roof" |} ]).
Proof.
  exact (empty_token_excluded host_empty_token "[...]" _
           {| deviceId := 8; serial := "S8"; name := "Sensor8"; location := "Roof" |}
           [Listening 0 inputs_ok_all; TimerDue inputs_ok_all]
           eq_refl eq_refl (or_intror (or_introl eq_refl)) eq_refl).
Defined.

Lemma identity_fleet_of (h : Host) (l : list DeviceConfig) :
  forall n : nat,
  map identity
    (imap (fun j c => new_SimulatedDevice c (token_of h c) (Math_random h (n + j))) l) =
  map (fun c => (c, token_of h c,
                 (20 + Z.rem (deviceId c) 10)%Z, (40 + Z.rem (deviceId c) 15)%Z)) l.
Proof.
  induction l as [|c l IH]; intros n; [reflexivity|].
  rewrite imap_cons. cbn [map]. f_equal. rewrite <- (IH (S n)). f_equal.
  apply imap_ext. intros j x _. cbn. do 2 f_equal. lia.
Qed.

(** X10.  The fleet is fixed at start-up.  After any sequence of events the
    devices are, in the order of the registry, those of the entries whose
    token resolves, each with its entry, its token and its two base values
    as the constructor set them: no event adds, removes, reorders or changes
    the credentials of a device.  So an entry whose variable is set to a
    non-empty value always has its device. *)
Theorem fleet_fixed (h : Host) (raw : string) (configs : list DeviceConfig)
    (events : list Event) :
  files h !! configPath h = Some raw -> JSON_parse h raw = Some configs ->
  map identity (devices (run h events)) =
    map (fun c => (c, token_of h c,
                   (20 + Z.rem (deviceId c) 10)%Z, (40 + Z.rem (deviceId c) 15)%Z))
        (List.filter (resolvable h) configs) /\
  (forall c tok, In c configs -> env h !! envTokenKey c = Some tok -> tok <> "" ->
     exists d, In d (devices (run h events)) /\ config d = c /\ token d = tok).
Proof.
  intros Hfile Hparse.
  destruct (well_run_run h raw configs events Hfile Hparse) as (_ & Hid & _).
  assert (Hfleet : map identity (devices (run h events)) =
    map (fun c => (c, token_of h c,
                   (20 + Z.rem (deviceId c) 10)%Z, (40 + Z.rem (deviceId c) 15)%Z))
        (List.filter (resolvable h) configs)).
  { rewrite Hid, (boot_eq h raw configs Hfile Hparse). cbn [devices].
    unfold fleet_of. apply identity_fleet_of. }
  split; [exact Hfleet|].
  intros c tok Hin Henv Htok.
  assert (Hres : resolve_token h c = Some tok).
  { unfold resolve_token. rewrite Henv.
    destruct (String.eqb tok "") eqn:He; [|reflexivity].
    apply String.eqb_eq in He. contradiction. }
  assert (Hc : In (c, token_of h c, (20 + Z.rem (deviceId c) 10)%Z,
                   (40 + Z.rem (deviceId c) 15)%Z)
                  (map identity (devices (run h events)))).
  { rewrite Hfleet.
    apply (in_map (fun c => (c, token_of h c, (20 + Z.rem (deviceId c) 10)%Z,
                             (40 + Z.rem (deviceId c) 15)%Z))).
    apply filter_In. split; [exact Hin|]. unfold resolvable. rewrite Hres. reflexivity. }
  apply in_map_iff in Hc. destruct Hc as (d & Hd & Hind).
  exists d. split; [exact Hind|]. unfold identity in Hd. injection Hd as Hcfg Htk _ _.
  split; [exact Hcfg|]. rewrite Htk. unfold token_of. rewrite Hres. reflexivity.
Qed.

Lemma fleet_fixed_witness :
  map identity (devices (run host7 [Listening 0 inputs_ok_all; TimerDue inputs_ok_all])) =
    map (fun c => (c, token_of host7 c,
                   (20 + Z.rem (deviceId c) 10)%Z, (40 + Z.rem (deviceId c) 15)%Z))
        (List.filter (resolvable host7)
           [ {| deviceId := 7; serial := "S7"; name := "Sensor7"; location := "Lab" |};
             {| deviceId := 8; serial := "S8"; name := "Sensor8"; location := "Roof" |} ]) /\
  (forall c tok,
     In c [ {| deviceId := 7; serial := "S7"; name := "Sensor7"; location := "Lab" |};
            {| deviceId := 8; serial := "S8"; name := "Sensor8"; location := "Roof" |} ] ->
     env host7 !! envTokenKey c = Some tok -> tok <> "" ->
     exists d, In d (devices (run host7 [Listening 0 inputs_ok_all; TimerDue inputs_ok_all])) /\
               config d = c /\ token d = tok).
Proof.
  exact (fleet_fixed host7 "[...]" _ [Listening 0 inputs_ok_all; TimerDue inputs_ok_all]
           eq_refl eq_refl).
Defined.

(** X11.  Once the server is up the process never crashes, whatever the
    events and whatever the network answers: the simulation has started
    exactly when a [listening] event has come, and from then on the process
    has the one route [/health] and holds exactly one interval timer, of
    [UPDATE_INTERVAL_MS]; a second [listening] event does not start the
    simulation again.  Before that it holds no timer, has run no tick and
    has sent nothing. *)
Theorem process_keeps_running (h : Host) (raw : string) (configs : list DeviceConfig)
    (events : list Event) :
  files h !! configPath h = Some raw -> JSON_parse h raw = Some configs ->
  started (run h events) = existsb is_Listening events /\
  (if started (run h events)
   then crashed (run h events) = None /\ routes (run h events) = ["/health"] /\
        exists d, timers (run h events) = [{| delay := UPDATE_INTERVAL_MS; due := d |}]
   else timers (run h events) = [] /\ tick_times (run h events) = [] /\
        posted (io (run h events)) = []).
Proof.
  intros Hfile Hparse. split.
  - induction events as [|ev events IH] using rev_ind.
    + unfold run. cbn [foldl existsb]. rewrite (boot_eq h raw configs Hfile Hparse).
      reflexivity.
    + rewrite run_snoc, existsb_app. cbn [existsb]. rewrite orb_false_r, <- IH.
      apply (started_step h (boot h)).
      exact (well_run_run h raw configs events Hfile Hparse).
  - destruct (well_run_run h raw configs events Hfile Hparse)
      as (Hcr & _ & Hpost & _ & _ & _ & Hro & Htimers).
    destruct (started (run h events)).
    + split; [exact Hcr|]. split; [exact Hro|]. exact Htimers.
    + destruct Htimers as [Hti Htt]. split; [exact Hti|]. split; [exact Htt|].
      rewrite Htt in Hpost. cbn in Hpost. now apply length_zero_iff_nil.
Qed.

Lemma process_keeps_running_witness :
  started (run host7 [Listening 0 inputs_ok_all; Listening 5 inputs_ok_all;
                      TimerDue inputs_refused])
  = existsb is_Listening [Listening 0 inputs_ok_all; Listening 5 inputs_ok_all;
                          TimerDue inputs_refused] /\
  (if started (run host7 [Listening 0 inputs_ok_all; Listening 5 inputs_ok_all;
                          TimerDue inputs_refused])
   then crashed (run host7 [Listening 0 inputs_ok_all; Listening 5 inputs_ok_all;
                            TimerDue inputs_refused]) = None /\
        routes (run host7 [Listening 0 inputs_ok_all; Listening 5 inputs_ok_all;
                           TimerDue inputs_refused]) = ["/health"] /\
        exists d, timers (run host7 [Listening 0 inputs_ok_all; Listening 5 inputs_ok_all;
                                     TimerDue inputs_refused])
                  = [{| delay := UPDATE_INTERVAL_MS; due := d |}]
   else timers (run host7 [Listening 0 inputs_ok_all; Listening 5 inputs_ok_all;
                           TimerDue inputs_refused]) = [] /\
        tick_times (run host7 [Listening 0 inputs_ok_all; Listening 5 inputs_ok_all;
                               TimerDue inputs_refused]) = [] /\
        posted (io (run host7 [Listening 0 inputs_ok_all; Listening 5 inputs_ok_all;
                               TimerDue inputs_refused])) = []).
Proof. exact (process_keeps_running host7 "[...]" _ _ eq_refl eq_refl). Defined.

(** X12.  What the process has sent and written, after any sequence of
    events: one request for every device at every fleet tick, and on the
    console, after the lines of start-up, the line of [app.listen] once the
    server is up and one line for every device at every fleet tick, the
    deliveries of those ticks having settled. *)
Theorem traffic_accounting (h : Host) (raw : string) (configs : list DeviceConfig)
    (events : list Event) :
  files h !! configPath h = Some raw -> JSON_parse h raw = Some configs ->
  let p := run h events in
  length (posted (io p)) = (length (tick_times p) * length (devices p))%nat /\
  length (console (io p)) =
    (length (console (io (boot h))) + (if started p then 1 else 0)
     + length (tick_times p) * length (devices p))%nat.
Proof.
  intros Hfile Hparse p.
  destruct (well_run_run h raw configs events Hfile Hparse)
    as (_ & Hid & Hpost & Hcon & _).
  fold p in Hid, Hpost, Hcon.
  assert (Hlen : length (devices p) = length (devices (boot h))).
  { rewrite <- (length_map identity (devices p)), Hid. apply length_map. }
  rewrite Hlen. split; assumption.
Qed.

Lemma traffic_accounting_witness :
  let p := run host7 [Listening 0 inputs_ok_all; HealthRequest; TimerDue inputs_ok_all] in
  length (posted (io p)) = (length (tick_times p) * length (devices p))%nat /\
  length (console (io p)) =
    (length (console (io (boot host7))) + (if started p then 1 else 0)
     + length (tick_times p) * length (devices p))%nat.
Proof. exact (traffic_accounting host7 "[...]" _ _ eq_refl eq_refl). Defined.

(** X13.  Every request the process ever sends goes to [TARGET_API_URL]
    (the default URL when the variable is unset or empty), carries exactly
    the two headers [Content-Type: application/json] and [x-device-token]
    with the token of a device of the fleet, and has in its body the ID of
    that same device, firmware 1.0.4 and status ok. *)
Theorem requests_wellformed (h : Host) (events : list Event) (r : Request) :
  In r (posted (io (run h events))) ->
  request_ok h (devices (boot h)) r /\
  (env h !! "TARGET_API_URL" = None \/ env h !! "TARGET_API_URL" = Some "" ->
   url r = default_TARGET_API_URL).
Proof.
  intros Hr.
  assert (Hok : request_ok h (devices (boot h)) r).
  { destruct (boot_cases h) as [(raw & configs & Hfile & Hparse)|Hbad].
    - destruct (well_run_run h raw configs events Hfile Hparse)
        as (_ & _ & _ & _ & Hreq & _).
      rewrite Forall_forall in Hreq. apply Hreq. apply list_elem_of_In. exact Hr.
    - destruct (boot_failed h Hbad) as [Hboot Hcr].
      unfold run in Hr. rewrite (run_crashed h events (boot h) Hcr), Hboot in Hr.
      destruct Hr. }
  split; [exact Hok|].
  intros Henv. destruct Hok as [-> _]. unfold TARGET_API_URL.
  destruct Henv as [-> | ->]; reflexivity.
Qed.

Lemma requests_wellformed_witness :
  request_ok host7 (devices (boot host7))
    (push_request (TARGET_API_URL host7) device7_started inputs_ok) /\
  (env host7 !! "TARGET_API_URL" = None \/ env host7 !! "TARGET_API_URL" = Some "" ->
   url (push_request (TARGET_API_URL host7) device7_started inputs_ok)
   = default_TARGET_API_URL).
Proof.
  apply (requests_wellformed host7 [Listening 0 inputs_ok_all]).
  left. reflexivity.
Defined.

Lemma quiet_run (h : Host) (events : list Event) :
  forallb (fun ev => negb (is_Listening ev)) events = true ->
  forall p : Process, timers p = [] -> foldl (handle h) p events = p.
Proof.
  induction events as [|ev rest IH]; intros Hq p Hti; [reflexivity|].
  cbn [forallb] in Hq. apply andb_true_iff in Hq. destruct Hq as [Hev Hrest].
  cbn [foldl].
  assert (Hh : handle h p ev = p).
  { unfold handle. destruct (crashed p); [reflexivity|].
    destruct ev as [t inputs|inputs|]; [discriminate Hev| |reflexivity].
    rewrite Hti. reflexivity. }
  rewrite Hh. now apply IH.
Qed.

(** X14.  Nothing happens before the server is up: as long as no
    [listening] event has come, the process is as start-up left it, so no
    telemetry has been generated or sent and no timer is set; timer and
    [/health] events change nothing. *)
Theorem quiet_before_listening (h : Host) (events : list Event) :
  forallb (fun ev => negb (is_Listening ev)) events = true ->
  run h events = boot h /\ posted (io (run h events)) = [] /\
  tick_times (run h events) = [] /\ timers (run h events) = [].
Proof.
  intros Hq.
  assert (Hrun : run h events = boot h).
  { unfold run. apply quiet_run; [exact Hq|apply boot_timers]. }
  rewrite Hrun. split; [reflexivity|].
  destruct (boot_cases h) as [(raw & configs & Hfile & Hparse)|Hbad].
  - rewrite (boot_eq h raw configs Hfile Hparse). repeat split.
  - destruct (boot_failed h Hbad) as [Hboot _]. rewrite Hboot. repeat split.
Qed.

Lemma quiet_before_listening_witness :
  run host7 [HealthRequest; TimerDue inputs_ok_all; HealthRequest] = boot host7 /\
  posted (io (run host7 [HealthRequest; TimerDue inputs_ok_all; HealthRequest])) = [] /\
  tick_times (run host7 [HealthRequest; TimerDue inputs_ok_all; HealthRequest]) = [] /\
  timers (run host7 [HealthRequest; TimerDue inputs_ok_all; HealthRequest]) = [].
Proof.
  apply (quiet_before_listening host7 [HealthRequest; TimerDue inputs_ok_all; HealthRequest]).
  reflexivity.
Defined.
